(** * Nimbus core: message router, event bus and message factories

    A shallow embedding of the TypeScript sources of the Nimbus core
    package, and the properties of the routing, publishing, retry and
    factory code stated over it.

    Conventions of the embedding.
    - A JavaScript value is a [JSValue].  Numbers that travel inside
      messages and the settings of a retry policy are given by integer
      literals ([Z]).  The retry delay is computed in Numbers (IEEE 754
      binary64, [IEEE754.double]) with their rounding, infinities and
      NaN.
    - A JavaScript string is a [string] holding the UTF-8 bytes of the
      text, so the length of its UTF-8 encoding is [String.length].
    - An [async] function is a computation in the monad [M]: a normal
      completion is a fulfilled promise, an abrupt one is a rejection, and
      [await] is sequencing.
    - What the platform supplies (random numbers, identifiers, the clock,
      stack capture, JSON serialization) is collected in [Platform].
    - Calls that leave the framework are recorded, in order, in the
      [effects] of the state: telemetry, logger calls, timers, and every
      invocation of a handler or of an error callback. *)

From Stdlib Require Import ZArith QArith Qminmax Lqa String Ascii List Lia.
From Stdlib Require Import Qpower Qround Qreduction.
From stdpp Require Import base option list gmap strings pretty.

Set Warnings "-register-all".
Local Open Scope string_scope.
Local Open Scope Z_scope.

(** ** Numbers (IEEE 754 binary64)

    The Number values the retry delay is computed with.  A finite Number
    is given by its value, an exact rational; the sign of zero is not
    kept (no operation of the sources tells the two zeros apart).  Every
    arithmetic operation rounds the exact result to the nearest Number,
    ties to even, as the standard asks. *)

Module IEEE754.

Local Open Scope Q_scope.

Inductive double : Type :=
| Finite (value : Q)
| Infinity (negative : bool)
| NaN.

(** [floor(log2 x)] for a positive rational [x]. *)
Definition ilog2 (x : Q) : Z :=
  let e := (Z.log2 (Qnum x) - Z.log2 (Z.pos (Qden x)))%Z in
  if Qle_bool (2 ^ e) x then e else (e - 1)%Z.

(** The nearest integer, the even one of two that are equally near. *)
Definition round_half_even (x : Q) : Z :=
  let f := Qfloor x in
  match Qcompare (x - inject_Z f) (1 # 2) with
  | Lt => f
  | Gt => (f + 1)%Z
  | Eq => if Z.even f then f else (f + 1)%Z
  end.

(** The spacing of the Numbers around a positive [x]: 53 significant
    bits from [2^-1022] on, and the fixed spacing [2^-1074] below. *)
Definition ulp (x : Q) : Q := 2 ^ (Z.max (ilog2 x) (-1022) - 52).

(** A positive rational rounded to a multiple of the spacing. *)
Definition round_positive (x : Q) : Q :=
  inject_Z (round_half_even (x / ulp x)) * ulp x.

(** Round to nearest, ties to even; a result of magnitude [2^1024] or
    more is infinite. *)
Definition RN (x : Q) : double :=
  match Qcompare x 0 with
  | Eq => Finite 0
  | Gt =>
      let y := round_positive x in
      if Qle_bool (2 ^ 1024) y then Infinity false else Finite (Qred y)
  | Lt =>
      let y := round_positive (- x) in
      if Qle_bool (2 ^ 1024) y then Infinity true else Finite (Qred (- y))
  end.

(** The Number an integer literal denotes. *)
Definition of_Z (z : Z) : double := RN (inject_Z z).

(** The literal [0.1]. *)
Definition one_tenth : double := RN (1 # 10).

(** [a * b] *)
Definition mul (a b : double) : double :=
  match a, b with
  | NaN, _ | _, NaN => NaN
  | Finite x, Finite y => RN (x * y)
  | Finite x, Infinity s | Infinity s, Finite x =>
      match Qcompare x 0 with
      | Eq => NaN
      | Gt => Infinity s
      | Lt => Infinity (negb s)
      end
  | Infinity s, Infinity t => Infinity (xorb s t)
  end.

(** [a + b] *)
Definition add (a b : double) : double :=
  match a, b with
  | NaN, _ | _, NaN => NaN
  | Finite x, Finite y => RN (x + y)
  | Finite _, Infinity s | Infinity s, Finite _ => Infinity s
  | Infinity s, Infinity t => if Bool.eqb s t then Infinity s else NaN
  end.

(** [Math.min(a, b)] *)
Definition Math_min (a b : double) : double :=
  match a, b with
  | NaN, _ | _, NaN => NaN
  | Infinity true, _ | _, Infinity true => Infinity true
  | Infinity false, y => y
  | x, Infinity false => x
  | Finite x, Finite y => if Qle_bool x y then a else b
  end.

(** [Math.pow(2, k)] for an integer [k]: the power itself where it is a
    Number, infinite above and zero below. *)
Definition Math_pow2 (k : Z) : double :=
  if (1024 <=? k)%Z then Infinity false
  else if (k <? -1074)%Z then Finite 0
  else Finite (Qred (2 ^ k)).

End IEEE754.

Arguments IEEE754.RN : simpl never.
Arguments IEEE754.of_Z : simpl never.
Arguments IEEE754.one_tenth : simpl never.
Arguments IEEE754.mul : simpl never.
Arguments IEEE754.add : simpl never.
Arguments IEEE754.Math_min : simpl never.
Arguments IEEE754.Math_pow2 : simpl never.

(** [Number::toString] for the Number an integer literal denotes. *)
Module NumberToString.

Import IEEE754.

(** Reading the decimal [c] gives the Number of value [v]. *)
Definition reads_back (v c : Z) : bool :=
  match of_Z c with
  | Finite q => Qeq_bool q (inject_Z v)
  | _ => false
  end.

Definition digits (v : Z) : Z := Z.of_nat (String.length (pretty v)).

(** The decimal of [k] significant digits nearest to [v] (the one with
    an even last digit of two equally near), if it reads back as [v]. *)
Definition candidate (v k : Z) : option Z :=
  let p := 10 ^ (digits v - k) in
  let lo := v / p * p in
  let hi := lo + p in
  match reads_back v lo, reads_back v hi with
  | true, true =>
      Some (if v - lo <? hi - v then lo
            else if hi - v <? v - lo then hi
            else if Z.even (v / p) then lo else hi)
  | true, false => Some lo
  | false, true => Some hi
  | false, false => None
  end.

(** The decimal with the fewest significant digits that reads back as
    [v]; seventeen digits identify every Number. *)
Fixpoint shortest (v k : Z) (fuel : nat) : Z :=
  match fuel with
  | O => v
  | S fuel' =>
      if digits v <=? k then v
      else match candidate v k with
           | Some c => c
           | None => shortest v (k + 1) fuel'
           end
  end.

(** A decimal numeral without its trailing zeros. *)
Fixpoint significant (s : string) : string :=
  match s with
  | EmptyString => EmptyString
  | String c rest =>
      match significant rest with
      | EmptyString => if Ascii.eqb c "0" then EmptyString
                       else String c EmptyString
      | r => String c r
      end
  end.

(** A positive integer-valued Number: plain digits up to 21 of them,
    and the exponent form beyond. *)
Definition positive_toString (v : Z) : string :=
  let text := pretty (shortest v 1 17) in
  let n := Z.of_nat (String.length text) in
  if n <=? 21 then text
  else
    match significant text with
    | String d EmptyString => String d ("e+" +:+ pretty (n - 1))
    | String d rest => String d ("." +:+ rest +:+ "e+" +:+ pretty (n - 1))
    | EmptyString => text
    end.

Definition Number_toString (z : Z) : string :=
  match of_Z z with
  | Finite q =>
      let v := Qfloor q in
      if v <? 0 then "-" +:+ positive_toString (- v)
      else if v =? 0 then "0"
      else positive_toString v
  | Infinity false => "Infinity"
  | Infinity true => "-Infinity"
  | NaN => "NaN"
  end.

End NumberToString.

Arguments NumberToString.Number_toString : simpl never.

(** ** JavaScript values *)

Module JS.

(** [JSNumber n] is the Number the integer literal [n] denotes. *)
Inductive JSValue : Type :=
| JSUndefined
| JSNull
| JSBoolean (b : bool)
| JSNumber (n : Z)
| JSString (s : string)
| JSArray (items : list JSValue)
| JSObject (props : list (string * JSValue)).

(** The double quote character, as a one-character string. *)
Definition dquote : string := String (ascii_of_nat 34) EmptyString.

(** ToBoolean: what [if (v)], [!v] and [v && w] test. *)
Definition truthy (v : JSValue) : bool :=
  match v with
  | JSUndefined | JSNull => false
  | JSBoolean b => b
  | JSNumber n => negb (n =? 0)
  | JSString EmptyString => false
  | JSString (String _ _) => true
  | JSArray _ | JSObject _ => true
  end.

(** Own property lookup in the property list of an object literal: the
    first binding of the key. *)
Fixpoint own_property (props : list (string * JSValue)) (key : string)
  : JSValue :=
  match props with
  | [] => JSUndefined
  | (k, v) :: rest => if String.eqb k key then v else own_property rest key
  end.

(** [v.key] on a value that is neither [undefined] nor [null].  Only own
    properties of object literals are modelled; on the other values every
    key the sources read is absent. *)
Definition get (v : JSValue) (key : string) : JSValue :=
  match v with
  | JSObject props => own_property props key
  | _ => JSUndefined
  end.

(** [v?.key] *)
Definition opt_get (v : JSValue) (key : string) : JSValue :=
  match v with
  | JSUndefined | JSNull => JSUndefined
  | _ => get v key
  end.

(** [v] is [undefined] or [null]. *)
Definition nullish (v : JSValue) : bool :=
  match v with
  | JSUndefined | JSNull => true
  | _ => false
  end.

(** [v ?? d] *)
Definition nullish_or (v d : JSValue) : JSValue :=
  match v with
  | JSUndefined | JSNull => d
  | _ => v
  end.

(** [o ?? d] for an optional, typed field. *)
Definition option_or {A : Type} (o : option A) (d : A) : A :=
  match o with
  | Some a => a
  | None => d
  end.

(** An optional string: the string, or [undefined]. *)
Definition of_optional (o : option string) : JSValue :=
  match o with
  | Some s => JSString s
  | None => JSUndefined
  end.

(** Concatenation of strings with a separator, as [Array.prototype.join]. *)
Fixpoint join (sep : string) (parts : list string) : string :=
  match parts with
  | [] => EmptyString
  | [p] => p
  | p :: rest => p +:+ sep +:+ join sep rest
  end.

(** ToString, as applied by a template literal [`${v}`]. *)
Fixpoint ToString (v : JSValue) : string :=
  match v with
  | JSUndefined => "undefined"
  | JSNull => "null"
  | JSBoolean true => "true"
  | JSBoolean false => "false"
  | JSNumber n => NumberToString.Number_toString n
  | JSString s => s
  | JSArray items =>
      join ","
        (List.map
           (fun x =>
              match x with
              | JSUndefined | JSNull => EmptyString
              | _ => ToString x
              end)
           items)
  | JSObject _ => "[object Object]"
  end.

(** [...(c && { key: v })] inside an object literal: the property is
    added exactly when [c] is truthy. *)
Definition spread_if (c : JSValue) (key : string) (v : JSValue)
  : list (string * JSValue) :=
  if truthy c then [(key, v)] else [].

(** [has_property v key]: reading [key] from [v] does not give
    [undefined]. *)
Definition has_property (v : JSValue) (key : string) : bool :=
  match opt_get v key with
  | JSUndefined => false
  | _ => true
  end.

End JS.
Export JS.

(** ** Errors and the exception classes *)

Module Exceptions.

(** A Zod validation error: the issue list, and the message and stack the
    error object carries. *)
Record ZodError : Type := {
  issues : list JSValue;
  zod_message : string;
  zod_stack : option string
}.

Inductive ErrorClass : Type :=
| NativeError
| TypeError
| ExceptionClass
| InvalidInputException
| NotFoundException
| GenericException.

(** An instance of [Error] or of one of its subclasses.  [message] and
    [stack] are strings when the constructor sets them, and any value
    after an assignment; [details] and [stack] are [JSUndefined] and
    [statusCode] is [None] while the field is unset. *)
Record ErrorObject : Type := {
  class : ErrorClass;
  name : string;
  message : JSValue;
  details : JSValue;
  statusCode : option Z;
  stack : JSValue
}.

(** Anything a [throw] can carry. *)
Inductive Thrown : Type :=
| ThrownError (e : ErrorObject)
| ThrownZodError (z : ZodError)
| ThrownValue (v : JSValue).

(** [error instanceof Error] *)
Definition instanceof_Error (t : Thrown) : bool :=
  match t with
  | ThrownError _ | ThrownZodError _ => true
  | ThrownValue _ => false
  end.

(** [undefined] or [null], thrown as such. *)
Definition is_nullish (t : Thrown) : bool :=
  match t with
  | ThrownValue JSUndefined | ThrownValue JSNull => true
  | _ => false
  end.

Section Constructors.

(** [Error.captureStackTrace]: the stack text the platform records for
    an error created with the given message, if it records one. *)
Variable captureStackTrace : string -> option string.

(** [new Error(message)] *)
Definition new_Error (msg : string) : ErrorObject :=
  {| class := NativeError; name := "Error"; message := JSString msg;
     details := JSUndefined; statusCode := None;
     stack := of_optional (captureStackTrace msg) |}.

(** [new TypeError(message)], as the platform throws it. *)
Definition new_TypeError (msg : string) : ErrorObject :=
  {| class := TypeError; name := "TypeError"; message := JSString msg;
     details := JSUndefined; statusCode := None;
     stack := of_optional (captureStackTrace msg) |}.

(** The error of reading property [key] of [undefined] or [null]. *)
Definition cannot_read (t : Thrown) (key : string) : ErrorObject :=
  new_TypeError
    ("Cannot read properties of "
     +:+ match t with
         | ThrownValue v => ToString v
         | _ => "undefined"
         end
     +:+ " (reading '" +:+ key +:+ "')").

(** The constructor of the base class [Exception]. *)
Definition new_Exception (c : ErrorClass) (nm msg : string)
    (dtl : JSValue) (status : Z) : ErrorObject :=
  {| class := c; name := nm; message := JSString msg;
     details := if truthy dtl then dtl else JSUndefined;
     statusCode := if truthy (JSNumber status) then Some status else None;
     stack := of_optional (captureStackTrace msg) |}.

Definition new_InvalidInputException (msg : option string) (dtl : JSValue)
  : ErrorObject :=
  new_Exception InvalidInputException "INVALID_INPUT"
    (option_or msg "Invalid input") dtl 400.

Definition new_NotFoundException (msg : option string) (dtl : JSValue)
  : ErrorObject :=
  new_Exception NotFoundException "NOT_FOUND"
    (option_or msg "Not found") dtl 404.

Definition new_GenericException (msg : option string) (dtl : JSValue)
  : ErrorObject :=
  new_Exception GenericException "INTERNAL_SERVER_ERROR"
    (option_or msg "Internal server error") dtl 500.

End Constructors.

(** [t.message] and [t.stack] for a thrown value [t] other than
    [undefined] and [null]. *)
Definition thrown_message (t : Thrown) : JSValue :=
  match t with
  | ThrownError e => message e
  | ThrownZodError z => JSString (zod_message z)
  | ThrownValue v => get v "message"
  end.

Definition thrown_stack (t : Thrown) : JSValue :=
  match t with
  | ThrownError e => stack e
  | ThrownZodError z => of_optional (zod_stack z)
  | ThrownValue v => get v "stack"
  end.

(** [Exception.fromError], for an [error] other than [undefined] and
    [null]. *)
Definition fromError (this : ErrorObject) (error : Thrown) : ErrorObject :=
  {| class := class this; name := name this;
     message := thrown_message error;
     details := details this; statusCode := statusCode this;
     stack := thrown_stack error |}.

(** [InvalidInputException.fromZodError] *)
Definition fromZodError (this : ErrorObject) (error : ZodError)
  : ErrorObject :=
  {| class := class this; name := name this; message := message this;
     details :=
       if truthy (JSArray (issues error))
       then JSObject [("issues", JSArray (issues error))]
       else details this;
     statusCode := statusCode this;
     stack :=
       if truthy (of_optional (zod_stack error))
       then of_optional (zod_stack error)
       else stack this |}.

End Exceptions.
Export Exceptions.

(** ** The platform, observable effects and the computation monad *)

Module Runtime.

Inductive SpanKind : Type := INTERNAL | PRODUCER | CONSUMER.

Inductive LogLevel : Type := LevelDebug | LevelInfo | LevelError.

(** What a histogram observes: an elapsed wall-clock time (not modelled
    further) or a size in bytes. *)
Inductive Measurement : Type :=
| ElapsedSeconds
| SizeBytes (n : Z).

Definition Labels : Type := list (string * JSValue).

(** The calls that leave the framework, in the order they are made. *)
Inductive Effect : Type :=
| StartActiveSpan (span_name : string) (kind : SpanKind) (attributes : Labels)
| SpanSetStatusError (status_message : JSValue)
| SpanRecordException (exception : Thrown)
| SpanAddRetryEvent (attempt : Z) (delay_ms : IEEE754.double)
| SpanEnd
| CounterAdd (counter : string) (amount : Z) (labels : Labels)
| HistogramRecord (histogram : string) (value : Measurement) (labels : Labels)
| LoggerCall (level : LogLevel) (category : string) (text : JSValue)
    (error : option Thrown)
| SetTimeout (delay_ms : IEEE754.double)
| HandlerInvoked (argument : JSValue)
| OnErrorInvoked (error : Thrown) (event : JSValue)
| LogInputInvoked (input : JSValue)
| LogOutputInvoked (output : JSValue)
| LogPublishInvoked (event : JSValue).

(** What the JavaScript platform and the imported libraries supply.  The
    [k]-th read of the platform (a random number, an identifier, the
    clock) is the value of the corresponding function at [k];
    [Math_random] gives the value of the Number that [Math.random]
    returns. *)
Record Platform : Type := {
  Math_random : nat -> Q;
  Math_random_range : forall k, (0 <= Math_random k /\ Math_random k < 1)%Q;
  ulid : nat -> string;
  Date_toISOString : nat -> string;
  captureStackTrace : string -> option string;
  JSON_stringify : JSValue -> string;
  unhandled_error_message : JSValue -> string
}.

Section Monad.

(** The part of the program state that handlers and callbacks of the
    application read and write. *)
Context {W : Type}.

Record State : Type := {
  world : W;
  effects : list Effect;
  reads : nat
}.

(** How a call ends: with a value, or with a thrown value (for an
    [async] function: fulfilled or rejected). *)
Inductive Completion (A : Type) : Type :=
| Normal (a : A)
| Abrupt (t : Thrown).
Arguments Normal {A} a.
Arguments Abrupt {A} t.

Definition M (A : Type) : Type := State -> Completion A * State.

Definition ret {A : Type} (a : A) : M A := fun st => (Normal a, st).

Definition throw {A : Type} (t : Thrown) : M A := fun st => (Abrupt t, st).

Definition bind {A B : Type} (c : M A) (k : A -> M B) : M B :=
  fun st =>
    match c st with
    | (Normal a, st') => k a st'
    | (Abrupt t, st') => (Abrupt t, st')
    end.

(** [try { body } catch (error) { handler }] *)
Definition try_catch {A : Type} (body : M A) (handler : Thrown -> M A)
  : M A :=
  fun st =>
    match body st with
    | (Normal a, st') => (Normal a, st')
    | (Abrupt t, st') => handler t st'
    end.

(** [try { body } finally { final }] *)
Definition try_finally {A : Type} (body : M A) (final : M unit) : M A :=
  fun st =>
    match body st with
    | (r, st') =>
        match final st' with
        | (Normal _, st'') => (r, st'')
        | (Abrupt t, st'') => (Abrupt t, st'')
        end
    end.

(** Record one effect. *)
Definition perform (e : Effect) : M unit :=
  fun st =>
    (Normal tt,
     {| world := world st; effects := (effects st ++ [e])%list;
        reads := reads st |}).

(** Read the platform once: the index of the read is returned and the
    read counter advances. *)
Definition platform_read : M nat :=
  fun st =>
    (Normal (reads st),
     {| world := world st; effects := effects st; reads := S (reads st) |}).

(** A callback of the application whose result is not used, such as
    [logInput], [logOutput], [inputLogFunc] or [logPublish]: it updates
    the world and returns, or throws. *)
Definition Callback : Type := JSValue -> W -> Completion unit * W.

(** A handler of the application: called with a message, it updates the
    world and either resolves to a value or fails with a thrown value
    (thrown before or after its first suspension). *)
Definition Handler : Type := JSValue -> W -> Completion JSValue * W.

(** A handler that fails on every invocation. *)
Definition always_throws (h : Handler) : Prop :=
  forall (message : JSValue) (w : W),
    exists (error : Thrown) (w' : W), h message w = (Abrupt error, w').

(** An error callback [(error, event) => void]: it updates the world
    and returns, or throws. *)
Definition ErrorCallback : Type :=
  Thrown -> JSValue -> W -> Completion unit * W.

(** Run a function of the application on the world. *)
Definition call_out {A : Type} (f : W -> Completion A * W) : M A :=
  fun st =>
    match f (world st) with
    | (r, w') =>
        (r, {| world := w'; effects := effects st; reads := reads st |})
    end.

(** [await handler(message)] *)
Definition call_handler (h : Handler) (message : JSValue) : M JSValue :=
  fun st =>
    match h message (world st) with
    | (r, w') =>
        (r, {| world := w';
               effects := (effects st ++ [HandlerInvoked message])%list;
               reads := reads st |})
    end.

(** [if (callback) { callback(argument) }] *)
Definition call_if_set (cb : option Callback) (mark : JSValue -> Effect)
    (argument : JSValue) : M unit :=
  match cb with
  | Some f => bind (perform (mark argument)) (fun _ => call_out (f argument))
  | None => ret tt
  end.

(** The world after [if (callback) { callback(argument) }]. *)
Definition after_callback (cb : option Callback) (argument : JSValue)
    (w : W) : W :=
  match cb with
  | Some f => snd (f argument w)
  | None => w
  end.

(** The callback is not set, or it returns when called with [argument]
    in the world [w]. *)
Definition returns_normally (cb : option Callback) (argument : JSValue)
    (w : W) : Prop :=
  match cb with
  | Some f => fst (f argument w) = Normal tt
  | None => True
  end.

(** The callback is set and throws [t] when called with [argument] in
    the world [w]. *)
Definition throws (cb : option Callback) (argument : JSValue) (w : W)
    (t : Thrown) : Prop :=
  exists f, cb = Some f /\ fst (f argument w) = Abrupt t.

(** The world after [n] invocations of a handler on the same message,
    one after the other with nothing else touching the world. *)
Fixpoint world_after (h : Handler) (message : JSValue) (n : nat) (w : W)
  : W :=
  match n with
  | O => w
  | S n' => world_after h message n' (snd (h message w))
  end.

(** How many times a handler was invoked, read off a list of effects. *)
Fixpoint handler_invocations (l : list Effect) : nat :=
  match l with
  | [] => O
  | HandlerInvoked _ :: rest => S (handler_invocations rest)
  | _ :: rest => handler_invocations rest
  end.

(** The errors passed to an error callback, in order. *)
Fixpoint onError_calls (l : list Effect) : list (Thrown * JSValue) :=
  match l with
  | [] => []
  | OnErrorInvoked error event :: rest => (error, event) :: onError_calls rest
  | _ :: rest => onError_calls rest
  end.

End Monad.

Arguments State W : clear implicits.
Arguments M W A : clear implicits.
Arguments Callback W : clear implicits.
Arguments Handler W : clear implicits.
Arguments ErrorCallback W : clear implicits.
Arguments Normal {A} a.
Arguments Abrupt {A} t.

Declare Scope js_scope.
Delimit Scope js_scope with js.
Notation "x <- c ;; k" := (bind c (fun x => k))
  (at level 100, c at next level, right associativity) : js_scope.
Notation "c ;; k" := (bind c (fun _ => k))
  (at level 100, right associativity) : js_scope.

End Runtime.
Export Runtime.

(** ** Schemas (the Zod interface the routers use) *)

Module Schema.

Inductive SafeParseResult : Type :=
| ParseSuccess (data : JSValue)
| ParseFailure (error : ZodError).

(** A schema is known to the routers through [safeParse] only; [data] is
    the value the schema produces, which need not be its input. *)
Record ZodSchema : Type := { safeParse : JSValue -> SafeParseResult }.

(** [schema.parse(input)]: the data, or the error thrown. *)
Definition parse {W : Type} (schema : ZodSchema) (input : JSValue)
  : M W JSValue :=
  match safeParse schema input with
  | ParseSuccess data => ret data
  | ParseFailure error => throw (ThrownZodError error)
  end.

End Schema.
Export Schema.

(** ** The message router (packages/core/src/lib/message/router.ts) *)

Module MessageRouting.

Section Router.

Context {W : Type}.
Variable P : Platform.

Record HandlerRegistration : Type := {
  handler : Handler W;
  schema : ZodSchema
}.

Record MessageRouter : Type := {
  _handlers : gmap string HandlerRegistration;
  _name : string;
  _logInput : option (Callback W);
  _logOutput : option (Callback W)
}.

Record MessageRouterOptions : Type := {
  opt_name : option string;
  opt_logInput : option (Callback W);
  opt_logOutput : option (Callback W)
}.

(** [new MessageRouter(options)] *)
Definition new_MessageRouter (options : option MessageRouterOptions)
  : MessageRouter :=
  {| _handlers := ∅;
     _name := option_or (options ≫= opt_name) "default";
     _logInput := options ≫= opt_logInput;
     _logOutput := options ≫= opt_logOutput |}.

(** [Map.prototype.get] on a map whose keys are strings. *)
Definition Map_get {A : Type} (m : gmap string A) (key : JSValue)
  : option A :=
  match key with
  | JSString s => m !! s
  | _ => None
  end.

(** [register(messageType, handler, schema)]; the router returned is
    the router after the call. *)
Definition register (this : MessageRouter) (messageType : string)
    (h : Handler W) (s : ZodSchema) : M W MessageRouter :=
  (perform (LoggerCall LevelDebug "Nimbus"
              (JSString ("Registered handler for: " +:+ messageType))
              None) ;;
   ret {| _handlers :=
            <[messageType := {| handler := h; schema := s |}]>
              (_handlers this);
          _name := _name this;
          _logInput := _logInput this;
          _logOutput := _logOutput this |})%js.

Definition routed_labels (this : MessageRouter) (message_type : JSValue)
    (status : string) : Labels :=
  [("router_name", JSString (_name this));
   ("message_type", message_type);
   ("status", JSString status)].

Definition duration_labels (this : MessageRouter) (message_type : JSValue)
  : Labels :=
  [("router_name", JSString (_name this));
   ("message_type", message_type)].

(** The body of the [try] block of [route]. *)
Definition route_try (this : MessageRouter) (input : JSValue)
  : M W JSValue :=
  (call_if_set (_logInput this) LogInputInvoked input ;;
   if negb (truthy (opt_get input "type")) then
     throw (ThrownError
              (new_InvalidInputException (captureStackTrace P)
                 (Some "The provided input has no type attribute")
                 JSUndefined))
   else
     match Map_get (_handlers this) (get input "type") with
     | None =>
         throw (ThrownError
                  (new_NotFoundException (captureStackTrace P)
                     (Some "Message handler not found")
                     (JSObject
                        [("reason",
                          JSString
                            ("Could not find a handler for message type: "
                             +:+ dquote +:+ ToString (get input "type")
                             +:+ dquote))])))
     | Some registration =>
         match safeParse (schema registration) input with
         | ParseFailure error =>
             throw (ThrownError
                      (fromZodError
                         (new_InvalidInputException (captureStackTrace P)
                            (Some "The provided input is invalid")
                            JSUndefined)
                         error))
         | ParseSuccess data =>
             result <- call_handler (handler registration) data ;;
             call_if_set (_logOutput this) LogOutputInvoked result ;;
             perform (CounterAdd "router_messages_routed_total" 1
                        (routed_labels this (get input "type") "success")) ;;
             perform (HistogramRecord "router_routing_duration_seconds"
                        ElapsedSeconds
                        (duration_labels this (get input "type"))) ;;
             ret result
         end
     end)%js.

(** The [catch] block of [route]. *)
Definition route_catch (this : MessageRouter) (messageType : JSValue)
    (error : Thrown) : M W JSValue :=
  (perform (CounterAdd "router_messages_routed_total" 1
              (routed_labels this messageType "error")) ;;
   perform (HistogramRecord "router_routing_duration_seconds"
              ElapsedSeconds (duration_labels this messageType)) ;;
   perform (SpanSetStatusError
              (if instanceof_Error error then thrown_message error
               else JSString "Unknown error")) ;;
   perform (SpanRecordException
              (if instanceof_Error error then error
               else ThrownError
                      (new_Error (captureStackTrace P) "Unknown error"))) ;;
   throw error)%js.

(** [route(input)] *)
Definition route (this : MessageRouter) (input : JSValue) : M W JSValue :=
  let messageType :=
    nullish_or (opt_get input "type") (JSString "unknown") in
  (perform (StartActiveSpan "router.route" INTERNAL
              ([("messaging.system", JSString "nimbusRouter");
                ("messaging.router_name", JSString (_name this));
                ("messaging.operation", JSString "route");
                ("messaging.destination", messageType)]
               ++ spread_if (opt_get input "correlationid")
                    "correlation_id" (get input "correlationid"))%list) ;;
   try_finally
     (try_catch (route_try this input) (route_catch this messageType))
     (perform SpanEnd))%js.

End Router.

End MessageRouting.

(** ** The handler-map router (packages/core/src/lib/router/router.ts) *)

Module HandlerMapRouter.

Section Router.

Context {W : Type}.
Variable P : Platform.

(** A route handler is an ordinary function returning a promise: it can
    throw before it returns (the outer completion), and the promise it
    returns is fulfilled or rejected (the inner one). *)
Definition RouteHandler : Type :=
  JSValue -> W -> Completion (Completion JSValue) * W.

Record Route : Type := {
  handler : RouteHandler;
  inputType : ZodSchema
}.

(** [RouteHandlerMap]: an object literal from type names to routes. *)
Definition RouteHandlerMap : Type := list (string * Route).

(** The property names every object literal inherits on Deno, the
    runtime of the package.  (Deno removes [__proto__] from
    [Object.prototype]; on Node that name is inherited as well.) *)
Definition Object_prototype_keys : list string :=
  ["constructor"; "hasOwnProperty"; "isPrototypeOf";
   "propertyIsEnumerable"; "toLocaleString"; "toString"; "valueOf";
   "__defineGetter__"; "__defineSetter__"; "__lookupGetter__";
   "__lookupSetter__"].

Inductive Member : Type :=
| OwnRoute (r : Route)
| Inherited
| Absent.

Fixpoint own_route (m : RouteHandlerMap) (key : string) : option Route :=
  match m with
  | [] => None
  | (k, r) :: rest => if String.eqb k key then Some r else own_route rest key
  end.

(** [handlerMap[key]] *)
Definition member (m : RouteHandlerMap) (key : string) : Member :=
  match own_route m key with
  | Some r => OwnRoute r
  | None =>
      if existsb (String.eqb key) Object_prototype_keys then Inherited
      else Absent
  end.

Definition call_route_handler (h : RouteHandler) (input : JSValue)
  : M W (Completion JSValue) :=
  fun st =>
    match h input (world st) with
    | (r, w') =>
        (r, {| world := w';
               effects := (effects st ++ [HandlerInvoked input])%list;
               reads := reads st |})
    end.

(** The [catch] block of the router. *)
Definition router_catch (error : Thrown) : M W (Completion JSValue) :=
  match error with
  | ThrownZodError z =>
      throw (ThrownError
               (fromZodError
                  (new_InvalidInputException (captureStackTrace P) None
                     JSUndefined)
                  z))
  | _ =>
      if is_nullish error then
        throw (ThrownError
                 (cannot_read (captureStackTrace P) error "message"))
      else
        throw (ThrownError
                 (fromError
                    (new_GenericException (captureStackTrace P) None
                       JSUndefined)
                    error))
  end.

(** [createRouter({ handlerMap, inputLogFunc })]: the router function.
    The router is not [async]: an abrupt completion is an exception
    thrown to the caller, a normal one carries the handler's promise. *)
Definition createRouter (handlerMap : RouteHandlerMap)
    (inputLogFunc : option (Callback W)) (input : JSValue)
  : M W (Completion JSValue) :=
  (call_if_set inputLogFunc LogInputInvoked input ;;
   match input with
   | JSUndefined | JSNull =>
       throw (ThrownError
                (cannot_read (captureStackTrace P) (ThrownValue input)
                   "type"))
   | _ =>
       match member handlerMap (ToString (get input "type")) with
       | Absent =>
           throw (ThrownError
                    (new_NotFoundException (captureStackTrace P)
                       (Some "Route handler not found")
                       (JSObject
                          [("reason",
                            JSString
                              ("Could not find a handler for " +:+ dquote
                               +:+ ToString (get input "type")
                               +:+ dquote))])))
       | Inherited =>
           try_catch
             (throw (ThrownError
                       (cannot_read (captureStackTrace P)
                          (ThrownValue JSUndefined) "parse")))
             router_catch
       | OwnRoute r =>
           try_catch
             (validInput <- parse (inputType r) input ;;
              call_route_handler (handler r) validInput)
             router_catch
       end
   end)%js.

End Router.

End HandlerMapRouter.

(** ** The event bus (NimbusEventBus) *)

Module EventBus.

Section Bus.

Context {W : Type}.
Variable P : Platform.

Record NimbusEventBusOptions : Type := {
  opt_name : option string;
  opt_maxRetries : option Z;
  opt_baseDelay : option Z;
  opt_maxDelay : option Z;
  opt_useJitter : option bool;
  opt_logPublish : option (Callback W)
}.

Record SubscribeEventInput : Type := {
  type : string;
  handler : Handler W;
  onError : option (ErrorCallback W);
  options : option NimbusEventBusOptions
}.

(** A listener of the emitter: the closure [handleEvent] that
    [subscribeEvent] builds, given by the values it captures. *)
Record Listener : Type := {
  l_handler : Handler W;
  l_onError : option (ErrorCallback W);
  l_maxRetries : Z;
  l_baseDelay : Z;
  l_maxDelay : Z;
  l_useJitter : bool
}.

(** The emitter keeps its listeners in the order they were added. *)
Record NimbusEventBus : Type := {
  _eventEmitter : list (string * Listener);
  _name : string;
  _maxRetries : Z;
  _baseDelay : Z;
  _maxDelay : Z;
  _useJitter : bool;
  _logPublish : option (Callback W)
}.

(** [new NimbusEventBus(options)] *)
Definition new_NimbusEventBus (o : option NimbusEventBusOptions)
  : NimbusEventBus :=
  {| _eventEmitter := [];
     _name := option_or (o ≫= opt_name) "default";
     _maxRetries := option_or (o ≫= opt_maxRetries) 2;
     _baseDelay := option_or (o ≫= opt_baseDelay) 1000;
     _maxDelay := option_or (o ≫= opt_maxDelay) 30000;
     _useJitter := option_or (o ≫= opt_useJitter) true;
     _logPublish := o ≫= opt_logPublish |}.

Definition metricLabels (this : NimbusEventBus) (event : JSValue)
  : Labels :=
  [("eventbus_name", JSString (_name this));
   ("event_type", get event "type")].

Definition span_attributes (this : NimbusEventBus) (operation : string)
    (event : JSValue) : Labels :=
  ([("messaging.system", JSString "nimbusEventBus");
    ("messaging.eventbus_name", JSString (_name this));
    ("messaging.operation", JSString operation);
    ("messaging.destination", get event "type");
    ("cloudevents.event_id", get event "id");
    ("cloudevents.event_source", get event "source")]
   ++ spread_if (get event "correlationid")
        "correlation_id" (get event "correlationid"))%list.

(** [_validateEventSize(event)] *)
Definition _validateEventSize (event : JSValue) : M W Z :=
  let eventJson := JSON_stringify P event in
  let size := Z.of_nat (String.length eventJson) in
  let maxSizeBytes := 64 * 1024 in
  if size >? maxSizeBytes then
    throw (ThrownError
             (new_GenericException (captureStackTrace P)
                (Some "Event size exceeds the limit of 64KB")
                (JSObject
                   [("eventType", get event "type");
                    ("eventSource", get event "source");
                    ("eventSizeBytes", JSNumber size);
                    ("maxSizeBytes", JSNumber maxSizeBytes)])))
  else ret size.

(** [Math.min(baseDelay * Math.pow(2, attempt - 1), maxDelay)], the
    constant [delay] of [_calculateRetryDelay]. *)
Definition capped_delay (attempt baseDelay maxDelay : Z) : IEEE754.double :=
  IEEE754.Math_min
    (IEEE754.mul (IEEE754.of_Z baseDelay) (IEEE754.Math_pow2 (attempt - 1)))
    (IEEE754.of_Z maxDelay).

(** [_calculateRetryDelay(attempt, baseDelay, maxDelay, useJitter)];
    [Math.random] is read only when jitter is on. *)
Definition _calculateRetryDelay (attempt baseDelay maxDelay : Z)
    (useJitter : bool) : M W IEEE754.double :=
  let delay := capped_delay attempt baseDelay maxDelay in
  if useJitter then
    (k <- platform_read ;;
     ret (IEEE754.add delay
            (IEEE754.mul
               (IEEE754.mul (IEEE754.Finite (Math_random P k)) delay)
               IEEE754.one_tenth)))%js
  else ret (IEEE754.add delay (IEEE754.of_Z 0)).

(** [_recordDeliveryMetrics(metricLabels, status, startTime)] *)
Definition _recordDeliveryMetrics (labels : Labels) (status : string)
  : M W unit :=
  (perform (CounterAdd "eventbus_events_delivered_total" 1
              (labels ++ [("status", JSString status)])%list) ;;
   perform (HistogramRecord "eventbus_event_handling_duration_seconds"
              ElapsedSeconds labels))%js.

Definition with_stack (e : ErrorObject) (s : JSValue) : ErrorObject :=
  {| class := class e; name := name e; message := message e;
     details := details e; statusCode := statusCode e; stack := s |}.

(** The exception [_handleFinalFailure] builds and throws. *)
Definition final_exception (error : Thrown) (event : JSValue)
    (maxRetries baseDelay maxDelay : Z) : ErrorObject :=
  let exception :=
    new_GenericException (captureStackTrace P)
      (Some ("Failed to handle event: " +:+ ToString (get event "type")
             +:+ " from " +:+ ToString (get event "source")))
      (JSObject
         [("maxRetries", JSNumber maxRetries);
          ("baseDelay", JSNumber baseDelay);
          ("maxDelay", JSNumber maxDelay)]) in
  if instanceof_Error error && truthy (thrown_stack error)
  then with_stack exception (thrown_stack error)
  else exception.

(** [_handleFinalFailure(options)]; its return type is [never]. *)
Definition _handleFinalFailure (error : Thrown) (event : JSValue)
    (labels : Labels) (maxRetries baseDelay maxDelay : Z) : M W unit :=
  (_recordDeliveryMetrics labels "error" ;;
   perform (SpanSetStatusError
              (if instanceof_Error error then thrown_message error
               else JSString "Unknown error")) ;;
   perform (SpanRecordException
              (if instanceof_Error error then error
               else ThrownError
                      (new_Error (captureStackTrace P) "Unknown error"))) ;;
   perform SpanEnd ;;
   throw (ThrownError
            (final_exception error event maxRetries baseDelay maxDelay)))%js.

(** Run a computation and hand its completion to the caller, as a
    [try] block does for its [catch]. *)
Definition attempt_of {A : Type} (c : M W A) : M W (Completion A) :=
  fun st => match c st with (r, st') => (Normal r, st') end.

(** The [while (attempt <= maxRetries)] loop of [_processEvent].  Every
    iteration that does not leave the function increments [attempt], so
    [maxRetries + 1 - attempt] iterations suffice; [fuel] is that bound
    (see [retry_loop_fuel]). *)
Fixpoint retry_loop (this : NimbusEventBus) (h : Handler W)
    (event : JSValue) (maxRetries baseDelay maxDelay : Z)
    (useJitter : bool) (fuel : nat) (attempt : Z) {struct fuel}
  : M W unit :=
  if attempt <=? maxRetries then
    match fuel with
    | O => ret tt
    | S fuel' =>
        (r <- attempt_of (call_handler h event) ;;
         match r with
         | Normal _ =>
             _recordDeliveryMetrics (metricLabels this event) "success" ;;
             perform SpanEnd ;;
             ret tt
         | Abrupt error =>
             let attempt := attempt + 1 in
             (if attempt >? maxRetries then
                _handleFinalFailure error event (metricLabels this event)
                  maxRetries baseDelay maxDelay
              else ret tt) ;;
             perform (CounterAdd "eventbus_retry_attempts_total" 1
                        (metricLabels this event)) ;;
             delayMs <- _calculateRetryDelay attempt baseDelay maxDelay
                          useJitter ;;
             perform (SpanAddRetryEvent attempt delayMs) ;;
             perform (SetTimeout delayMs) ;;
             retry_loop this h event maxRetries baseDelay maxDelay
               useJitter fuel' attempt
         end)%js
    end
  else ret tt.

(** [_processEvent(handler, event, maxRetries, baseDelay, maxDelay,
    useJitter)] *)
Definition _processEvent (this : NimbusEventBus) (h : Handler W)
    (event : JSValue) (maxRetries baseDelay maxDelay : Z)
    (useJitter : bool) : M W unit :=
  (perform (StartActiveSpan "eventbus.handle" CONSUMER
              (span_attributes this "process" event)) ;;
   retry_loop this h event maxRetries baseDelay maxDelay useJitter
     (Z.to_nat (maxRetries + 1)) 0)%js.

(** The listener [handleEvent] of one subscription: one delivery of
    [event] to it. *)
Definition handleEvent (this : NimbusEventBus) (l : Listener)
    (event : JSValue) : M W unit :=
  try_catch
    (_processEvent this (l_handler l) event (l_maxRetries l)
       (l_baseDelay l) (l_maxDelay l) (l_useJitter l))
    (fun error =>
       match l_onError l with
       | Some f =>
           (perform (OnErrorInvoked error event) ;;
            call_out (f error event))%js
       | None =>
           if is_nullish error then
             throw (ThrownError
                      (cannot_read (captureStackTrace P) error "message"))
           else
             perform (LoggerCall LevelError "Nimbus" (thrown_message error)
                        (Some error))
       end).

(** [subscribeEvent({ type, handler, onError, options })]; the bus
    returned is the bus after the call. *)
Definition subscribeEvent (this : NimbusEventBus)
    (input : SubscribeEventInput) : M W NimbusEventBus :=
  (perform (LoggerCall LevelInfo "Nimbus"
              (JSString ("Subscribed to " +:+ type input +:+ " event"))
              None) ;;
   let l :=
     {| l_handler := handler input;
        l_onError := onError input;
        l_maxRetries :=
          option_or (options input ≫= opt_maxRetries) (_maxRetries this);
        l_baseDelay :=
          option_or (options input ≫= opt_baseDelay) (_baseDelay this);
        l_maxDelay :=
          option_or (options input ≫= opt_maxDelay) (_maxDelay this);
        l_useJitter :=
          option_or (options input ≫= opt_useJitter) (_useJitter this) |} in
   ret {| _eventEmitter := (_eventEmitter this ++ [(type input, l)])%list;
          _name := _name this;
          _maxRetries := _maxRetries this;
          _baseDelay := _baseDelay this;
          _maxDelay := _maxDelay this;
          _useJitter := _useJitter this;
          _logPublish := _logPublish this |})%js.

(** The listeners added for an event name, in order. *)
Definition listeners (this : NimbusEventBus) (eventName : string)
  : list Listener :=
  List.map snd
    (List.filter (fun entry => String.eqb (fst entry) eventName)
       (_eventEmitter this)).

(** Start an [async] function and drop the promise it returns. *)
Definition detach (c : M W unit) : M W unit :=
  fun st => match c st with (_, st') => (Normal tt, st') end.

Fixpoint call_listeners (this : NimbusEventBus) (ls : list Listener)
    (event : JSValue) : M W unit :=
  match ls with
  | [] => ret tt
  | l :: rest =>
      (detach (handleEvent this l event) ;;
       call_listeners this rest event)%js
  end.

(** [_eventEmitter.emit(eventName, event)].  Each listener is called in
    order and its delivery is run to its end before the next one is
    called; the interleaving of deliveries that are pending at the same
    time is not modelled.  An emitter without a listener for the name
    [error] throws. *)
Definition emit (this : NimbusEventBus) (eventName : string)
    (event : JSValue) : M W bool :=
  match listeners this eventName with
  | [] =>
      if String.eqb eventName "error" then
        throw (ThrownError
                 (new_Error (captureStackTrace P)
                    (unhandled_error_message P event)))
      else ret false
  | ls => (call_listeners this ls event ;; ret true)%js
  end.

(** [putEvent(event)]; reading [event.type] for the metric labels
    throws when the event is [undefined] or [null]. *)
Definition putEvent (this : NimbusEventBus) (event : JSValue) : M W unit :=
  (eventSize <- _validateEventSize event ;;
   (if nullish event then
      throw (ThrownError
               (cannot_read (captureStackTrace P) (ThrownValue event)
                  "type"))
    else ret tt) ;;
   perform (StartActiveSpan "eventbus.publish" PRODUCER
              (span_attributes this "publish" event)) ;;
   try_finally
     (try_catch
        (perform (CounterAdd "eventbus_events_published_total" 1
                    (metricLabels this event)) ;;
         perform (HistogramRecord "eventbus_event_size_bytes"
                    (SizeBytes eventSize) (metricLabels this event)) ;;
         call_if_set (_logPublish this) LogPublishInvoked event ;;
         emit this (ToString (get event "type")) event ;;
         ret tt)
        (fun error =>
           perform (SpanSetStatusError
                      (if instanceof_Error error then thrown_message error
                       else JSString "Unknown error")) ;;
           perform (SpanRecordException
                      (if instanceof_Error error then error
                       else ThrownError
                              (new_Error (captureStackTrace P)
                                 "Unknown error"))) ;;
           throw error))
     (perform SpanEnd))%js.

End Bus.

End EventBus.

Arguments EventBus.capped_delay : simpl never.

(** ** Message factories (createCommand, createQuery, createEvent) *)

Module Message.

Section Factories.

Context {W : Type}.
Variable P : Platform.

(** [field ?? ulid()] *)
Definition or_ulid (field : option string) : M W string :=
  match field with
  | Some s => ret s
  | None => (k <- platform_read ;; ret (ulid P k))%js
  end.

(** [field ?? new Date().toISOString()] *)
Definition or_now (field : option string) : M W string :=
  match field with
  | Some s => ret s
  | None => (k <- platform_read ;; ret (Date_toISOString P k))%js
  end.

(** [CreateCommandInput] *)
Record CreateCommandInput : Type := {
  c_id : option string;
  c_correlationid : option string;
  c_time : option string;
  c_source : string;
  c_type : string;
  c_subject : option string;
  c_data : JSValue;
  c_datacontenttype : option string;
  c_dataschema : option string
}.

Definition createCommand (i : CreateCommandInput) : M W JSValue :=
  (id <- or_ulid (c_id i) ;;
   correlationid <- or_ulid (c_correlationid i) ;;
   time <- or_now (c_time i) ;;
   ret (JSObject
          ([("specversion", JSString "1.0");
            ("id", JSString id);
            ("correlationid", JSString correlationid);
            ("time", JSString time);
            ("source", JSString (c_source i));
            ("type", JSString (c_type i))]
           ++ spread_if (of_optional (c_subject i))
                "subject" (of_optional (c_subject i))
           ++ [("data", c_data i);
               ("datacontenttype",
                JSString (option_or (c_datacontenttype i)
                            "application/json"))]
           ++ spread_if (of_optional (c_dataschema i))
                "dataschema" (of_optional (c_dataschema i)))%list))%js.

(** [CreateQueryInput] *)
Record CreateQueryInput : Type := {
  q_id : option string;
  q_correlationid : option string;
  q_time : option string;
  q_source : string;
  q_type : string;
  q_data : JSValue;
  q_datacontenttype : option string;
  q_dataschema : option string
}.

Definition createQuery (i : CreateQueryInput) : M W JSValue :=
  (id <- or_ulid (q_id i) ;;
   correlationid <- or_ulid (q_correlationid i) ;;
   time <- or_now (q_time i) ;;
   ret (JSObject
          ([("specversion", JSString "1.0");
            ("id", JSString id);
            ("correlationid", JSString correlationid);
            ("time", JSString time);
            ("source", JSString (q_source i));
            ("type", JSString (q_type i));
            ("data", q_data i);
            ("datacontenttype",
             JSString (option_or (q_datacontenttype i)
                         "application/json"))]
           ++ spread_if (of_optional (q_dataschema i))
                "dataschema" (of_optional (q_dataschema i)))%list))%js.

(** [CreateEventInput] *)
Record CreateEventInput : Type := {
  e_id : option string;
  e_correlationid : option string;
  e_time : option string;
  e_source : string;
  e_type : string;
  e_subject : string;
  e_data : JSValue;
  e_datacontenttype : option string;
  e_dataschema : option string
}.

Definition createEvent (i : CreateEventInput) : M W JSValue :=
  (id <- or_ulid (e_id i) ;;
   correlationid <- or_ulid (e_correlationid i) ;;
   time <- or_now (e_time i) ;;
   ret (JSObject
          ([("specversion", JSString "1.0");
            ("id", JSString id);
            ("correlationid", JSString correlationid);
            ("time", JSString time);
            ("source", JSString (e_source i));
            ("type", JSString (e_type i));
            ("subject", JSString (e_subject i));
            ("data", e_data i);
            ("datacontenttype",
             JSString (option_or (e_datacontenttype i)
                         "application/json"))]
           ++ spread_if (of_optional (e_dataschema i))
                "dataschema" (of_optional (e_dataschema i)))%list))%js.

(** What a factory leaves in the four defaulted fields and in
    [specversion] when it starts in state [st] and all four are left
    out of its input: the next two identifiers, the next reading of the
    clock, and the two literals. *)
Definition defaults_filled (st : State W) (result : Completion JSValue)
  : Prop :=
  exists m,
    result = Normal m
    /\ get m "specversion" = JSString "1.0"
    /\ get m "id" = JSString (ulid P (reads st))
    /\ get m "correlationid" = JSString (ulid P (S (reads st)))
    /\ get m "time" = JSString (Date_toISOString P (S (S (reads st))))
    /\ get m "datacontenttype" = JSString "application/json".

End Factories.

End Message.

(** ** A concrete platform, schemas, handlers and messages

    Instances of the parameters of the model, used to run the definitions
    on the inputs of the test suites of the sources. *)

Module Fixtures.

(** [s.repeat(n)] for a one-character string. *)
Fixpoint repeat_char (c : ascii) (n : nat) : string :=
  match n with
  | O => EmptyString
  | S n' => String c (repeat_char c n')
  end.

Definition backslash : ascii := ascii_of_nat 92.
Definition quote_mark : ascii := ascii_of_nat 34.

(** A JSON string literal: quotes and backslashes are escaped. *)
Fixpoint escape (s : string) : string :=
  match s with
  | EmptyString => EmptyString
  | String c rest =>
      if Ascii.eqb c quote_mark || Ascii.eqb c backslash
      then String backslash (String c (escape rest))
      else String c (escape rest)
  end.

Definition quoted (s : string) : string :=
  String quote_mark (escape s) +:+ String quote_mark EmptyString.

(** A serializer in the manner of [JSON.stringify]: members whose value is
    [undefined] are left out of objects, and [undefined] prints as [null]
    elsewhere. *)
Fixpoint stringify (v : JSValue) : string :=
  match v with
  | JSUndefined | JSNull => "null"
  | JSBoolean true => "true"
  | JSBoolean false => "false"
  | JSNumber n => NumberToString.Number_toString n
  | JSString s => quoted s
  | JSArray items => "[" +:+ join "," (List.map stringify items) +:+ "]"
  | JSObject props =>
      "{" +:+
      join ","
        ((fix members (ps : list (string * JSValue)) : list string :=
            match ps with
            | [] => []
            | (_, JSUndefined) :: rest => members rest
            | (k, x) :: rest =>
                (quoted k +:+ ":" +:+ stringify x) :: members rest
            end) props)
      +:+ "}"
  end.

(** [Math.random] of the concrete platform always answers one half. *)
Definition one_half_in_range :
  forall k : nat,
    (0 <= (fun _ : nat => 1 # 2) k /\ (fun _ : nat => 1 # 2) k < 1)%Q.
Proof. intros k. split; [discriminate | reflexivity]. Defined.

Definition platform : Platform :=
  {| Math_random := fun _ => (1 # 2)%Q;
     Math_random_range := one_half_in_range;
     ulid := fun k => "01JH0000000000000000000" +:+ pretty (Z.of_nat (100 + k));
     Date_toISOString := fun _ => "2025-01-01T00:00:00.000Z";
     captureStackTrace := fun msg => Some ("Error: " +:+ msg +:+ " at <anonymous>");
     JSON_stringify := stringify;
     unhandled_error_message :=
       fun v => "Unhandled error. (" +:+ stringify v +:+ ")" |}.

(** The initial state over a world of type [W]. *)
Definition initial {W : Type} (w : W) : State W :=
  {| world := w; effects := []; reads := O |}.

(** A handler that resolves to the message it was given. *)
Definition echo : Handler unit := fun message w => (Normal message, w).

(** A handler that counts its invocations in the world and always rejects
    with an [Error]. *)
Definition always_failing : Handler nat :=
  fun _ w =>
    (Abrupt (ThrownError
               {| class := NativeError; name := "Error";
                  message := JSString "Temporary failure";
                  details := JSUndefined; statusCode := None;
                  stack := JSString "Error: Temporary failure at handler" |}),
     S w).

(** A handler that counts its invocations in the world, rejects the
    first two and resolves from the third on. *)
Definition fails_twice : Handler nat :=
  fun _ w =>
    if (w <? 2)%nat then
      (Abrupt (ThrownError
                 {| class := NativeError; name := "Error";
                    message := JSString "Temporary failure";
                    details := JSUndefined; statusCode := None;
                    stack := JSString "Error: Temporary failure at handler" |}),
       S w)
    else (Normal JSUndefined, S w).

(** [z.object(shape)] as Zod parses it by default, the mode of
    [commandSchema], [querySchema] and [eventSchema]: every key of the
    shape must pass its check, and the parsed data keeps the keys of the
    shape only. *)
Definition z_object (shape : list (string * (JSValue -> bool))) : ZodSchema :=
  {| safeParse := fun input =>
       match input with
       | JSObject props =>
           if forallb (fun field => snd field (own_property props (fst field)))
                shape
           then
             ParseSuccess
               (JSObject
                  (List.map
                     (fun field => (fst field, own_property props (fst field)))
                     shape))
           else
             ParseFailure
               {| issues := [JSObject [("code", JSString "invalid_type")]];
                  zod_message := "Invalid input";
                  zod_stack := None |}
       | _ =>
           ParseFailure
             {| issues := [JSObject [("code", JSString "invalid_type")]];
                zod_message := "Invalid input";
                zod_stack := None |}
       end |}.

Definition is_string (v : JSValue) : bool :=
  match v with
  | JSString _ => true
  | _ => false
  end.

Definition is_number (v : JSValue) : bool :=
  match v with
  | JSNumber _ => true
  | _ => false
  end.

(** A schema asking for a string [type] and a numeric [aNumber]. *)
Definition test_schema : ZodSchema :=
  z_object [("type", is_string); ("aNumber", is_number)].

(** A schema that accepts every input and returns it unchanged. *)
Definition any_schema : ZodSchema := {| safeParse := ParseSuccess |}.

(** A message with a field the schema does not know. *)
Definition message_with_extra : JSValue :=
  JSObject [("type", JSString "test.command");
            ("aNumber", JSNumber 1);
            ("extra", JSString "kept?")].

Definition message_bad_number : JSValue :=
  JSObject [("type", JSString "test.command");
            ("aNumber", JSString "123")].

Definition message_empty_type : JSValue :=
  JSObject [("type", JSString EmptyString); ("aNumber", JSNumber 1)].

Definition message_without_type : JSValue :=
  JSObject [("specversion", JSString "1.0"); ("id", JSString "123")].

(** The input of the unknown-handler case of the router tests. *)
Definition unknown_event : JSValue :=
  JSObject [("specversion", JSString "1.0");
            ("id", JSString "123");
            ("source", JSString "https://nimbus.overlap.at/api/test");
            ("type", JSString "UNKNOWN_EVENT");
            ("data",
             JSObject
               [("payload",
                 JSObject [("testException", JSBoolean false);
                           ("aNumber", JSNumber 1)]);
                ("correlationId", JSString "123");
                ("authContext",
                 JSObject [("sub", JSString "admin@host.tld")])])].

(** The event of the size-limit case of the event bus tests, with
    [bigData] of [n] characters. *)
Definition sized_event (n : nat) : JSValue :=
  JSObject [("specversion", JSString "1.0");
            ("id", JSString "123");
            ("correlationid", JSString "456");
            ("time", JSString "2025-01-01T00:00:00Z");
            ("source", JSString "https://nimbus.overlap.at");
            ("type", JSString "at.overlap.nimbus.test-event");
            ("subject", JSString "/test");
            ("data",
             JSObject [("bigData", JSString (repeat_char "x"%char n))])].

Definition big_event : JSValue := sized_event (65 * 1024).

Definition message_empty_type_bad_number : JSValue :=
  JSObject [("type", JSString EmptyString); ("aNumber", JSString "123")].

(** A router as [new MessageRouter()] followed by one [register] call
    leaves it. *)
Definition router_with {W : Type} (messageType : string) (h : Handler W)
    (s : ZodSchema) : MessageRouting.MessageRouter :=
  {| MessageRouting._handlers :=
       <[messageType := {| MessageRouting.handler := h;
                           MessageRouting.schema := s |}]> ∅;
     MessageRouting._name := "default";
     MessageRouting._logInput := None;
     MessageRouting._logOutput := None |}.

(** Factory inputs that give the required fields only. *)
Definition command_input : Message.CreateCommandInput :=
  {| Message.c_id := None; Message.c_correlationid := None;
     Message.c_time := None;
     Message.c_source := "https://api.example.com";
     Message.c_type := "at.overlap.nimbus.create-order";
     Message.c_subject := None;
     Message.c_data := JSObject [("customerId", JSString "123")];
     Message.c_datacontenttype := None; Message.c_dataschema := None |}.

Definition query_input : Message.CreateQueryInput :=
  {| Message.q_id := None; Message.q_correlationid := None;
     Message.q_time := None;
     Message.q_source := "https://api.example.com";
     Message.q_type := "at.overlap.nimbus.get-order";
     Message.q_data := JSObject [("orderId", JSString "12345")];
     Message.q_datacontenttype := None; Message.q_dataschema := None |}.

Definition event_input : Message.CreateEventInput :=
  {| Message.e_id := None; Message.e_correlationid := None;
     Message.e_time := None;
     Message.e_source := "https://api.example.com";
     Message.e_type := "at.overlap.nimbus.order-created";
     Message.e_subject := "/orders/12345";
     Message.e_data := JSObject [("orderId", JSString "12345")];
     Message.e_datacontenttype := None; Message.e_dataschema := None |}.

(** An error callback that notes its call in the world, by adding one
    hundred to the count, and returns. *)
Definition noting : ErrorCallback nat :=
  fun _ _ w => (Normal tt, (w + 100)%nat).

(** A callback that throws whatever it is called with. *)
Definition failing_hook {W : Type} : Callback W :=
  fun _ w =>
    (Abrupt (ThrownError
               {| class := NativeError; name := "Error";
                  message := JSString "log sink unavailable";
                  details := JSUndefined; statusCode := None;
                  stack := JSString "Error: log sink unavailable at hook" |}),
     w).

(** The [logInput] of the class documentation of the message router,
    [(input) => console.log(input.type)]: reading [type] throws on
    [undefined] and [null]. *)
Definition type_logging_hook {W : Type} : Callback W :=
  fun input w =>
    if nullish input then
      (Abrupt (ThrownError
                 {| class := TypeError; name := "TypeError";
                    message :=
                      JSString
                        ("Cannot read properties of " +:+ ToString input
                         +:+ " (reading 'type')");
                    details := JSUndefined; statusCode := None;
                    stack := JSUndefined |}),
       w)
    else (Normal tt, w).

(** An error callback that throws. *)
Definition failing_onError : ErrorCallback nat :=
  fun _ _ w =>
    (Abrupt (ThrownError
               {| class := NativeError; name := "Error";
                  message := JSString "alerting failed";
                  details := JSUndefined; statusCode := None;
                  stack := JSUndefined |}),
     w).



(** A subscription whose handler always fails, with an [onError]
    callback, on a bus without jitter. *)
Definition failing_listener (maxRetries : Z) : EventBus.Listener :=
  {| EventBus.l_handler := always_failing;
     EventBus.l_onError := Some noting;
     EventBus.l_maxRetries := maxRetries;
     EventBus.l_baseDelay := 10;
     EventBus.l_maxDelay := 100;
     EventBus.l_useJitter := false |}.

(** The subscription of the retry-success case of the event bus tests. *)
Definition recovering_listener : EventBus.Listener :=
  {| EventBus.l_handler := fails_twice;
     EventBus.l_onError := Some noting;
     EventBus.l_maxRetries := 3;
     EventBus.l_baseDelay := 10;
     EventBus.l_maxDelay := 100;
     EventBus.l_useJitter := false |}.

Definition test_bus : EventBus.NimbusEventBus :=
  {| EventBus._eventEmitter :=
       [("at.overlap.nimbus.test-event", failing_listener 3)];
     EventBus._name := "size-test";
     EventBus._maxRetries := 3;
     EventBus._baseDelay := 1000;
     EventBus._maxDelay := 30000;
     EventBus._useJitter := true;
     EventBus._logPublish := None |}.

End Fixtures.

(** ** Named instances: the router and event bus registries

    [routerRegistry] and [eventBusRegistry] map a name to an object, and
    the object is changed in place by [register] and [subscribeEvent].
    Objects live in a store and are referred to by their address; a
    registry maps names to addresses. *)

Module Registries.

Section NamedInstances.

Variables Instance Options : Type.

(** [new C({ ...options, name })], and [new C({ name })] without
    options. *)
Variable construct : option Options -> string -> Instance.

Record Registry : Type := {
  objects : list Instance;
  by_name : gmap string nat
}.

Definition empty_registry : Registry := {| objects := []; by_name := ∅ |}.

(** Create an object and bind the name to it ([registry.set(name,
    instance)]); the address of the new object is returned. *)
Definition allocate (i : Instance) (name : string) (s : Registry)
  : nat * Registry :=
  (length (objects s),
   {| objects := (objects s ++ [i])%list;
      by_name := <[name := length (objects s)]> (by_name s) |}).

(** [setup(name, options)] *)
Definition setup (name : string) (options : option Options) (s : Registry)
  : Registry :=
  snd (allocate (construct options name) name s).

(** [get(name)]: the object bound to the name, created first when there
    is none. *)
Definition get_or_create (name : string) (s : Registry) : nat * Registry :=
  match by_name s !! name with
  | Some a => (a, s)
  | None => allocate (construct None name) name s
  end.

(** The object at an address. *)
Definition deref (s : Registry) (a : nat) : option Instance := objects s !! a.

(** The store after the object at an address was changed in place. *)
Definition assign (a : nat) (i : Instance) (s : Registry) : Registry :=
  {| objects := <[a := i]> (objects s); by_name := by_name s |}.

(** Every name is bound to the address of an object of the store, and no
    two names to the same object. *)
Definition well_formed (s : Registry) : Prop :=
  (forall (n : string) (a : nat),
     by_name s !! n = Some a -> (a < length (objects s))%nat)
  /\ (forall (n1 n2 : string) (a : nat),
        by_name s !! n1 = Some a -> by_name s !! n2 = Some a -> n1 = n2).

End NamedInstances.

Arguments objects {Instance} r.
Arguments by_name {Instance} r.
Arguments empty_registry {Instance}.
Arguments allocate {Instance} i name s.
Arguments setup {Instance Options} construct name options s.
Arguments get_or_create {Instance Options} construct name s.
Arguments deref {Instance} s a.
Arguments assign {Instance} a i s.
Arguments well_formed {Instance} s.

Section RouterRegistry.

Context {W : Type}.

(** [new MessageRouter({ ...options, name })] *)
Definition construct_router
    (options : option (MessageRouting.MessageRouterOptions (W := W)))
    (name : string) : MessageRouting.MessageRouter (W := W) :=
  MessageRouting.new_MessageRouter
    (Some {| MessageRouting.opt_name := Some name;
             MessageRouting.opt_logInput :=
               options ≫= MessageRouting.opt_logInput;
             MessageRouting.opt_logOutput :=
               options ≫= MessageRouting.opt_logOutput |}).

Definition RouterRegistry : Type :=
  Registry (MessageRouting.MessageRouter (W := W)).

(** [setupRouter(name, options)] *)
Definition setupRouter (name : string)
    (options : option MessageRouting.MessageRouterOptions)
    (s : RouterRegistry) : RouterRegistry :=
  setup construct_router name options s.

(** [getRouter(name)]; the name defaults to "default". *)
Definition getRouter (name : option string) (s : RouterRegistry)
  : nat * RouterRegistry :=
  get_or_create construct_router (option_or name "default") s.

(** [router.register(messageType, handler, schema)] on the router at
    address [a]. *)
Definition register_at (a : nat) (messageType : string) (h : Handler W)
    (sch : ZodSchema) (s : RouterRegistry) : M W RouterRegistry :=
  match deref s a with
  | Some r =>
      (r' <- MessageRouting.register r messageType h sch ;;
       ret (assign a r' s))%js
  | None => ret s
  end.

End RouterRegistry.

Section EventBusRegistry.

Context {W : Type}.

(** [new NimbusEventBus({ ...options, name })] *)
Definition construct_bus
    (options : option (EventBus.NimbusEventBusOptions (W := W)))
    (name : string) : EventBus.NimbusEventBus (W := W) :=
  EventBus.new_NimbusEventBus
    (Some {| EventBus.opt_name := Some name;
             EventBus.opt_maxRetries := options ≫= EventBus.opt_maxRetries;
             EventBus.opt_baseDelay := options ≫= EventBus.opt_baseDelay;
             EventBus.opt_maxDelay := options ≫= EventBus.opt_maxDelay;
             EventBus.opt_useJitter := options ≫= EventBus.opt_useJitter;
             EventBus.opt_logPublish := options ≫= EventBus.opt_logPublish |}).

Definition EventBusRegistry : Type :=
  Registry (EventBus.NimbusEventBus (W := W)).

(** [setupEventBus(name, options)] *)
Definition setupEventBus (name : string)
    (options : option EventBus.NimbusEventBusOptions)
    (s : EventBusRegistry) : EventBusRegistry :=
  setup construct_bus name options s.

(** [getEventBus(name)]; the name defaults to "default". *)
Definition getEventBus (name : option string) (s : EventBusRegistry)
  : nat * EventBusRegistry :=
  get_or_create construct_bus (option_or name "default") s.

(** [eventBus.subscribeEvent(input)] on the bus at address [a]. *)
Definition subscribe_at (a : nat) (input : EventBus.SubscribeEventInput)
    (s : EventBusRegistry) : M W EventBusRegistry :=
  match deref s a with
  | Some b =>
      (b' <- EventBus.subscribeEvent b input ;;
       ret (assign a b' s))%js
  | None => ret s
  end.

End EventBusRegistry.

End Registries.

(** ** Reading the recorded effects *)

Module Observed.

Definition count_if (p : Effect -> bool) (l : list Effect) : nat :=
  length (List.filter p l).

(** The delays of the timers started, in order. *)
Fixpoint timer_delays (l : list Effect) : list IEEE754.double :=
  match l with
  | [] => []
  | SetTimeout d :: rest => d :: timer_delays rest
  | _ :: rest => timer_delays rest
  end.

(** The invocations of handlers and the timers started, in order:
    [true] for an invocation, [false] for a timer. *)
Fixpoint attempts_and_timers (l : list Effect) : list bool :=
  match l with
  | [] => []
  | HandlerInvoked _ :: rest => true :: attempts_and_timers rest
  | SetTimeout _ :: rest => false :: attempts_and_timers rest
  | _ :: rest => attempts_and_timers rest
  end.

(** One invocation, and then [n] times a timer followed by an
    invocation. *)
Fixpoint alternating (n : nat) : list bool :=
  match n with
  | O => [true]
  | S n' => true :: false :: alternating n'
  end.

(** An increment of the counter [counter] labelled with [status]. *)
Definition is_counted (counter status : string) (e : Effect) : bool :=
  match e with
  | CounterAdd c _ labels =>
      String.eqb c counter
      && match own_property labels "status" with
         | JSString s => String.eqb s status
         | _ => false
         end
  | _ => false
  end.

(** An increment of the counter [counter], whatever its labels. *)
Definition is_counter (counter : string) (e : Effect) : bool :=
  match e with
  | CounterAdd c _ _ => String.eqb c counter
  | _ => false
  end.

Definition is_span_start (e : Effect) : bool :=
  match e with
  | StartActiveSpan _ _ _ => true
  | _ => false
  end.

Definition is_span_end (e : Effect) : bool :=
  match e with
  | SpanEnd => true
  | _ => false
  end.

(** The arguments [logInput] and [logOutput] were called with. *)
Fixpoint logInput_calls (l : list Effect) : list JSValue :=
  match l with
  | [] => []
  | LogInputInvoked v :: rest => v :: logInput_calls rest
  | _ :: rest => logInput_calls rest
  end.

Fixpoint logOutput_calls (l : list Effect) : list JSValue :=
  match l with
  | [] => []
  | LogOutputInvoked v :: rest => v :: logOutput_calls rest
  | _ :: rest => logOutput_calls rest
  end.

(** The messages the handlers were invoked with, in order. *)
Fixpoint handler_arguments (l : list Effect) : list JSValue :=
  match l with
  | [] => []
  | HandlerInvoked v :: rest => v :: handler_arguments rest
  | _ :: rest => handler_arguments rest
  end.

(** An increment of [eventbus_events_delivered_total] with [status]. *)
Definition is_delivered (status : string) : Effect -> bool :=
  is_counted "eventbus_events_delivered_total" status.

(** [min(baseDelay * 2^(attempt - 1), maxDelay)] as a real number, the
    delay before jitter. *)
Definition backoff (baseDelay maxDelay attempt : Z) : Q :=
  Qmin (inject_Z baseDelay * 2 ^ (attempt - 1))%Q (inject_Z maxDelay).

(** The settings for which the Number arithmetic of the delay before
    jitter is exact: the base delay and the cap are integers from 0 to
    [2^53], which Numbers hold exactly, and the product
    [baseDelay * 2^(attempt - 1)] is not [0 * Infinity], that is, the
    base delay is positive or the attempt is at most 1024. *)
Definition exact_policy (baseDelay maxDelay attempt : Z) : Prop :=
  1 <= attempt
  /\ 0 <= baseDelay <= 2 ^ 53
  /\ 0 <= maxDelay <= 2 ^ 53
  /\ (0 < baseDelay \/ attempt <= 1024).

(** The Number [a] is finite and its value is [q]. *)
Definition has_value (a : IEEE754.double) (q : Q) : Prop :=
  exists v, a = IEEE754.Finite v /\ (v == q)%Q.


(** The handler fails on its first [n] invocations on [message], starting
    in world [w], and resolves on the next one. *)
Definition fails_then_resolves {W : Type} (h : Handler W)
    (message : JSValue) (w : W) (n : nat) : Prop :=
  (forall i, (i < n)%nat ->
     exists error,
       fst (h message (world_after h message i w)) = Abrupt error)
  /\ exists v, fst (h message (world_after h message n w)) = Normal v.

(** What [if (inputLogFunc) { inputLogFunc(input) }] leaves in the
    trace. *)
Definition logged {W : Type} (inputLogFunc : option (Callback W))
    (x : JSValue) : list Effect :=
  match inputLogFunc with
  | Some _ => [LogInputInvoked x]
  | None => []
  end.

(** The number of platform reads an optional field costs a factory:
    one when the field is left out. *)
Definition omitted {A : Type} (o : option A) : nat :=
  match o with
  | Some _ => O
  | None => 1%nat
  end.

(** The outcome of a message factory started in state [st] on an input
    with the given fields: the message holds each given field, and for
    each of [id], [correlationid] and [time] that is left out the next
    reading of the platform, taken in this order; nothing else of the
    state changes. *)
Definition fields_filled {W : Type} (P : Platform) (st : State W)
    (id correlationid time : option string) (source type : string)
    (data : JSValue) (datacontenttype : option string)
    (outcome : Completion JSValue * State W) : Prop :=
  exists m,
    outcome
    = (Normal m,
       {| world := world st; effects := effects st;
          reads := (reads st + omitted id + omitted correlationid
                    + omitted time)%nat |})
    /\ get m "specversion" = JSString "1.0"
    /\ get m "id" = JSString (option_or id (ulid P (reads st)))
    /\ get m "correlationid"
       = JSString
           (option_or correlationid (ulid P (reads st + omitted id)%nat))
    /\ get m "time"
       = JSString
           (option_or time
              (Date_toISOString P
                 (reads st + omitted id + omitted correlationid)%nat))
    /\ get m "source" = JSString source
    /\ get m "type" = JSString type
    /\ get m "data" = data
    /\ get m "datacontenttype"
       = JSString (option_or datacontenttype "application/json").

(** [key in v] for an object literal [v]. *)
Definition has_own (v : JSValue) (key : string) : bool :=
  match v with
  | JSObject props => existsb (String.eqb key) (List.map fst props)
  | _ => false
  end.

End Observed.

(** ** Further instances: registries, handler maps and subscriptions *)

Module Examples.

Import Fixtures.

(** What [test_schema] makes of [message_with_extra]. *)
Definition parsed_command : JSValue :=
  JSObject [("type", JSString "test.command"); ("aNumber", JSNumber 1)].

Definition message_numeric_type : JSValue :=
  JSObject [("type", JSNumber 42); ("aNumber", JSNumber 1)].

Definition message_inherited_type : JSValue :=
  JSObject [("type", JSString "toString"); ("aNumber", JSNumber 1)].

Definition message_failing : JSValue :=
  JSObject [("type", JSString "test.failing"); ("aNumber", JSNumber 1)].


(** The router of the test command with the given hooks. *)
Definition router_with_hooks (logInput logOutput : option (Callback unit))
  : MessageRouting.MessageRouter :=
  {| MessageRouting._handlers :=
       <["test.command" := {| MessageRouting.handler := echo;
                              MessageRouting.schema := test_schema |}]> ∅;
     MessageRouting._name := "default";
     MessageRouting._logInput := logInput;
     MessageRouting._logOutput := logOutput |}.

(** The options of the class documentation: a [logInput] that prints
    the type of the input. *)
Definition logging_options : MessageRouting.MessageRouterOptions (W := unit) :=
  {| MessageRouting.opt_name := Some "api";
     MessageRouting.opt_logInput := Some type_logging_hook;
     MessageRouting.opt_logOutput := None |}.

(** Options whose [logInput] throws. *)
Definition failing_log_options
  : MessageRouting.MessageRouterOptions (W := unit) :=
  {| MessageRouting.opt_name := None;
     MessageRouting.opt_logInput := Some failing_hook;
     MessageRouting.opt_logOutput := None |}.

(** A subscription whose handler always fails and whose [onError]
    throws. *)
Definition unguarded_listener : EventBus.Listener :=
  {| EventBus.l_handler := always_failing;
     EventBus.l_onError := Some failing_onError;
     EventBus.l_maxRetries := 1;
     EventBus.l_baseDelay := 10;
     EventBus.l_maxDelay := 100;
     EventBus.l_useJitter := false |}.

(** The Zod error of the schemas of [z_object]. *)
Definition invalid_type_error : ZodError :=
  {| issues := [JSObject [("code", JSString "invalid_type")]];
     zod_message := "Invalid input";
     zod_stack := None |}.

(** The registries of a program that has set up nothing yet. *)
Definition no_routers : Registries.RouterRegistry (W := unit) :=
  Registries.empty_registry.

Definition no_buses : Registries.EventBusRegistry (W := nat) :=
  Registries.empty_registry.

(** A registry in which the router "default" has one handler. *)
Definition registry_with_router : Registries.RouterRegistry (W := unit) :=
  snd (Registries.allocate (router_with "test.command" echo test_schema)
         "default" Registries.empty_registry).

(** A registry in which the bus "size-test" has one subscription. *)
Definition registry_with_bus : Registries.EventBusRegistry (W := nat) :=
  snd (Registries.allocate test_bus "size-test" Registries.empty_registry).

Definition five_retries : EventBus.NimbusEventBusOptions (W := nat) :=
  {| EventBus.opt_name := None;
     EventBus.opt_maxRetries := Some 5;
     EventBus.opt_baseDelay := None;
     EventBus.opt_maxDelay := None;
     EventBus.opt_useJitter := None;
     EventBus.opt_logPublish := None |}.

(** A route whose handler returns a promise fulfilled with its input. *)
Definition resolving_route : HandlerMapRouter.Route (W := unit) :=
  {| HandlerMapRouter.handler := fun d w => (Normal (Normal d), w);
     HandlerMapRouter.inputType := test_schema |}.

Definition order_not_found : ErrorObject :=
  new_NotFoundException (captureStackTrace platform)
    (Some "Order not found") (JSObject [("orderId", JSString "12345")]).

(** A route whose handler throws a NotFound exception before it returns
    a promise. *)
Definition throwing_route : HandlerMapRouter.Route (W := unit) :=
  {| HandlerMapRouter.handler :=
       fun _ w => (Abrupt (ThrownError order_not_found), w);
     HandlerMapRouter.inputType := any_schema |}.

Definition handler_map : HandlerMapRouter.RouteHandlerMap (W := unit) :=
  [("test.command", resolving_route); ("test.failing", throwing_route)].

(** A handler that counts its invocations in the world and resolves. *)
Definition counting : Handler nat := fun _ w => (Normal JSUndefined, S w).



(** A subscription that overrides the retry limit of the bus. *)
Definition subscription : EventBus.SubscribeEventInput :=
  {| EventBus.type := "at.overlap.nimbus.test-event";
     EventBus.handler := counting;
     EventBus.onError := None;
     EventBus.options := Some five_retries |}.

End Examples.

(** * Properties *)

(** ** Rounding to Numbers *)

Section DoubleLemmas.

Import IEEE754.
Local Open Scope Q_scope.

Lemma pow2_pos (k : Z) : 0 < 2 ^ k.
Proof. apply Qpower_0_lt. reflexivity. Qed.

Lemma pow2_plus (a b : Z) : 2 ^ (a + b) == 2 ^ a * 2 ^ b.
Proof. apply Qpower_plus. discriminate. Qed.

Lemma pow2_minus (a b : Z) : 2 ^ (a - b) == 2 ^ a / 2 ^ b.
Proof. apply Qpower_minus. discriminate. Qed.

Lemma pow2_succ (a : Z) : 2 ^ (a + 1) == 2 * 2 ^ a.
Proof. rewrite pow2_plus. change (2 ^ 1) with 2. ring. Qed.

Lemma pow2_le (a b : Z) : (a <= b)%Z -> 2 ^ a <= 2 ^ b.
Proof. intros H. apply Qpower_le_compat_l; [exact H|discriminate]. Qed.

Lemma pow2_lt (a b : Z) : (a < b)%Z -> 2 ^ a < 2 ^ b.
Proof. intros H. apply Qpower_lt_compat_l; [exact H|reflexivity]. Qed.

Lemma pow2_lt_inv (a b : Z) : 2 ^ a < 2 ^ b -> (a < b)%Z.
Proof. intros H. apply (Qpower_lt_compat_l_inv 2); [exact H|reflexivity]. Qed.

Lemma pow2_inject (k : Z) : (0 <= k)%Z -> 2 ^ k == inject_Z (2 ^ k).
Proof. intros H. rewrite Zpower_Qpower by exact H. reflexivity. Qed.

(** [ilog2] is the binary exponent. *)
Lemma ilog2_spec (x : Q) :
  0 < x -> 2 ^ ilog2 x <= x /\ x < 2 ^ (ilog2 x + 1).
Proof.
  intros Hx. unfold ilog2.
  destruct x as [p q]. simpl Qnum. simpl Qden.
  assert (Hp : (0 < p)%Z).
  { unfold Qlt in Hx. simpl in Hx. lia. }
  set (a := Z.log2 p). set (b := Z.log2 (Z.pos q)).
  destruct (Z.log2_spec p Hp) as [Ha1 Ha2]. fold a in Ha1, Ha2.
  destruct (Z.log2_spec (Z.pos q) eq_refl) as [Hb1 Hb2]. fold b in Hb1, Hb2.
  assert (Ha0 : (0 <= a)%Z) by apply Z.log2_nonneg.
  assert (Hb0 : (0 <= b)%Z) by apply Z.log2_nonneg.
  assert (HA1 : 2 ^ a <= inject_Z p).
  { rewrite pow2_inject by exact Ha0. rewrite <- Zle_Qle. exact Ha1. }
  assert (HA2 : inject_Z p < 2 * 2 ^ a).
  { rewrite <- pow2_succ. rewrite pow2_inject by lia.
    rewrite <- Zlt_Qlt. replace (a + 1)%Z with (Z.succ a) by lia. exact Ha2. }
  assert (HB1 : 2 ^ b <= inject_Z (Z.pos q)).
  { rewrite pow2_inject by exact Hb0. rewrite <- Zle_Qle. exact Hb1. }
  assert (HB2 : inject_Z (Z.pos q) < 2 * 2 ^ b).
  { rewrite <- pow2_succ. rewrite pow2_inject by lia.
    rewrite <- Zlt_Qlt. replace (b + 1)%Z with (Z.succ b) by lia. exact Hb2. }
  pose proof (pow2_pos a) as HAp. pose proof (pow2_pos b) as HBp.
  assert (Hx' : p # q == inject_Z p / inject_Z (Z.pos q)) by apply Qmake_Qdiv.
  assert (HD : 0 < inject_Z (Z.pos q)) by reflexivity.
  assert (He : 2 ^ (a - b) == 2 ^ a / 2 ^ b) by apply pow2_minus.
  set (P := inject_Z p) in *. set (D := inject_Z (Z.pos q)) in *.
  set (A := 2 ^ a) in *. set (B := 2 ^ b) in *.
  assert (HE : 2 ^ (a - b) * B == A).
  { rewrite He. field. intros HB0. rewrite HB0 in HBp. discriminate HBp. }
  assert (HX : (p # q) * D == P).
  { rewrite Hx'. field. intros HD0. rewrite HD0 in HD. discriminate HD. }
  pose proof (pow2_pos (a - b)) as HEp.
  set (E := 2 ^ (a - b)) in *. set (x := p # q) in *.
  assert (Hup : x < 2 * E) by nra.
  assert (Hlow : E < 2 * x) by nra.
  destruct (Qle_bool E x) eqn:Hcmp.
  - apply Qle_bool_iff in Hcmp. split; [exact Hcmp|].
    rewrite pow2_succ. fold E. exact Hup.
  - assert (Hlt : x < E).
    { apply Qnot_le_lt. intros Hle. apply Qle_bool_iff in Hle. congruence. }
    assert (Hhalf : 2 * 2 ^ (a - b - 1) == E).
    { rewrite <- pow2_succ. replace (a - b - 1 + 1)%Z with (a - b)%Z by lia.
      reflexivity. }
    split.
    + set (F := 2 ^ (a - b - 1)) in *. nra.
    + replace (a - b - 1 + 1)%Z with (a - b)%Z by lia. exact Hlt.
Qed.

Lemma ilog2_unique (x : Q) (e : Z) :
  2 ^ e <= x -> x < 2 ^ (e + 1) -> ilog2 x = e.
Proof.
  intros H1 H2.
  assert (Hx : 0 < x) by (pose proof (pow2_pos e); lra).
  destruct (ilog2_spec x Hx) as [H3 H4].
  assert (Ha : (e < ilog2 x + 1)%Z).
  { apply pow2_lt_inv. lra. }
  assert (Hb : (ilog2 x < e + 1)%Z).
  { apply pow2_lt_inv. lra. }
  lia.
Qed.

Lemma ilog2_mono (x y : Q) : 0 < x -> x <= y -> (ilog2 x <= ilog2 y)%Z.
Proof.
  intros Hx Hxy.
  destruct (ilog2_spec x Hx) as [H1 _].
  destruct (ilog2_spec y) as [_ H2]; [lra|].
  assert (H : (ilog2 x < ilog2 y + 1)%Z) by (apply pow2_lt_inv; lra).
  lia.
Qed.

Ltac compare_facts :=
  repeat match goal with
         | H : (_ ?= _) = Eq |- _ => apply Qeq_alt in H
         | H : (_ ?= _) = Lt |- _ => apply Qlt_alt in H
         | H : (_ ?= _) = Gt |- _ => apply Qgt_alt in H
         end.

(** Rounding to the nearest integer. *)
Lemma round_half_even_bounds (x : Q) :
  (Qfloor x <= round_half_even x <= Qfloor x + 1)%Z.
Proof.
  unfold round_half_even.
  destruct (x - inject_Z (Qfloor x) ?= (1 # 2)); try lia.
  destruct (Z.even (Qfloor x)); lia.
Qed.

Lemma round_half_even_error (x : Q) :
  x - (1 # 2) <= inject_Z (round_half_even x)
  /\ inject_Z (round_half_even x) <= x + (1 # 2).
Proof.
  pose proof (Qfloor_le x) as Hf. pose proof (Qlt_floor x) as Hc.
  rewrite inject_Z_plus in Hc. change (inject_Z 1) with 1 in Hc.
  unfold round_half_even.
  destruct (x - inject_Z (Qfloor x) ?= (1 # 2)) eqn:Hcmp.
  - apply Qeq_alt in Hcmp.
    destruct (Z.even (Qfloor x)).
    + lra.
    + rewrite inject_Z_plus. change (inject_Z 1) with 1. lra.
  - apply Qlt_alt in Hcmp. lra.
  - apply Qgt_alt in Hcmp. rewrite inject_Z_plus.
    change (inject_Z 1) with 1. lra.
Qed.

Lemma round_half_even_integer (n : Z) : round_half_even (inject_Z n) = n.
Proof.
  unfold round_half_even. rewrite Qfloor_Z.
  assert (H : (inject_Z n - inject_Z n ?= (1 # 2)) = Lt).
  { apply Qlt_alt. unfold Qminus. rewrite Qplus_opp_r. reflexivity. }
  rewrite H. reflexivity.
Qed.

Lemma round_half_even_proper (x y : Q) :
  x == y -> round_half_even x = round_half_even y.
Proof.
  intros H. unfold round_half_even.
  rewrite (Qfloor_comp x y H).
  assert (Hc : (x - inject_Z (Qfloor y) ?= (1 # 2))
               = (y - inject_Z (Qfloor y) ?= (1 # 2))).
  { apply Qcompare_comp; [rewrite H; reflexivity | reflexivity]. }
  rewrite Hc. reflexivity.
Qed.

Lemma round_half_even_mono (x y : Q) :
  x <= y -> (round_half_even x <= round_half_even y)%Z.
Proof.
  intros Hxy.
  pose proof (Qfloor_resp_le x y Hxy) as Hfl.
  destruct (Z.eq_dec (Qfloor x) (Qfloor y)) as [Heq|Hne].
  - unfold round_half_even. rewrite Heq.
    destruct (x - inject_Z (Qfloor y) ?= (1 # 2)) eqn:Hcx;
      destruct (y - inject_Z (Qfloor y) ?= (1 # 2)) eqn:Hcy;
      try (destruct (Z.even (Qfloor y))); try lia;
      compare_facts; exfalso; lra.
  - pose proof (round_half_even_bounds x). pose proof (round_half_even_bounds y).
    lia.
Qed.

Lemma round_half_even_le_integer (x : Q) (n : Z) :
  x <= inject_Z n -> (round_half_even x <= n)%Z.
Proof.
  intros H. rewrite <- (round_half_even_integer n).
  apply round_half_even_mono. exact H.
Qed.

Lemma round_half_even_ge_integer (x : Q) (n : Z) :
  inject_Z n <= x -> (n <= round_half_even x)%Z.
Proof.
  intros H. rewrite <- (round_half_even_integer n) at 1.
  apply round_half_even_mono. exact H.
Qed.

(** Rounding a positive rational. *)
Lemma ulp_pos (x : Q) : 0 < ulp x.
Proof. apply pow2_pos. Qed.

Lemma ilog2_proper (x y : Q) : 0 < x -> x == y -> ilog2 x = ilog2 y.
Proof.
  intros Hx Hxy. symmetry.
  destruct (ilog2_spec x Hx) as [H1 H2].
  apply ilog2_unique; rewrite <- Hxy; assumption.
Qed.

Lemma ulp_proper (x y : Q) : 0 < x -> x == y -> ulp x = ulp y.
Proof.
  intros Hx Hxy. unfold ulp. rewrite (ilog2_proper x y Hx Hxy). reflexivity.
Qed.

Lemma round_positive_proper (x y : Q) :
  0 < x -> x == y -> round_positive x == round_positive y.
Proof.
  intros Hx Hxy. unfold round_positive.
  rewrite (ulp_proper x y Hx Hxy).
  rewrite (round_half_even_proper (x / ulp y) (y / ulp y)).
  - reflexivity.
  - rewrite Hxy. reflexivity.
Qed.

Lemma ulp_times (x : Q) :
  ulp x * 2 ^ 52 == 2 ^ Z.max (ilog2 x) (-1022).
Proof.
  unfold ulp. rewrite <- pow2_plus.
  replace (Z.max (ilog2 x) (-1022) - 52 + 52)%Z
    with (Z.max (ilog2 x) (-1022)) by lia.
  reflexivity.
Qed.

Lemma scaled_value (x : Q) : x / ulp x * ulp x == x.
Proof.
  field. intros H. pose proof (ulp_pos x) as Hp. rewrite H in Hp.
  discriminate Hp.
Qed.

(** The scaled value lies below [2^53], and from [2^52] on for a
    normal [x]. *)
Lemma scaled_upper (x : Q) : 0 < x -> x / ulp x < inject_Z (2 ^ 53).
Proof.
  intros Hx. destruct (ilog2_spec x Hx) as [_ H2].
  pose proof (ulp_pos x) as Hu. pose proof (ulp_times x) as Ht.
  pose proof (scaled_value x) as Hs.
  assert (Hle : 2 ^ (ilog2 x + 1) <= 2 ^ (Z.max (ilog2 x) (-1022) + 1))
    by (apply pow2_le; lia).
  rewrite pow2_succ in Hle. rewrite (pow2_succ (Z.max _ _)) in Hle.
  rewrite pow2_succ in H2.
  change (inject_Z (2 ^ 53)) with (2 * 2 ^ 52).
  set (s := x / ulp x) in *. set (u := ulp x) in *.
  set (A := 2 ^ Z.max (ilog2 x) (-1022)) in *.
  set (B := 2 ^ ilog2 x) in *.
  change (2 ^ 52) with 4503599627370496 in *.
  nra.
Qed.

Lemma scaled_lower (x : Q) :
  0 < x -> (-1022 <= ilog2 x)%Z -> inject_Z (2 ^ 52) <= x / ulp x.
Proof.
  intros Hx Hn. destruct (ilog2_spec x Hx) as [H1 _].
  pose proof (ulp_pos x) as Hu. pose proof (ulp_times x) as Ht.
  pose proof (scaled_value x) as Hs.
  replace (Z.max (ilog2 x) (-1022)) with (ilog2 x) in Ht by lia.
  change (inject_Z (2 ^ 52)) with (2 ^ 52).
  set (s := x / ulp x) in *. set (u := ulp x) in *.
  set (B := 2 ^ ilog2 x) in *.
  change (2 ^ 52) with 4503599627370496 in *.
  nra.
Qed.

Lemma round_positive_nonneg (x : Q) : 0 < x -> 0 <= round_positive x.
Proof.
  intros Hx. unfold round_positive.
  pose proof (ulp_pos x) as Hu.
  assert (H : (0 <= round_half_even (x / ulp x))%Z).
  { apply round_half_even_ge_integer. change (inject_Z 0) with 0.
    apply Qle_shift_div_l; [exact Hu|]. lra. }
  apply Qmult_le_0_compat; [|lra].
  change 0 with (inject_Z 0). rewrite <- Zle_Qle. exact H.
Qed.

Lemma round_positive_upper (x : Q) :
  0 < x -> round_positive x <= 2 ^ (Z.max (ilog2 x) (-1022) + 1).
Proof.
  intros Hx. unfold round_positive.
  pose proof (ulp_pos x) as Hu. pose proof (ulp_times x) as Ht.
  assert (H : (round_half_even (x / ulp x) <= 2 ^ 53)%Z).
  { apply round_half_even_le_integer. apply Qlt_le_weak.
    apply scaled_upper. exact Hx. }
  rewrite Zle_Qle in H. rewrite pow2_succ.
  change (inject_Z (2 ^ 53)) with (2 * 2 ^ 52) in H.
  set (m := inject_Z (round_half_even (x / ulp x))) in *.
  set (u := ulp x) in *.
  set (A := 2 ^ Z.max (ilog2 x) (-1022)) in *.
  change (2 ^ 52) with 4503599627370496 in *.
  nra.
Qed.

Lemma round_positive_lower (x : Q) :
  0 < x -> (-1022 <= ilog2 x)%Z -> 2 ^ ilog2 x <= round_positive x.
Proof.
  intros Hx Hn. unfold round_positive.
  pose proof (ulp_pos x) as Hu. pose proof (ulp_times x) as Ht.
  replace (Z.max (ilog2 x) (-1022)) with (ilog2 x) in Ht by lia.
  assert (H : (2 ^ 52 <= round_half_even (x / ulp x))%Z).
  { apply round_half_even_ge_integer. apply scaled_lower; assumption. }
  rewrite Zle_Qle in H.
  change (inject_Z (2 ^ 52)) with (2 ^ 52) in H.
  set (m := inject_Z (round_half_even (x / ulp x))) in *.
  set (u := ulp x) in *.
  set (B := 2 ^ ilog2 x) in *.
  change (2 ^ 52) with 4503599627370496 in *.
  nra.
Qed.

(** Rounding keeps the order. *)
Lemma round_positive_mono (x y : Q) :
  0 < x -> x <= y -> round_positive x <= round_positive y.
Proof.
  intros Hx Hxy.
  assert (Hy : 0 < y) by lra.
  pose proof (ilog2_mono x y Hx Hxy) as Hlog.
  destruct (Z.eq_dec (Z.max (ilog2 x) (-1022)) (Z.max (ilog2 y) (-1022)))
    as [Heq|Hne].
  - assert (Hu : ulp x = ulp y) by (unfold ulp; rewrite Heq; reflexivity).
    unfold round_positive. rewrite Hu.
    pose proof (ulp_pos y) as Hp.
    assert (Hm : (round_half_even (x / ulp y)
                  <= round_half_even (y / ulp y))%Z).
    { apply round_half_even_mono.
      apply Qmult_le_compat_r; [exact Hxy|].
      apply Qlt_le_weak. apply Qinv_lt_0_compat. exact Hp. }
    rewrite Zle_Qle in Hm.
    apply Qmult_le_compat_r; [exact Hm|]. lra.
  - apply Qle_trans with (2 ^ (Z.max (ilog2 x) (-1022) + 1)).
    + apply round_positive_upper. exact Hx.
    + apply Qle_trans with (2 ^ ilog2 y).
      * apply pow2_le. lia.
      * apply round_positive_lower; [exact Hy|lia].
Qed.

(** The rounding error is at most half the spacing. *)
Lemma round_positive_error (x : Q) :
  x - ulp x * (1 # 2) <= round_positive x
  /\ round_positive x <= x + ulp x * (1 # 2).
Proof.
  unfold round_positive.
  pose proof (ulp_pos x) as Hu. pose proof (scaled_value x) as Hs.
  destruct (round_half_even_error (x / ulp x)) as [H1 H2].
  set (m := inject_Z (round_half_even (x / ulp x))) in *.
  set (s := x / ulp x) in *. set (u := ulp x) in *.
  split; nra.
Qed.

(** An integer of at most 53 bits times a power of two is a multiple of
    the spacing around it: rounding leaves it as it is. *)
Lemma round_positive_exact (m j : Z) :
  (0 < m <= 2 ^ 53)%Z -> (0 <= j)%Z ->
  round_positive (inject_Z m * 2 ^ j) == inject_Z m * 2 ^ j.
Proof.
  intros Hm Hj.
  set (x := inject_Z m * 2 ^ j).
  set (a := Z.log2 m).
  destruct (Z.log2_spec m) as [Ha1 Ha2]; [lia|]. fold a in Ha1, Ha2.
  assert (Ha0 : (0 <= a)%Z) by apply Z.log2_nonneg.
  assert (Ha53 : (a <= 53)%Z).
  { destruct (Z_le_gt_dec a 53) as [Hle|Hgt]; [exact Hle|].
    assert (H54 : (2 ^ 54 <= 2 ^ a)%Z) by (apply Z.pow_le_mono_r; lia).
    lia. }
  assert (Hlog : ilog2 x = (a + j)%Z).
  { apply ilog2_unique; unfold x.
    - rewrite pow2_plus. apply Qmult_le_compat_r.
      + rewrite pow2_inject by exact Ha0. rewrite <- Zle_Qle. exact Ha1.
      + apply Qlt_le_weak. apply pow2_pos.
    - replace (a + j + 1)%Z with (a + 1 + j)%Z by lia.
      rewrite pow2_plus. apply Qmult_lt_compat_r.
      + apply pow2_pos.
      + rewrite pow2_inject by lia. rewrite <- Zlt_Qlt.
        replace (a + 1)%Z with (Z.succ a) by lia. exact Ha2. }
  assert (Hulp : ulp x = 2 ^ (a + j - 52)).
  { unfold ulp. rewrite Hlog. f_equal. lia. }
  assert (Hint : exists k : Z, x / ulp x == inject_Z k).
  { rewrite Hulp. unfold x.
    destruct (Z.eq_dec a 53%Z) as [H53|Hlt].
    - assert (Hm53 : m = (2 ^ 53)%Z).
      { rewrite H53 in Ha1. lia. }
      exists (2 ^ 52)%Z. rewrite Hm53, H53.
      replace (53 + j - 52)%Z with (j + 1)%Z by lia.
      rewrite pow2_succ.
      change (inject_Z (2 ^ 53)) with (2 * inject_Z (2 ^ 52)).
      field. apply Qpower_not_0. discriminate.
    - exists (m * 2 ^ (52 - a))%Z.
      rewrite inject_Z_mult. rewrite <- pow2_inject by lia.
      replace (a + j - 52)%Z with (j - (52 - a))%Z by lia.
      rewrite pow2_minus. field.
      repeat split; apply Qpower_not_0; discriminate. }
  destruct Hint as [k Hk].
  unfold round_positive.
  rewrite (round_half_even_proper _ _ Hk), round_half_even_integer.
  rewrite <- Hk. apply scaled_value.
Qed.

(** Rounding to a Number. *)
Lemma RN_positive (x : Q) :
  0 < x ->
  RN x = if Qle_bool (2 ^ 1024) (round_positive x) then Infinity false
         else Finite (Qred (round_positive x)).
Proof.
  intros Hx. unfold RN.
  assert (H : (x ?= 0) = Gt) by (apply Qgt_alt; exact Hx).
  rewrite H. reflexivity.
Qed.

Lemma RN_zero (x : Q) : x == 0 -> RN x = Finite 0.
Proof.
  intros Hx. unfold RN.
  assert (H : (x ?= 0) = Eq) by (apply Qeq_alt; exact Hx).
  rewrite H. reflexivity.
Qed.

Lemma RN_nonneg_proper (x y : Q) : 0 <= x -> x == y -> RN x = RN y.
Proof.
  intros Hx Hxy.
  destruct (Qlt_le_dec 0 x) as [Hpos|Hle].
  - rewrite (RN_positive x Hpos), (RN_positive y) by lra.
    pose proof (round_positive_proper x y Hpos Hxy) as Hr.
    assert (Hb : Qle_bool (2 ^ 1024) (round_positive x)
                 = Qle_bool (2 ^ 1024) (round_positive y)).
    { destruct (Qle_bool (2 ^ 1024) (round_positive x)) eqn:H1;
        destruct (Qle_bool (2 ^ 1024) (round_positive y)) eqn:H2;
        try reflexivity.
      - apply Qle_bool_iff in H1. rewrite Hr in H1.
        apply Qle_bool_iff in H1. congruence.
      - apply Qle_bool_iff in H2. rewrite <- Hr in H2.
        apply Qle_bool_iff in H2. congruence. }
    rewrite Hb. destruct (Qle_bool (2 ^ 1024) (round_positive y));
      [reflexivity|].
    f_equal. apply Qred_complete. exact Hr.
  - rewrite (RN_zero x), (RN_zero y) by lra. reflexivity.
Qed.

(** A non-negative rational rounds to a non-negative Number or to
    infinity. *)
Lemma RN_nonneg (x : Q) :
  0 <= x ->
  RN x = Infinity false \/ exists q, RN x = Finite q /\ 0 <= q.
Proof.
  intros Hx. destruct (Qlt_le_dec 0 x) as [Hpos|Hle].
  - rewrite (RN_positive x Hpos).
    destruct (Qle_bool (2 ^ 1024) (round_positive x)); [left; reflexivity|].
    right. eexists. split; [reflexivity|].
    rewrite Qred_correct. apply round_positive_nonneg. exact Hpos.
  - right. exists 0. split; [apply RN_zero; lra|lra].
Qed.

(** Rounding keeps the order: below a finite result the result is
    finite and not above it. *)
Lemma RN_mono (x y qy : Q) :
  0 <= x -> x <= y -> RN y = Finite qy ->
  exists qx, RN x = Finite qx /\ 0 <= qx /\ qx <= qy.
Proof.
  intros Hx Hxy Hy.
  destruct (Qlt_le_dec 0 x) as [Hpos|Hle].
  - assert (Hypos : 0 < y) by lra.
    rewrite (RN_positive y Hypos) in Hy.
    destruct (Qle_bool (2 ^ 1024) (round_positive y)) eqn:Hby;
      [discriminate Hy|].
    injection Hy as Hqy.
    pose proof (round_positive_mono x y Hpos Hxy) as Hm.
    rewrite (RN_positive x Hpos).
    destruct (Qle_bool (2 ^ 1024) (round_positive x)) eqn:Hbx.
    + apply Qle_bool_iff in Hbx.
      assert (Hc : Qle_bool (2 ^ 1024) (round_positive y) = true).
      { apply Qle_bool_iff. lra. }
      congruence.
    + eexists. split; [reflexivity|]. rewrite Qred_correct. split.
      * apply round_positive_nonneg. exact Hpos.
      * rewrite <- Hqy, Qred_correct. exact Hm.
  - exists 0. split; [apply RN_zero; lra|]. split; [lra|].
    destruct (RN_nonneg y) as [Hinf|(q & Hq & Hq0)]; [lra| |].
    + congruence.
    + rewrite Hy in Hq. injection Hq as ->. exact Hq0.
Qed.

Lemma RN_lower (x y qx : Q) :
  0 <= x -> x <= y -> RN x = Finite qx ->
  RN y = Infinity false \/ exists qy, RN y = Finite qy /\ qx <= qy.
Proof.
  intros Hx Hxy Hqx.
  destruct (RN_nonneg y) as [Hinf|(qy & Hqy & _)]; [lra|left; exact Hinf|].
  right. exists qy. split; [exact Hqy|].
  destruct (RN_mono x y qy Hx Hxy Hqy) as (q & Hq & _ & Hle).
  rewrite Hqx in Hq. injection Hq as ->. exact Hle.
Qed.

(** Integers of at most 53 bits times a power of two are Numbers, up to
    [2^1024]. *)
Lemma RN_exact (m j : Z) :
  (0 <= m <= 2 ^ 53)%Z -> (0 <= j)%Z ->
  inject_Z m * 2 ^ j < 2 ^ 1024 ->
  exists q, RN (inject_Z m * 2 ^ j) = Finite q /\ q == inject_Z m * 2 ^ j.
Proof.
  intros Hm Hj Hsmall.
  destruct (Z.eq_dec m 0%Z) as [->|Hne].
  - exists 0. split; [apply RN_zero|]; change (inject_Z 0) with 0; ring.
  - assert (Hx : 0 < inject_Z m * 2 ^ j).
    { apply Qmult_lt_0_compat; [|apply pow2_pos].
      change 0 with (inject_Z 0). rewrite <- Zlt_Qlt. lia. }
    rewrite (RN_positive _ Hx).
    pose proof (round_positive_exact m j) as He.
    assert (Hb : Qle_bool (2 ^ 1024) (round_positive (inject_Z m * 2 ^ j))
                 = false).
    { destruct (Qle_bool _ _) eqn:Hb; [|reflexivity].
      apply Qle_bool_iff in Hb. rewrite He in Hb by lia. lra. }
    rewrite Hb. eexists. split; [reflexivity|].
    rewrite Qred_correct. apply He; lia.
Qed.

Lemma RN_overflow (x : Q) : 2 ^ 1024 <= x -> RN x = Infinity false.
Proof.
  intros Hx.
  assert (Hpos : 0 < x) by (pose proof (pow2_pos 1024); lra).
  rewrite (RN_positive x Hpos).
  assert (Hlog : (1024 <= ilog2 x)%Z).
  { destruct (ilog2_spec x Hpos) as [_ H2].
    assert (H : (1024 < ilog2 x + 1)%Z) by (apply pow2_lt_inv; lra).
    lia. }
  assert (Hb : Qle_bool (2 ^ 1024) (round_positive x) = true).
  { apply Qle_bool_iff.
    apply Qle_trans with (2 ^ ilog2 x); [apply pow2_le; exact Hlog|].
    apply round_positive_lower; [exact Hpos|lia]. }
  rewrite Hb. reflexivity.
Qed.

Lemma of_Z_exact (z : Z) :
  (0 <= z <= 2 ^ 53)%Z -> exists q, of_Z z = Finite q /\ q == inject_Z z.
Proof.
  intros Hz. unfold of_Z.
  destruct (RN_exact z 0 Hz) as (q & Hq & Hv); [lia| |].
  - change (2 ^ 0) with 1. rewrite Qmult_1_r.
    apply Qle_lt_trans with (inject_Z (2 ^ 53)).
    + rewrite <- Zle_Qle. lia.
    + reflexivity.
  - exists q. split.
    + rewrite <- Hq. apply RN_nonneg_proper.
      * change 0 with (inject_Z 0). rewrite <- Zle_Qle. lia.
      * change (2 ^ 0) with 1. ring.
    + rewrite Hv. change (2 ^ 0) with 1. ring.
Qed.

(** In the normal range the relative error of rounding is at most
    [2^-53]. *)
Lemma RN_relative_error (x q : Q) :
  2 ^ (-1022) <= x -> RN x = Finite q ->
  x * (1 - 2 ^ (-53)) <= q /\ q <= x * (1 + 2 ^ (-53)).
Proof.
  intros Hx Hq.
  assert (Hpos : 0 < x) by (pose proof (pow2_pos (-1022)); lra).
  rewrite (RN_positive x Hpos) in Hq.
  destruct (Qle_bool (2 ^ 1024) (round_positive x)); [discriminate Hq|].
  injection Hq as <-. rewrite Qred_correct.
  destruct (round_positive_error x) as [H1 H2].
  destruct (ilog2_spec x Hpos) as [H3 H4].
  assert (Hlog : (-1022 <= ilog2 x)%Z).
  { assert (H : (-1022 < ilog2 x + 1)%Z) by (apply pow2_lt_inv; lra). lia. }
  assert (Hu : ulp x * (1 # 2) <= x * 2 ^ (-53)).
  { unfold ulp. replace (Z.max (ilog2 x) (-1022)) with (ilog2 x) by lia.
    replace (ilog2 x - 52)%Z with (ilog2 x + -53 + 1)%Z by lia.
    rewrite pow2_succ, pow2_plus.
    pose proof (pow2_pos (-53)) as Hp.
    set (A := 2 ^ ilog2 x) in *. set (e := 2 ^ (-53)) in *. nra. }
  split; lra.
Qed.

End DoubleLemmas.

(** ** Effects bookkeeping *)

Section EffectLemmas.

Lemma handler_invocations_app (l1 l2 : list Effect) :
  handler_invocations (l1 ++ l2)
  = (handler_invocations l1 + handler_invocations l2)%nat.
Proof.
  induction l1 as [|e l1 IH]; [reflexivity|].
  destruct e; simpl; rewrite IH; reflexivity.
Qed.

Lemma onError_calls_app (l1 l2 : list Effect) :
  onError_calls (l1 ++ l2) = (onError_calls l1 ++ onError_calls l2)%list.
Proof.
  induction l1 as [|e l1 IH]; [reflexivity|].
  destruct e; simpl; rewrite IH; reflexivity.
Qed.

Lemma get_string_opt_get (x : JSValue) (key s : string) :
  get x key = JSString s -> opt_get x key = JSString s.
Proof. destruct x; simpl; intros H; try discriminate H; exact H. Qed.

Lemma truthy_nonempty (s : string) :
  s <> EmptyString -> truthy (JSString s) = true.
Proof. destruct s; [congruence | reflexivity]. Qed.

End EffectLemmas.

(** ** Reading effects off concatenated lists *)

Section ObservedLemmas.

Import Observed.

Lemma count_if_app (p : Effect -> bool) (l1 l2 : list Effect) :
  count_if p (l1 ++ l2) = (count_if p l1 + count_if p l2)%nat.
Proof. unfold count_if. rewrite List.filter_app, length_app. reflexivity. Qed.

Lemma count_if_cons (p : Effect -> bool) (e : Effect) (l : list Effect) :
  count_if p (e :: l) = ((if p e then 1 else 0) + count_if p l)%nat.
Proof. unfold count_if. simpl. destruct (p e); reflexivity. Qed.

Lemma count_if_nil (p : Effect -> bool) : count_if p [] = 0%nat.
Proof. reflexivity. Qed.

Lemma timer_delays_app (l1 l2 : list Effect) :
  timer_delays (l1 ++ l2) = (timer_delays l1 ++ timer_delays l2)%list.
Proof.
  induction l1 as [|e l1 IH]; [reflexivity|].
  destruct e; simpl; rewrite IH; reflexivity.
Qed.

Lemma logInput_calls_app (l1 l2 : list Effect) :
  logInput_calls (l1 ++ l2) = (logInput_calls l1 ++ logInput_calls l2)%list.
Proof.
  induction l1 as [|e l1 IH]; [reflexivity|].
  destruct e; simpl; rewrite IH; reflexivity.
Qed.

Lemma logOutput_calls_app (l1 l2 : list Effect) :
  logOutput_calls (l1 ++ l2)
  = (logOutput_calls l1 ++ logOutput_calls l2)%list.
Proof.
  induction l1 as [|e l1 IH]; [reflexivity|].
  destruct e; simpl; rewrite IH; reflexivity.
Qed.

Lemma handler_arguments_app (l1 l2 : list Effect) :
  handler_arguments (l1 ++ l2)
  = (handler_arguments l1 ++ handler_arguments l2)%list.
Proof.
  induction l1 as [|e l1 IH]; [reflexivity|].
  destruct e; simpl; rewrite IH; reflexivity.
Qed.

End ObservedLemmas.

(** ** The message router *)

Section RouterProperties.

Import MessageRouting.
Import Observed.

Context {W : Type}.
Variable P : Platform.

Ltac run_route :=
  unfold route, route_try, route_catch, call_if_set, try_finally,
    try_catch, bind, perform, throw, ret, call_out, call_handler;
  simpl.

(** Case analysis on the call of [logInput], with the case in which it
    throws closed by the hypothesis [Hret] that it returns. *)
Ltac logInput_returns r x st Hret :=
  unfold returns_normally, after_callback in *;
  destruct (_logInput r) as [f|]; simpl;
  [ destruct (f x (world st)) as [[[]|t] w1] eqn:Hf; simpl in *;
    [ | discriminate Hret ]
  | ].

(** Case analysis on the call of the handler and of [logOutput]. *)
Ltac handler_cases :=
  match goal with
  | |- context [?h ?d ?w] =>
      match type of h with
      | Handler _ => destruct (h d w) as [[v|t] w'] eqn:Hh; simpl
      end
  end;
  [ match goal with
    | |- context [_logOutput ?r] =>
        destruct (_logOutput r) as [g|]; simpl;
        [ match goal with
          | |- context [g ?v ?w] =>
              destruct (g v w) as [[[]|t'] w''] eqn:Hg; simpl
          end
        | ]
    end
  | ].

(** The [try] block of [route] on a message whose type is missing or
    falsy: the first guard throws, whatever is registered. *)
Lemma route_falsy_type (r : MessageRouter) (x : JSValue) (st : State W) :
  truthy (opt_get x "type") = false ->
  returns_normally (_logInput r) x (world st) ->
  fst (route P r x st)
  = Abrupt (ThrownError
              (new_InvalidInputException (captureStackTrace P)
                 (Some "The provided input has no type attribute")
                 JSUndefined))
  /\ handler_invocations (effects (snd (route P r x st)))
     = handler_invocations (effects st).
Proof.
  intros Hfalsy Hret. run_route.
  logInput_returns r x st Hret; rewrite Hfalsy; simpl;
    rewrite !handler_invocations_app; simpl; split; (reflexivity || lia).
Qed.

(** C8, amended. An input without a [type] attribute is rejected by
    [route] with an InvalidInput exception whose message is "The
    provided input has no type attribute", on a router whose [logInput]
    is not set or returns when called with the input. *)
Theorem route_missing_type (r : MessageRouter) (x : JSValue)
    (st : State W) :
  opt_get x "type" = JSUndefined ->
  returns_normally (_logInput r) x (world st) ->
  exists e,
    fst (route P r x st) = Abrupt (ThrownError e)
    /\ class e = InvalidInputException
    /\ name e = "INVALID_INPUT"
    /\ message e = JSString "The provided input has no type attribute".
Proof.
  intros Hno Hret. eexists. split.
  - apply route_falsy_type; [rewrite Hno; reflexivity | exact Hret].
  - repeat split.
Qed.

(** C10, amended. An input whose [type] is the empty string is rejected
    with the InvalidInput exception "The provided input has no type
    attribute", never with NotFound, whatever the registry holds, a
    handler under the empty key included; this on a router whose
    [logInput] is not set or returns when called with the input. *)
Theorem route_empty_type (r : MessageRouter) (x : JSValue)
    (st : State W) :
  get x "type" = JSString EmptyString ->
  returns_normally (_logInput r) x (world st) ->
  exists e,
    fst (route P r x st) = Abrupt (ThrownError e)
    /\ class e = InvalidInputException
    /\ message e = JSString "The provided input has no type attribute"
    /\ class e <> NotFoundException
    /\ handler_invocations (effects (snd (route P r x st)))
       = handler_invocations (effects st).
Proof.
  intros Hty Hret. apply get_string_opt_get in Hty as Hopt.
  destruct (route_falsy_type r x st) as [Hrun Hinv];
    [rewrite Hopt; reflexivity | exact Hret |].
  eexists. split; [exact Hrun|]. split; [reflexivity|].
  split; [reflexivity|]. split; [discriminate | exact Hinv].
Qed.

(** The [try] block of [route] on a non-empty type without a
    registration: the lookup guard throws. *)
Lemma route_lookup_miss (r : MessageRouter) (x : JSValue) (T : string)
    (st : State W) :
  get x "type" = JSString T ->
  T <> EmptyString ->
  _handlers r !! T = None ->
  returns_normally (_logInput r) x (world st) ->
  fst (route P r x st)
  = Abrupt (ThrownError
              (new_NotFoundException (captureStackTrace P)
                 (Some "Message handler not found")
                 (JSObject
                    [("reason",
                      JSString
                        ("Could not find a handler for message type: "
                         +:+ dquote +:+ T +:+ dquote))]))).
Proof.
  intros Hty Hne Hnone Hret. apply get_string_opt_get in Hty as Hopt.
  run_route.
  logInput_returns r x st Hret;
    rewrite Hopt, (truthy_nonempty T Hne), Hty; simpl;
    rewrite Hnone; simpl; reflexivity.
Qed.

(** C6, amended. An input whose [type] is a non-empty string without a
    registration is rejected with a NotFound exception: status 404,
    message "Message handler not found", and a reason in the details
    that quotes the type; this on a router whose [logInput] is not set
    or returns when called with the input. *)
Theorem route_unregistered_type (r : MessageRouter) (x : JSValue)
    (T : string) (st : State W) :
  get x "type" = JSString T ->
  T <> EmptyString ->
  _handlers r !! T = None ->
  returns_normally (_logInput r) x (world st) ->
  exists e,
    fst (route P r x st) = Abrupt (ThrownError e)
    /\ class e = NotFoundException
    /\ name e = "NOT_FOUND"
    /\ statusCode e = Some 404
    /\ message e = JSString "Message handler not found"
    /\ get (details e) "reason"
       = JSString ("Could not find a handler for message type: "
                   +:+ dquote +:+ T +:+ dquote).
Proof.
  intros Hty Hne Hnone Hret. eexists. split.
  - apply route_lookup_miss; eassumption.
  - repeat split.
Qed.

(** C5, amended. For a non-empty type [T] registered with schema [sch] and
    an input [x] with [x.type = T] on which [sch] fails with [error],
    [route] rejects with an InvalidInput exception whose message is
    "The provided input is invalid" and whose [details.issues] is the
    issue list of [error], and the handler is not invoked; this on a
    router whose [logInput] is not set or returns when called with the
    input. *)
Theorem route_invalid_input (r : MessageRouter) (x : JSValue)
    (T : string) (h : Handler W) (sch : ZodSchema) (error : ZodError)
    (st : State W) :
  _handlers r !! T = Some {| handler := h; schema := sch |} ->
  T <> EmptyString ->
  get x "type" = JSString T ->
  safeParse sch x = ParseFailure error ->
  returns_normally (_logInput r) x (world st) ->
  exists e,
    fst (route P r x st) = Abrupt (ThrownError e)
    /\ class e = InvalidInputException
    /\ statusCode e = Some 400
    /\ message e = JSString "The provided input is invalid"
    /\ get (details e) "issues" = JSArray (issues error)
    /\ handler_invocations (effects (snd (route P r x st)))
       = handler_invocations (effects st).
Proof.
  intros Hreg Hne Hty Hfail Hret. apply get_string_opt_get in Hty as Hopt.
  eexists. run_route.
  logInput_returns r x st Hret;
    rewrite Hopt, (truthy_nonempty T Hne), Hty; simpl;
    rewrite Hreg; simpl; rewrite Hfail; simpl;
    (split; [reflexivity|]); repeat (split; [reflexivity|]);
    rewrite !handler_invocations_app; simpl; lia.
Qed.

(** C1, amended. For a handler [h] registered under a non-empty type [T]
    with schema [sch] and an input [x] with [x.type = T] that [sch] accepts
    with parsed data [d], on a router whose [logInput] is not set or
    returns when called with [x]: [route] invokes [h] once, on [d], the
    output of the schema, not on [x]; and [route] settles as that call
    does when [logOutput] is not set or returns when called with the
    value [h] resolves to. *)
Theorem route_dispatches_parsed_data (r : MessageRouter) (x d : JSValue)
    (T : string) (h : Handler W) (sch : ZodSchema) (st : State W) :
  _handlers r !! T = Some {| handler := h; schema := sch |} ->
  T <> EmptyString ->
  get x "type" = JSString T ->
  safeParse sch x = ParseSuccess d ->
  returns_normally (_logInput r) x (world st) ->
  ((forall v w',
      h d (after_callback (_logInput r) x (world st)) = (Normal v, w') ->
      returns_normally (_logOutput r) v w') ->
   fst (route P r x st)
   = fst (h d (after_callback (_logInput r) x (world st))))
  /\ handler_invocations (effects (snd (route P r x st)))
     = S (handler_invocations (effects st))
  /\ handler_arguments (effects (snd (route P r x st)))
     = (handler_arguments (effects st) ++ [d])%list.
Proof.
  intros Hreg Hne Hty Hok Hret. apply get_string_opt_get in Hty as Hopt.
  run_route.
  logInput_returns r x st Hret;
    rewrite Hopt, (truthy_nonempty T Hne), Hty; simpl;
    rewrite Hreg; simpl; rewrite Hok; simpl;
    handler_cases;
    rewrite ?handler_invocations_app, ?handler_arguments_app; simpl;
    rewrite ?app_nil_r;
    (split; [|split; [lia|reflexivity]]);
    intros Hout; try reflexivity;
    specialize (Hout _ _ eq_refl); simpl in Hout; rewrite Hg in Hout;
    discriminate Hout.
Qed.

(** C7, amended. Routing an input whose type is "UNKNOWN_EVENT" fails
    with a NotFound exception on both routers when nothing is
    registered and the input log function is not set or returns when
    called with the input: the router built by [createRouter] from an
    empty handler map throws it with the message "Route handler not
    found", and a new [MessageRouter] rejects with the message "Message
    handler not found". *)
Theorem unknown_event_not_found (inputLogFunc : option (Callback W))
    (options : option MessageRouterOptions) (x : JSValue) (st : State W) :
  get x "type" = JSString "UNKNOWN_EVENT" ->
  returns_normally inputLogFunc x (world st) ->
  returns_normally (options ≫= opt_logInput) x (world st) ->
  (exists e,
      fst (HandlerMapRouter.createRouter P [] inputLogFunc x st)
      = Abrupt (ThrownError e)
      /\ class e = NotFoundException
      /\ message e = JSString "Route handler not found")
  /\ (exists e,
         fst (route P (new_MessageRouter options) x st)
         = Abrupt (ThrownError e)
         /\ class e = NotFoundException
         /\ message e = JSString "Message handler not found").
Proof.
  intros Hty Hret1 Hret2. split.
  - eexists. split.
    + unfold HandlerMapRouter.createRouter, call_if_set, bind, perform,
        call_out, ret, throw.
      destruct x; simpl in Hty; try discriminate Hty.
      unfold returns_normally in Hret1.
      destruct inputLogFunc as [f|]; simpl;
        [destruct (f _ (world st)) as [[[]|t] w1]; simpl in *;
         [|discriminate Hret1]|];
        rewrite Hty; reflexivity.
    + split; reflexivity.
  - eexists. split.
    + apply route_lookup_miss;
        [exact Hty | discriminate | apply lookup_empty | exact Hret2].
    + split; reflexivity.
Qed.

(** The router [register] returns. *)
Lemma register_result (r : MessageRouter) (T : string) (h : Handler W)
    (sch : ZodSchema) (st : State W) :
  fst (register r T h sch st)
  = Normal {| _handlers :=
                <[T := {| handler := h; schema := sch |}]> (_handlers r);
              _name := _name r;
              _logInput := _logInput r;
              _logOutput := _logOutput r |}.
Proof. reflexivity. Qed.

Lemma Map_get_insert_ne {A : Type} (m : gmap string A) (T : string) (v : A)
    (key : JSValue) :
  key <> JSString T -> Map_get (<[T := v]> m) key = Map_get m key.
Proof.
  intros Hne. destruct key; try reflexivity. simpl.
  apply lookup_insert_ne. congruence.
Qed.

(** X1. Whatever was registered before, after [register(T, h, sch)] with
    a non-empty [T] the router sends an input of type [T] that [sch]
    accepts to [h], when [logInput] is not set or returns: [h] is the
    only handler invoked, once, on the parsed data; and [route] settles
    as that call does when [logOutput] is not set or returns.  A second
    registration under the same type replaces the first. *)
Theorem register_then_route (r r' : MessageRouter) (T : string)
    (h : Handler W) (sch : ZodSchema) (x d : JSValue) (st0 st : State W) :
  fst (register r T h sch st0) = Normal r' ->
  T <> EmptyString ->
  get x "type" = JSString T ->
  safeParse sch x = ParseSuccess d ->
  returns_normally (_logInput r) x (world st) ->
  ((forall v w',
      h d (after_callback (_logInput r) x (world st)) = (Normal v, w') ->
      returns_normally (_logOutput r) v w') ->
   fst (route P r' x st)
   = fst (h d (after_callback (_logInput r) x (world st))))
  /\ handler_arguments (effects (snd (route P r' x st)))
     = (handler_arguments (effects st) ++ [d])%list.
Proof.
  intros Hreg Hne Hty Hok Hret. rewrite register_result in Hreg.
  injection Hreg as <-.
  apply get_string_opt_get in Hty as Hopt.
  run_route.
  logInput_returns r x st Hret;
    rewrite Hopt, (truthy_nonempty T Hne), Hty; simpl;
    rewrite lookup_insert_eq; simpl; rewrite Hok; simpl;
    handler_cases;
    rewrite ?handler_arguments_app; simpl; rewrite ?app_nil_r;
    (split; [|reflexivity]);
    intros Hout; try reflexivity;
    specialize (Hout _ _ eq_refl); simpl in Hout; rewrite Hg in Hout;
    discriminate Hout.
Qed.

(** X2. Registering a handler for one type leaves the routing of every
    input of another type as it was: same completion, same effects. *)
Theorem register_other_type (r r' : MessageRouter) (T : string)
    (h : Handler W) (sch : ZodSchema) (x : JSValue) (st0 st : State W) :
  fst (register r T h sch st0) = Normal r' ->
  get x "type" <> JSString T ->
  route P r' x st = route P r x st.
Proof.
  intros Hreg Hne. rewrite register_result in Hreg. injection Hreg as <-.
  unfold route, route_try. simpl.
  rewrite (Map_get_insert_ne _ _ _ _ Hne). reflexivity.
Qed.

(** Every path through [route]: the hooks return or throw, the guards
    pass or throw, the handler resolves or rejects. *)
Ltac route_paths r x st :=
  run_route;
  destruct (_logInput r) as [f|]; simpl;
  [ destruct (f x (world st)) as [[[]|t0] w1] eqn:Hf; simpl | ];
  try (destruct (truthy (opt_get x "type")) eqn:Htruthy; simpl;
       [ destruct (Map_get (_handlers r) (get x "type")) as [reg|] eqn:Hreg;
         simpl;
         [ destruct (safeParse (schema reg) x) as [d|err] eqn:Hparse; simpl;
           [ handler_cases | ]
         | ]
       | ]).

(** X3. Every call of [route] opens one span and ends it, and adds one to
    the counter of routed messages exactly once: with status "success"
    when it resolves and with status "error" when it rejects. *)
Theorem route_records_one_outcome (r : MessageRouter) (x : JSValue)
    (st : State W) :
  exists new,
    effects (snd (route P r x st)) = (effects st ++ new)%list
    /\ count_if is_span_start new = 1%nat
    /\ count_if is_span_end new = 1%nat
    /\ last new = Some SpanEnd
    /\ count_if (is_counter "router_messages_routed_total") new = 1%nat
    /\ count_if (is_counted "router_messages_routed_total" "success") new
       = (if fst (route P r x st) is Normal _ then 1 else 0)%nat
    /\ count_if (is_counted "router_messages_routed_total" "error") new
       = (if fst (route P r x st) is Normal _ then 0 else 1)%nat.
Proof.
  route_paths r x st;
    eexists; (split; [rewrite <- ?app_assoc; simpl; reflexivity|]);
    repeat split; reflexivity.
Qed.

(** X4. [logInput], when configured, is called with every input, also
    with one that is then rejected.  [logOutput] is called only when
    configured and only when the handler resolved, once, with the value
    the handler resolved to; when [route] resolves it was called with
    that value, and when [route] rejects it was not called unless it is
    [logOutput] itself that threw. *)
Theorem route_log_hooks (r : MessageRouter) (x : JSValue) (st : State W) :
  exists new,
    effects (snd (route P r x st)) = (effects st ++ new)%list
    /\ logInput_calls new = (if _logInput r is Some _ then [x] else [])
    /\ (_logOutput r = None -> logOutput_calls new = [])
    /\ (forall v, fst (route P r x st) = Normal v ->
          logOutput_calls new = (if _logOutput r is Some _ then [v] else []))
    /\ (forall v, In v (logOutput_calls new) ->
          logOutput_calls new = [v]
          /\ exists reg d,
               Map_get (_handlers r) (get x "type") = Some reg
               /\ safeParse (schema reg) x = ParseSuccess d
               /\ fst (handler reg d
                         (after_callback (_logInput r) x (world st)))
                  = Normal v)
    /\ (forall t, fst (route P r x st) = Abrupt t ->
          logOutput_calls new = []
          \/ exists v w,
               logOutput_calls new = [v] /\ throws (_logOutput r) v w t).
Proof.
  unfold after_callback, throws.
  route_paths r x st;
    eexists; (split; [rewrite <- ?app_assoc; simpl; reflexivity|]);
    simpl;
    (split; [reflexivity|]);
    (split; [intros Hnone; try discriminate Hnone; reflexivity|]);
    (split; [intros v0 Hv; try discriminate Hv;
             try (injection Hv as <-); reflexivity|]);
    (split;
     [ intros v0 Hin; simpl in Hin;
       try (destruct Hin as [<-|[]]; split; [reflexivity|];
            exists reg, d; rewrite ?Hf, ?Hh; simpl;
            split; [reflexivity|]; split; [assumption|reflexivity]);
       try (destruct Hin)
     | intros t1 Ht; try discriminate Ht;
       first [ left; reflexivity
             | right; injection Ht as <-; eexists; eexists;
               split; [reflexivity|]; eexists; split; [reflexivity|];
               rewrite Hg; reflexivity ] ]).
Qed.


(** A throwing [logInput] is the outcome of [route]: nothing is looked
    up and no handler is invoked. *)
Lemma route_logInput_throws (r : MessageRouter) (x : JSValue)
    (st : State W) (t : Thrown) :
  throws (_logInput r) x (world st) t ->
  fst (route P r x st) = Abrupt t
  /\ handler_invocations (effects (snd (route P r x st)))
     = handler_invocations (effects st).
Proof.
  intros (f & Hf & Ht). run_route. rewrite Hf. simpl.
  destruct (f x (world st)) as [[[]|t0] w1]; simpl in Ht;
    [discriminate Ht|].
  injection Ht as ->. simpl.
  rewrite !handler_invocations_app. simpl. split; [reflexivity|lia].
Qed.

End RouterProperties.

(** ** The retry delay *)

Section RetryDelay.

Import IEEE754.
Import EventBus.
Import Observed.

Context {W : Type}.
Variable P : Platform.

Local Open Scope Q_scope.

(** For an attempt from 1 on the real delay before jitter is an
    integer. *)
Lemma backoff_integer (baseDelay maxDelay n : Z) :
  (1 <= n)%Z ->
  backoff baseDelay maxDelay n
  == inject_Z (Z.min (baseDelay * 2 ^ (n - 1)) maxDelay).
Proof.
  intros Hn. unfold backoff.
  assert (Hp : inject_Z baseDelay * 2 ^ (n - 1)
               == inject_Z (baseDelay * 2 ^ (n - 1))).
  { rewrite inject_Z_mult, pow2_inject by lia. reflexivity. }
  destruct (Z.min_spec (baseDelay * 2 ^ (n - 1)) maxDelay)
    as [[Hlt ->]|[Hle ->]].
  - rewrite Q.min_l; [exact Hp|]. rewrite Hp, <- Zle_Qle. lia.
  - rewrite Q.min_r; [reflexivity|]. rewrite Hp, <- Zle_Qle. lia.
Qed.

Lemma of_Z_zero : of_Z 0 = Finite 0.
Proof. reflexivity. Qed.

Lemma one_tenth_value :
  one_tenth = Finite (3602879701896397 # 36028797018963968).
Proof. vm_compute. reflexivity. Qed.

(** The delay before jitter is exact for an exact policy: it is the
    Number whose value is [min(baseDelay * 2^(n-1), maxDelay)], an
    integer of at most 53 bits. *)
Lemma capped_delay_exact (baseDelay maxDelay n : Z) :
  exact_policy baseDelay maxDelay n ->
  exists (q : Q) (k : Z),
    capped_delay n baseDelay maxDelay = Finite q
    /\ q == backoff baseDelay maxDelay n
    /\ q == inject_Z k
    /\ (0 <= k <= 2 ^ 53)%Z.
Proof.
  intros (Hn & Hb & Hm & Hnan).
  destruct (of_Z_exact baseDelay Hb) as (bq & Hbq & Hbv).
  destruct (of_Z_exact maxDelay Hm) as (mq & Hmq & Hmv).
  pose proof (backoff_integer baseDelay maxDelay n Hn) as Hint.
  assert (Hb0 : 0 <= inject_Z baseDelay).
  { change 0 with (inject_Z 0). rewrite <- Zle_Qle. lia. }
  assert (Hm53 : inject_Z maxDelay <= inject_Z (2 ^ 53)).
  { rewrite <- Zle_Qle. lia. }
  assert (Hbig : inject_Z (2 ^ 53) < 2 ^ 1024) by reflexivity.
  unfold capped_delay. rewrite Hbq, Hmq.
  (* the real product is at least [2^1024]: the cap is the minimum *)
  assert (Hcap : 2 ^ 1024 <= inject_Z baseDelay * 2 ^ (n - 1) ->
                 mq == backoff baseDelay maxDelay n
                 /\ mq == inject_Z maxDelay /\ (0 <= maxDelay <= 2 ^ 53)%Z).
  { intros Hover. split; [|split; [exact Hmv|exact Hm]].
    unfold backoff. rewrite Q.min_r; [exact Hmv|]. lra. }
  unfold Math_pow2.
  destruct (1024 <=? n - 1)%Z eqn:Hexp.
  - apply Z.leb_le in Hexp.
    assert (Hpos : (0 < baseDelay)%Z) by lia.
    assert (Hc : (bq ?= 0) = Gt).
    { apply Qgt_alt. rewrite Hbv. change 0 with (inject_Z 0).
      rewrite <- Zlt_Qlt. exact Hpos. }
    unfold mul. rewrite Hc. unfold Math_min.
    exists mq, maxDelay. split; [reflexivity|]. apply Hcap.
    apply Qle_trans with (1 * 2 ^ (n - 1)).
    + rewrite Qmult_1_l. apply pow2_le. lia.
    + apply Qmult_le_compat_r; [|apply Qlt_le_weak; apply pow2_pos].
      change 1 with (inject_Z 1). rewrite <- Zle_Qle. lia.
  - apply Z.leb_gt in Hexp.
    assert (Hlow : (n - 1 <? -1074)%Z = false) by (apply Z.ltb_ge; lia).
    rewrite Hlow. unfold mul.
    assert (Hprod : RN (bq * Qred (2 ^ (n - 1)))
                    = RN (inject_Z baseDelay * 2 ^ (n - 1))).
    { apply RN_nonneg_proper.
      - rewrite Qred_correct, Hbv. apply Qmult_le_0_compat; [exact Hb0|].
        apply Qlt_le_weak. apply pow2_pos.
      - rewrite Qred_correct, Hbv. reflexivity. }
    rewrite Hprod.
    destruct (Qlt_le_dec (inject_Z baseDelay * 2 ^ (n - 1)) (2 ^ 1024))
      as [Hsmall|Hover].
    + destruct (RN_exact baseDelay (n - 1) Hb ltac:(lia) Hsmall)
        as (p & Hp & Hpv).
      rewrite Hp. unfold Math_min.
      destruct (Qle_bool p mq) eqn:Hcmp.
      * apply Qle_bool_iff in Hcmp.
        assert (Hpk : p == inject_Z (baseDelay * 2 ^ (n - 1))).
        { rewrite Hpv, inject_Z_mult, pow2_inject by lia. reflexivity. }
        exists p, (baseDelay * 2 ^ (n - 1))%Z.
        split; [reflexivity|]. split; [|split; [exact Hpk|]].
        -- unfold backoff. rewrite Q.min_l; [exact Hpv|]. lra.
        -- rewrite Hpk, Hmv in Hcmp. rewrite <- Zle_Qle in Hcmp.
           split; [|lia].
           apply Z.mul_nonneg_nonneg; [lia|]. apply Z.pow_nonneg. lia.
      * assert (Hgt : mq < p).
        { apply Qnot_le_lt. intros Hle. apply Qle_bool_iff in Hle.
          congruence. }
        exists mq, maxDelay. split; [reflexivity|].
        split; [|split; [exact Hmv|exact Hm]].
        unfold backoff. rewrite Q.min_r; [exact Hmv|]. lra.
    + rewrite (RN_overflow _ Hover). unfold Math_min.
      exists mq, maxDelay. split; [reflexivity|]. apply Hcap. exact Hover.
Qed.

(** Adding the jitter [0] changes nothing. *)
Lemma without_jitter (q : Q) (k : Z) :
  q == inject_Z k -> (0 <= k <= 2 ^ 53)%Z ->
  exists s, add (Finite q) (of_Z 0) = Finite s /\ s == q.
Proof.
  intros Hq Hk. rewrite of_Z_zero. unfold add.
  destruct (of_Z_exact k Hk) as (s & Hs & Hsv).
  exists s. split; [|rewrite Hsv, Hq; reflexivity].
  rewrite <- Hs. unfold of_Z. apply RN_nonneg_proper.
  - rewrite Hq. ring_simplify. change 0 with (inject_Z 0).
    rewrite <- Zle_Qle. lia.
  - rewrite Hq. ring.
Qed.

(** The sum [d + d * 0.1] in Numbers: at most [1.1 * d] up to three
    roundings. *)
Lemma full_jitter (q : Q) (k : Z) :
  q == inject_Z k -> (0 <= k <= 2 ^ 53)%Z ->
  exists t top,
    mul (Finite q) one_tenth = Finite t
    /\ 0 <= t
    /\ add (Finite q) (Finite t) = Finite top
    /\ top <= (11 # 10) * q * (1 + 2 ^ (-51)).
Proof.
  intros Hq Hk. rewrite one_tenth_value.
  set (c := 3602879701896397 # 36028797018963968).
  assert (Hq0 : 0 <= q).
  { rewrite Hq. change 0 with (inject_Z 0). rewrite <- Zle_Qle. lia. }
  assert (Hq53 : q <= inject_Z (2 ^ 53)).
  { rewrite Hq, <- Zle_Qle. lia. }
  destruct (of_Z_exact (2 ^ 53) ltac:(lia)) as (big & Hbig & Hbigv).
  unfold of_Z in Hbig.
  assert (Hc0 : 0 <= c) by discriminate.
  assert (Hc1 : c <= 1) by discriminate.
  destruct (RN_mono (q * c) (inject_Z (2 ^ 53)) big) as (t & Ht & Ht0 & Htb);
    [nra | nra | exact Hbig |].
  destruct (RN_exact 1 54 ltac:(lia) ltac:(lia)) as (big2 & Hbig2 & Hbig2v);
    [reflexivity|].
  assert (Hsum : q + t <= inject_Z 1 * 2 ^ 54).
  { change (inject_Z 1 * 2 ^ 54) with (2 * inject_Z (2 ^ 53)).
    rewrite Hbigv in Htb. lra. }
  destruct (RN_mono (q + t) (inject_Z 1 * 2 ^ 54) big2)
    as (top & Htop & Htop0 & _); [lra | exact Hsum | exact Hbig2 |].
  exists t, top. unfold mul, add.
  split; [exact Ht|]. split; [exact Ht0|]. split; [exact Htop|].
  destruct (Z.eq_dec k 0%Z) as [->|Hne].
  - assert (Hz : q == 0) by (rewrite Hq; reflexivity).
    assert (Htz : t = 0).
    { rewrite (RN_zero (q * c)) in Ht by (rewrite Hz; ring).
      injection Ht as <-. reflexivity. }
    subst t.
    rewrite (RN_zero (q + 0)) in Htop by (rewrite Hz; ring).
    injection Htop as <-. rewrite Hz. discriminate.
  - assert (Hq1 : 1 <= q).
    { rewrite Hq. change 1 with (inject_Z 1). rewrite <- Zle_Qle. lia. }
    assert (Hmin : 2 ^ (-1022) <= c) by discriminate.
    destruct (RN_relative_error (q * c) t) as [_ Hterr];
      [nra | exact Ht |].
    destruct (RN_relative_error (q + t) top) as [_ Htoperr];
      [ apply Qle_trans with c; [exact Hmin|]; lra | exact Htop |].
    change (2 ^ (-53)) with (1 # 9007199254740992) in *.
    change (2 ^ (-51)) with (1 # 2251799813685248).
    unfold c in *. nra.
Qed.

(** With jitter the delay lies between the delay before jitter and the
    sum [d + d * 0.1] in Numbers. *)
Lemma with_jitter (q : Q) (k : Z) (r : Q) :
  q == inject_Z k -> (0 <= k <= 2 ^ 53)%Z -> 0 <= r -> r < 1 ->
  exists s top,
    add (Finite q) (mul (mul (Finite r) (Finite q)) one_tenth) = Finite s
    /\ add (Finite q) (mul (Finite q) one_tenth) = Finite top
    /\ q <= s
    /\ s <= top
    /\ top <= (11 # 10) * q * (1 + 2 ^ (-51)).
Proof.
  intros Hq Hk Hr0 Hr1.
  destruct (full_jitter q k Hq Hk) as (t & top & Ht & Ht0 & Htop & Hbound).
  rewrite Ht, Htop.
  rewrite one_tenth_value in *.
  set (c := 3602879701896397 # 36028797018963968) in *.
  assert (Hq0 : 0 <= q).
  { rewrite Hq. change 0 with (inject_Z 0). rewrite <- Zle_Qle. lia. }
  assert (Hc0 : 0 <= c) by discriminate.
  destruct (of_Z_exact k Hk) as (q0 & Hq0v & Hq0e). unfold of_Z in Hq0v.
  assert (Hrq : RN q = Finite q0).
  { rewrite <- Hq0v. apply RN_nonneg_proper; [exact Hq0|exact Hq]. }
  destruct (RN_mono (r * q) q q0) as (a & Ha & Ha0 & Haq);
    [nra | nra | exact Hrq |].
  unfold mul in *. rewrite Ha.
  assert (Haq' : a <= q) by (rewrite Hq0e, <- Hq in Haq; exact Haq).
  destruct (RN_mono (a * c) (q * c) t) as (j & Hj & Hj0 & Hjt);
    [nra | nra | exact Ht |].
  rewrite Hj. unfold add in *.
  destruct (RN_mono (q + j) (q + t) top) as (s & Hs & Hs0 & Hst);
    [lra | lra | exact Htop |].
  exists s, top. split; [exact Hs|]. split; [reflexivity|].
  split; [|split; [exact Hst|exact Hbound]].
  destruct (RN_lower q (q + j) q0) as [Hinf|(s' & Hs' & Hle)];
    [exact Hq0 | lra | exact Hrq | congruence |].
  rewrite Hs in Hs'. injection Hs' as <-.
  rewrite Hq0e, <- Hq in Hle. exact Hle.
Qed.

(** Without jitter the delay computed is the real delay, for an exact
    policy. *)
Lemma delay_without_jitter (n baseDelay maxDelay : Z) (st : State W) :
  exact_policy baseDelay maxDelay n ->
  exists s,
    _calculateRetryDelay P n baseDelay maxDelay false st
    = (Normal (Finite s), st)
    /\ s == backoff baseDelay maxDelay n.
Proof.
  intros Hpolicy.
  destruct (capped_delay_exact baseDelay maxDelay n Hpolicy)
    as (d & k & Hd & Hdv & Hdk & Hk).
  destruct (without_jitter d k Hdk Hk) as (s & Hs & Hsv).
  exists s. unfold _calculateRetryDelay, ret. rewrite Hd, Hs.
  split; [reflexivity|]. rewrite Hsv. exact Hdv.
Qed.


(** X14. For an exact policy the retry delay is a finite Number that
    is never negative, never above [maxDelay] without jitter, and never
    above the sum [maxDelay + maxDelay * 0.1] in Numbers with jitter,
    which is at most [1.1 * maxDelay * (1 + 2^-51)]. *)
Theorem retry_delay_capped (n baseDelay maxDelay : Z) (useJitter : bool)
    (st : State W) :
  exact_policy baseDelay maxDelay n ->
  exists s : Q,
    fst (_calculateRetryDelay P n baseDelay maxDelay useJitter st)
    = Normal (Finite s)
    /\ 0 <= s
    /\ (useJitter = false -> s <= inject_Z maxDelay)
    /\ exists top,
         add (of_Z maxDelay) (mul (of_Z maxDelay) one_tenth) = Finite top
         /\ s <= top
         /\ top <= (11 # 10) * inject_Z maxDelay * (1 + 2 ^ (-51)).
Proof.
  intros Hpolicy.
  destruct (capped_delay_exact baseDelay maxDelay n Hpolicy)
    as (d & k & Hd & Hdv & Hdk & Hk).
  assert (Hm : (0 <= maxDelay <= 2 ^ 53)%Z) by apply Hpolicy.
  destruct (of_Z_exact maxDelay Hm) as (mq & Hmq & Hmv).
  destruct (full_jitter mq maxDelay Hmv Hm)
    as (tm & topm & Htm & Htm0 & Htopm & Hboundm).
  destruct (full_jitter d k Hdk Hk) as (td & topd & Htd & Htd0 & Htopd & _).
  assert (Hd0 : 0 <= d).
  { rewrite Hdk. change 0 with (inject_Z 0). rewrite <- Zle_Qle. lia. }
  assert (Hdm : d <= mq).
  { rewrite Hdv, Hmv. apply Q.le_min_r. }
  (* the sum grows with the delay before jitter *)
  assert (Htops : topd <= topm /\ d <= topd).
  { rewrite one_tenth_value in Htm, Htd.
    set (c := 3602879701896397 # 36028797018963968) in *.
    assert (Hc0 : 0 <= c) by discriminate.
    unfold mul in Htm, Htd. unfold add in Htopm, Htopd.
    destruct (RN_mono (d * c) (mq * c) tm) as (t' & Ht' & _ & Hle1);
      [nra | nra | exact Htm |].
    rewrite Htd in Ht'. injection Ht' as <-.
    destruct (RN_mono (d + td) (mq + tm) topm) as (top' & Htop' & _ & Hle2);
      [lra | lra | exact Htopm |].
    rewrite Htopd in Htop'. injection Htop' as <-.
    split; [exact Hle2|].
    destruct (of_Z_exact k Hk) as (d0 & Hd0v & Hd0e). unfold of_Z in Hd0v.
    assert (Hrd : RN d = Finite d0).
    { rewrite <- Hd0v. apply RN_nonneg_proper; [exact Hd0|exact Hdk]. }
    destruct (RN_lower d (d + td) d0) as [Hinf|(s' & Hs' & Hle)];
      [exact Hd0 | lra | exact Hrd | congruence |].
    rewrite Htopd in Hs'. injection Hs' as <-.
    rewrite Hd0e, <- Hdk in Hle. exact Hle. }
  destruct Htops as [Htops Hdtop].
  unfold _calculateRetryDelay. rewrite Hd, Hmq.
  destruct useJitter; unfold bind, platform_read, ret; simpl.
  - destruct (Math_random_range P (reads st)) as [Hlo Hhi].
    destruct (with_jitter d k (Math_random P (reads st)) Hdk Hk Hlo Hhi)
      as (s & top & Hs & Htop & H1 & H2 & _).
    rewrite Htd, Htopd in Htop. injection Htop as <-.
    exists s. rewrite Hs. split; [reflexivity|]. split; [lra|].
    split; [discriminate|].
    exists topm. rewrite Htm, Htopm. split; [reflexivity|].
    split; [lra|]. rewrite <- Hmv. exact Hboundm.
  - destruct (without_jitter d k Hdk Hk) as (s & Hs & Hsv).
    exists s. rewrite Hs. split; [reflexivity|]. split; [lra|].
    split; [intros _; rewrite Hsv, <- Hmv; exact Hdm|].
    exists topm. rewrite Htm, Htopm. split; [reflexivity|].
    split; [lra|]. rewrite <- Hmv. exact Hboundm.
Qed.

(** X15. Without jitter, for an exact policy, the delay of attempt
    [n + 1] is never below that of attempt [n]: it is twice as long while
    [baseDelay * 2^n] does not exceed [maxDelay], and both are [maxDelay]
    once [baseDelay * 2^(n-1)] has reached it. *)
Theorem retry_delay_doubles (n baseDelay maxDelay : Z) (st st' : State W) :
  (1 <= n)%Z ->
  exact_policy baseDelay maxDelay (n + 1) ->
  exists q1 q2 : Q,
    fst (_calculateRetryDelay P n baseDelay maxDelay false st)
    = Normal (Finite q1)
    /\ fst (_calculateRetryDelay P (n + 1) baseDelay maxDelay false st')
       = Normal (Finite q2)
    /\ q1 <= q2
    /\ (inject_Z baseDelay * 2 ^ n <= inject_Z maxDelay -> q2 == 2 * q1)
    /\ (inject_Z maxDelay <= inject_Z baseDelay * 2 ^ (n - 1) ->
        q1 == inject_Z maxDelay /\ q2 == inject_Z maxDelay).
Proof.
  intros Hn Hnext.
  assert (Hthis : exact_policy baseDelay maxDelay n).
  { destruct Hnext as (_ & Hb & Hm & Hnan).
    split; [exact Hn|]. split; [exact Hb|]. split; [exact Hm|]. lia. }
  destruct (delay_without_jitter n baseDelay maxDelay st Hthis)
    as (q1 & Hq1 & Hv1).
  destruct (delay_without_jitter (n + 1) baseDelay maxDelay st' Hnext)
    as (q2 & Hq2 & Hv2).
  exists q1, q2. rewrite Hq1, Hq2.
  split; [reflexivity|]. split; [reflexivity|].
  rewrite Hv1, Hv2. unfold backoff.
  replace (n + 1 - 1)%Z with n by lia.
  assert (Hb' : 0 <= inject_Z baseDelay).
  { change 0 with (inject_Z 0). rewrite <- Zle_Qle.
    destruct Hthis as (_ & Hb & _). lia. }
  assert (Hpow : 2 ^ n == 2 * 2 ^ (n - 1)).
  { replace n with ((n - 1) + 1)%Z at 1 by lia. apply pow2_succ. }
  assert (Hpos : 0 < 2 ^ (n - 1)) by apply pow2_pos.
  set (a := inject_Z baseDelay * 2 ^ (n - 1)).
  assert (Ha : 0 <= a) by (apply Qmult_le_0_compat; lra).
  assert (Hnx : inject_Z baseDelay * 2 ^ n == 2 * a)
    by (unfold a; rewrite Hpow; ring).
  destruct (Q.min_spec a (inject_Z maxDelay)) as [[H1 E1]|[H1 E1]];
    destruct (Q.min_spec (inject_Z baseDelay * 2 ^ n) (inject_Z maxDelay))
      as [[H2 E2]|[H2 E2]];
    rewrite ?E1, ?E2; repeat split; intros; lra.
Qed.

End RetryDelay.

(** ** The event bus *)

Section EventBusProperties.

Import EventBus.
Import Observed.

Context {W : Type}.
Variable P : Platform.

Ltac run_bus :=
  unfold _handleFinalFailure, _recordDeliveryMetrics, _calculateRetryDelay,
    call_if_set, attempt_of, call_handler, platform_read, try_finally,
    try_catch, bind, perform, throw, ret, call_out;
  simpl.

(** The [fuel] of [retry_loop] is never what ends the loop: one more
    unit of it changes nothing once it covers the attempts left. *)
Lemma retry_loop_fuel (this : NimbusEventBus) (h : Handler W)
    (event : JSValue) (maxRetries baseDelay maxDelay : Z)
    (useJitter : bool) (fuel : nat) :
  forall (attempt : Z) (st : State W),
    (Z.to_nat (maxRetries + 1 - attempt) <= fuel)%nat ->
    retry_loop P this h event maxRetries baseDelay maxDelay useJitter
      (S fuel) attempt st
    = retry_loop P this h event maxRetries baseDelay maxDelay useJitter
        fuel attempt st.
Proof.
  induction fuel as [|fuel IH]; intros attempt st Hfuel.
  - simpl. destruct (attempt <=? maxRetries) eqn:Hle; [|reflexivity].
    apply Z.leb_le in Hle. lia.
  - cbn [retry_loop].
    destruct (attempt <=? maxRetries) eqn:Hle; [|reflexivity].
    apply Z.leb_le in Hle. run_bus.
    destruct (h event (world st)) as [[v|error] w']; [reflexivity|].
    destruct (attempt + 1 >? maxRetries) eqn:Hgt; [reflexivity|].
    simpl. destruct useJitter; simpl; apply IH; lia.
Qed.

(** A handler that always fails uses up the loop: from [attempt], with
    [fuel] attempts left, the handler is invoked [fuel] times, and the
    loop ends in the exception that [_handleFinalFailure] builds from the
    error of the last invocation. *)
Lemma retry_loop_exhausts (this : NimbusEventBus) (h : Handler W)
    (event : JSValue) (maxRetries baseDelay maxDelay : Z)
    (useJitter : bool) :
  always_throws h ->
  forall (fuel : nat) (attempt : Z) (st : State W),
    (1 <= fuel)%nat ->
    Z.of_nat fuel = maxRetries + 1 - attempt ->
    exists (error : Thrown) (before : list Effect) (st' : State W),
      retry_loop P this h event maxRetries baseDelay maxDelay useJitter
        fuel attempt st
      = (Abrupt (ThrownError
                   (final_exception P error event maxRetries baseDelay
                      maxDelay)),
         st')
      /\ effects st' = (effects st ++ before)%list
      /\ world st' = world_after h event fuel (world st)
      /\ handler_invocations before = fuel
      /\ onError_calls before = []
      /\ fst (h event (world_after h event (Nat.pred fuel) (world st)))
         = Abrupt error.
Proof.
  intros Hthrows. induction fuel as [|fuel IH]; intros attempt st Hpos Hfuel;
    [lia|].
  cbn [retry_loop].
  assert (Hle : (attempt <=? maxRetries) = true) by (apply Z.leb_le; lia).
  rewrite Hle. run_bus.
  destruct (Hthrows event (world st)) as (error0 & w' & Hh).
  rewrite Hh.
  destruct (attempt + 1 >? maxRetries) eqn:Hgt.
  - apply Z.gtb_lt in Hgt. assert (fuel = O) by lia. subst fuel. simpl.
    exists error0. eexists. eexists. split; [reflexivity|]. simpl.
    split; [rewrite <- !app_assoc; simpl; reflexivity|].
    split; [simpl; rewrite ?Hh; reflexivity|].
    split; [reflexivity|]. split; [reflexivity|]. rewrite Hh. reflexivity.
  - assert (Hlt : attempt + 1 <= maxRetries).
    { destruct (Z.gtb_spec (attempt + 1) maxRetries); [discriminate|lia]. }
    assert (Hworld : world_after h event fuel (world st)
                     = world_after h event (Nat.pred fuel) w').
    { destruct fuel as [|fuel']; [lia|]. simpl. rewrite Hh. reflexivity. }
    simpl.
    destruct useJitter; simpl;
      match goal with
      | |- context [retry_loop _ _ _ _ _ _ _ _ fuel (attempt + 1) ?s] =>
          destruct (IH (attempt + 1) s ltac:(lia) ltac:(lia))
            as (error & before & st' & Hrun & Heff & Hwst & Hinv & Herr
                & Hlast)
      end;
      exists error; eexists; exists st'; (split; [exact Hrun|]);
      simpl in Heff; rewrite Heff, <- !app_assoc; simpl;
      (split; [reflexivity|]); simpl;
      (split; [simpl in Hwst; rewrite Hwst, ?Hh; reflexivity|]);
      (split; [rewrite Hinv; reflexivity|]); (split; [exact Herr|]);
      simpl in Hlast; rewrite Hworld; exact Hlast.
Qed.

(** [_processEvent] starts the loop with the fuel it needs: more fuel
    gives the same delivery. *)
Lemma _processEvent_fuel (this : NimbusEventBus) (h : Handler W)
    (event : JSValue) (maxRetries baseDelay maxDelay : Z)
    (useJitter : bool) (extra : nat) (st : State W) :
  retry_loop P this h event maxRetries baseDelay maxDelay useJitter
    (Z.to_nat (maxRetries + 1) + extra) 0 st
  = retry_loop P this h event maxRetries baseDelay maxDelay useJitter
      (Z.to_nat (maxRetries + 1)) 0 st.
Proof.
  induction extra as [|extra IH].
  - rewrite Nat.add_0_r. reflexivity.
  - rewrite Nat.add_succ_r, retry_loop_fuel; [exact IH|].
    rewrite Z.sub_0_r. lia.
Qed.

(** C2. One delivery to a subscription whose retry limit is [r] and
    whose handler fails on every invocation invokes the handler exactly
    [r + 1] times; after that [onError], when supplied, is called
    exactly once, with the event and a Generic exception whose message
    is "Failed to handle event: <type> from <source>" and whose stack is
    the stack of the error the last invocation threw, when that error
    has one.  The world the delivery leaves is the one [onError] leaves
    when called in the world after the [r + 1] invocations, and the
    delivery ends as that call of [onError] does; without [onError] the
    exception is logged and the delivery ends normally. *)
Theorem delivery_exhausts_retries (this : NimbusEventBus) (l : Listener)
    (event : JSValue) (r : nat) (st : State W) :
  l_maxRetries l = Z.of_nat r ->
  always_throws (l_handler l) ->
  exists (error : Thrown) (before tail : list Effect),
    let exception :=
      final_exception P error event (l_maxRetries l) (l_baseDelay l)
        (l_maxDelay l) in
    let w := world_after (l_handler l) event (S r) (world st) in
    effects (snd (handleEvent P this l event st))
    = (effects st ++ before ++ tail)%list
    /\ handler_invocations before = (r + 1)%nat
    /\ handler_invocations tail = O
    /\ onError_calls before = []
    /\ (forall f, l_onError l = Some f ->
          tail = [OnErrorInvoked (ThrownError exception) event]
          /\ fst (handleEvent P this l event st)
             = fst (f (ThrownError exception) event w)
          /\ world (snd (handleEvent P this l event st))
             = snd (f (ThrownError exception) event w))
    /\ (l_onError l = None ->
        onError_calls tail = []
        /\ fst (handleEvent P this l event st) = Normal tt
        /\ world (snd (handleEvent P this l event st)) = w)
    /\ fst (l_handler l event
              (world_after (l_handler l) event r (world st)))
       = Abrupt error
    /\ class exception = GenericException
    /\ statusCode exception = Some 500
    /\ message exception
       = JSString
           ("Failed to handle event: " +:+ ToString (get event "type")
            +:+ " from " +:+ ToString (get event "source"))
    /\ (instanceof_Error error = true ->
        truthy (thrown_stack error) = true ->
        stack exception = thrown_stack error).
Proof.
  intros Hmax Hthrows.
  unfold handleEvent, _processEvent, try_catch, bind, perform. simpl.
  rewrite Hmax.
  replace (Z.to_nat (Z.of_nat r + 1)) with (S r) by lia.
  match goal with
  | |- context [retry_loop _ _ _ _ _ _ _ _ (S r) 0 ?s] =>
      destruct (retry_loop_exhausts this (l_handler l) event (Z.of_nat r)
                  (l_baseDelay l) (l_maxDelay l) (l_useJitter l) Hthrows
                  (S r) 0 s ltac:(lia) ltac:(lia))
        as (error & before & st' & Hrun & Heff & Hwst & Hinv & Herr & Hw)
  end.
  rewrite Hrun. simpl in Heff. simpl in Hw. simpl in Hwst.
  assert (Hexc :
    class (final_exception P error event (Z.of_nat r) (l_baseDelay l)
             (l_maxDelay l)) = GenericException
    /\ statusCode (final_exception P error event (Z.of_nat r)
                     (l_baseDelay l) (l_maxDelay l)) = Some 500
    /\ message (final_exception P error event (Z.of_nat r)
                  (l_baseDelay l) (l_maxDelay l))
       = JSString
           ("Failed to handle event: " +:+ ToString (get event "type")
            +:+ " from " +:+ ToString (get event "source"))
    /\ (instanceof_Error error = true ->
        truthy (thrown_stack error) = true ->
        stack (final_exception P error event (Z.of_nat r) (l_baseDelay l)
                 (l_maxDelay l)) = thrown_stack error)).
  { unfold final_exception.
    destruct (instanceof_Error error && truthy (thrown_stack error))
      eqn:Hst; simpl; repeat split; try reflexivity.
    intros Hi Ht. rewrite Hi, Ht in Hst. discriminate. }
  exists error, (StartActiveSpan "eventbus.handle" CONSUMER
                   (span_attributes this "process" event) :: before).
  destruct (l_onError l) as [f|] eqn:Hon.
  - exists [OnErrorInvoked
              (ThrownError
                 (final_exception P error event (Z.of_nat r) (l_baseDelay l)
                    (l_maxDelay l)))
              event].
    unfold call_out, bind, perform, ret. simpl. rewrite Heff, Hwst.
    destruct (f _ event _) as [res w1] eqn:Hf. simpl.
    split; [rewrite <- !app_assoc; reflexivity|].
    split; [rewrite Hinv; lia|]. split; [reflexivity|].
    split; [exact Herr|].
    split; [intros f0 Hf0; injection Hf0 as <-; rewrite Hf; repeat split|].
    split; [discriminate|]. split; [exact Hw|]. exact Hexc.
  - exists [LoggerCall LevelError "Nimbus"
              (thrown_message
                 (ThrownError
                    (final_exception P error event (Z.of_nat r)
                       (l_baseDelay l) (l_maxDelay l))))
              (Some
                 (ThrownError
                    (final_exception P error event (Z.of_nat r)
                       (l_baseDelay l) (l_maxDelay l))))].
    unfold perform. simpl. rewrite Heff, Hwst.
    split; [rewrite <- !app_assoc; reflexivity|].
    split; [rewrite Hinv; lia|]. split; [reflexivity|].
    split; [exact Herr|]. split; [discriminate|].
    split; [intros _; repeat split|]. split; [exact Hw|]. exact Hexc.
Qed.

(** C4. An event whose serialization is longer than 65536 bytes makes
    [putEvent] throw a Generic exception with the message "Event size
    exceeds the limit of 64KB" and the details eventType, eventSource,
    eventSizeBytes and maxSizeBytes; the state is left as it was, so no
    handler of any subscription is invoked. *)
Theorem putEvent_rejects_oversize (this : NimbusEventBus) (event : JSValue)
    (st : State W) :
  Z.of_nat (String.length (JSON_stringify P event)) > 65536 ->
  exists e,
    putEvent P this event st = (Abrupt (ThrownError e), st)
    /\ class e = GenericException
    /\ name e = "INTERNAL_SERVER_ERROR"
    /\ statusCode e = Some 500
    /\ message e = JSString "Event size exceeds the limit of 64KB"
    /\ details e
       = JSObject
           [("eventType", get event "type");
            ("eventSource", get event "source");
            ("eventSizeBytes",
             JSNumber (Z.of_nat (String.length (JSON_stringify P event))));
            ("maxSizeBytes", JSNumber 65536)]
    /\ handler_invocations (effects (snd (putEvent P this event st)))
       = handler_invocations (effects st).
Proof.
  intros Hbig.
  assert (Hgt : (Z.of_nat (String.length (JSON_stringify P event))
                 >? 64 * 1024) = true) by (apply Z.gtb_lt; lia).
  unfold putEvent, _validateEventSize, bind, throw. rewrite Hgt.
  eexists. split; [reflexivity|]. simpl. repeat split.
Qed.


End EventBusProperties.

(** ** The event bus: deliveries *)

Section DeliveryProperties.

Import IEEE754.
Import EventBus.
Import Observed.

Context {W : Type}.
Variable P : Platform.

Ltac run_delivery :=
  unfold _handleFinalFailure, _recordDeliveryMetrics, _calculateRetryDelay,
    call_if_set, attempt_of, call_handler, platform_read, try_finally,
    try_catch, bind, perform, throw, ret, call_out;
  simpl.

Lemma attempts_and_timers_app (l1 l2 : list Effect) :
  attempts_and_timers (l1 ++ l2)
  = (attempts_and_timers l1 ++ attempts_and_timers l2)%list.
Proof.
  induction l1 as [|e l1 IH]; [reflexivity|].
  destruct e; simpl; rewrite IH; reflexivity.
Qed.

Lemma alternating_length (n : nat) :
  length (alternating n) = (2 * n + 1)%nat.
Proof. induction n as [|n IH]; simpl; [reflexivity|rewrite IH; lia]. Qed.

(** What one run of the retry loop leaves behind, for any handler: at
    least one and at most [fuel] invocations, a timer between every two
    consecutive invocations and nowhere else, one delivery counted, the
    span ended once. *)
Lemma retry_loop_shape (this : NimbusEventBus) (h : Handler W)
    (event : JSValue) (maxRetries baseDelay maxDelay : Z)
    (useJitter : bool) :
  forall (fuel : nat) (attempt : Z) (st : State W),
    (1 <= fuel)%nat ->
    Z.of_nat fuel = maxRetries + 1 - attempt ->
    exists (new : list Effect),
      effects (snd (retry_loop P this h event maxRetries baseDelay maxDelay
                      useJitter fuel attempt st))
      = (effects st ++ new)%list
      /\ (1 <= handler_invocations new <= fuel)%nat
      /\ handler_arguments new = repeat event (handler_invocations new)
      /\ attempts_and_timers new
         = alternating (handler_invocations new - 1)
      /\ onError_calls new = []
      /\ count_if is_span_start new = 0%nat
      /\ count_if is_span_end new = 1%nat
      /\ ((fst (retry_loop P this h event maxRetries baseDelay maxDelay
                  useJitter fuel attempt st) = Normal tt
           /\ count_if (is_delivered "success") new = 1%nat
           /\ count_if (is_delivered "error") new = 0%nat)
          \/ ((exists error,
                  fst (retry_loop P this h event maxRetries baseDelay
                         maxDelay useJitter fuel attempt st)
                  = Abrupt (ThrownError
                              (final_exception P error event maxRetries
                                 baseDelay maxDelay)))
              /\ handler_invocations new = fuel
              /\ count_if (is_delivered "success") new = 0%nat
              /\ count_if (is_delivered "error") new = 1%nat)).
Proof.
  induction fuel as [|fuel IH]; intros attempt st Hpos Hfuel; [lia|].
  cbn [retry_loop].
  assert (Hle : (attempt <=? maxRetries) = true) by (apply Z.leb_le; lia).
  rewrite Hle. run_delivery.
  destruct (h event (world st)) as [[v|error0] w'].
  - simpl. eexists. split; [rewrite <- !app_assoc; simpl; reflexivity|].
    simpl. split; [lia|]. repeat (split; [reflexivity|]).
    left. repeat split; reflexivity.
  - destruct (attempt + 1 >? maxRetries) eqn:Hgt.
    + apply Z.gtb_lt in Hgt. assert (fuel = O) by lia. subst fuel. simpl.
      eexists. split; [rewrite <- !app_assoc; simpl; reflexivity|].
      simpl. split; [lia|]. repeat (split; [reflexivity|]).
      right. split; [eexists; reflexivity|]. repeat split; reflexivity.
    + assert (Hlt : attempt + 1 <= maxRetries).
      { destruct (Z.gtb_spec (attempt + 1) maxRetries); [discriminate|lia]. }
      simpl.
      destruct useJitter; simpl;
        match goal with
        | |- context [retry_loop _ _ _ _ _ _ _ _ fuel (attempt + 1) ?s] =>
            destruct (IH (attempt + 1) s ltac:(lia) ltac:(lia))
              as (new & Heff & Hinv & Hargs & Htim & Herr & Hstart & Hend
                  & Hres)
        end;
        simpl in Heff; rewrite Heff;
        eexists; (split; [rewrite <- !app_assoc; simpl; reflexivity|]);
        simpl; rewrite Hargs, Htim, Herr;
        unfold count_if in *; simpl; fold (count_if is_span_start new);
        (split; [lia|]); (split; [reflexivity|]);
        (split;
         [destruct (handler_invocations new) as [|k]; [lia|];
          simpl; rewrite Nat.sub_0_r; reflexivity|]);
        (split; [reflexivity|]); (split; [exact Hstart|]);
        (split; [exact Hend|]);
        (destruct Hres as [(Hr & Hs & He)|(Hr & Hn & Hs & He)];
         [left; repeat split; assumption
         |right; split; [exact Hr|]; split; [lia|]; split; assumption]).
Qed.

(** One delivery, for any handler and a retry limit given as a natural
    number.  The delivery fails only when [onError] is called and
    throws. *)
Lemma handleEvent_shape (this : NimbusEventBus) (l : Listener)
    (event : JSValue) (r : nat) (st : State W) :
  l_maxRetries l = Z.of_nat r ->
  exists new,
    effects (snd (handleEvent P this l event st))
    = (effects st ++ new)%list
    /\ (1 <= handler_invocations new <= r + 1)%nat
    /\ handler_arguments new = repeat event (handler_invocations new)
    /\ attempts_and_timers new = alternating (handler_invocations new - 1)
    /\ (length (onError_calls new) <= 1)%nat
    /\ count_if is_span_start new = 1%nat
    /\ count_if is_span_end new = 1%nat
    /\ (count_if (is_delivered "success") new
        + count_if (is_delivered "error") new = 1)%nat
    /\ (count_if (is_delivered "success") new = 1%nat ->
        onError_calls new = []
        /\ fst (handleEvent P this l event st) = Normal tt)
    /\ (l_onError l = None -> fst (handleEvent P this l event st) = Normal tt)
    /\ (forall t, fst (handleEvent P this l event st) = Abrupt t ->
        exists f error w,
          l_onError l = Some f
          /\ onError_calls new = [(error, event)]
          /\ fst (f error event w) = Abrupt t).
Proof.
  intros Hmax.
  unfold handleEvent, _processEvent, try_catch, bind, perform. simpl.
  rewrite Hmax.
  replace (Z.to_nat (Z.of_nat r + 1)) with (S r) by lia.
  match goal with
  | |- context [retry_loop _ _ _ _ _ _ _ _ (S r) 0 ?s] =>
      destruct (retry_loop_shape this (l_handler l) event (Z.of_nat r)
                  (l_baseDelay l) (l_maxDelay l) (l_useJitter l)
                  (S r) 0 s ltac:(lia) ltac:(lia))
        as (new & Heff & Hinv & Hargs & Htim & Herr & Hstart & Hend & Hres);
      destruct (retry_loop P this (l_handler l) event (Z.of_nat r)
                  (l_baseDelay l) (l_maxDelay l) (l_useJitter l) (S r) 0 s)
        as [res st'] eqn:Hrun
  end.
  simpl in Heff, Hres.
  destruct Hres as [(Hr & Hs & He)|((error & Hr) & Hn & Hs & He)]; subst res.
  - exists (StartActiveSpan "eventbus.handle" CONSUMER
              (span_attributes this "process" event) :: new).
    simpl. rewrite Heff, <- app_assoc. simpl.
    unfold count_if in *. simpl. rewrite Hargs, Htim, Herr.
    split; [reflexivity|]. split; [lia|]. split; [reflexivity|].
    split; [reflexivity|]. split; [simpl; lia|].
    split; [first [assumption | lia]|].
    split; [first [assumption | lia]|]. split; [lia|].
    split; [intros _; split; reflexivity|].
    split; [intros _; reflexivity|]. intros t Ht. discriminate Ht.
  - assert (Hshape :
              forall tail : Effect,
                handler_invocations [tail] = O ->
                handler_arguments [tail] = [] ->
                attempts_and_timers [tail] = [] ->
                count_if is_span_start [tail] = O ->
                count_if is_span_end [tail] = O ->
                count_if (is_delivered "success") [tail] = O ->
                count_if (is_delivered "error") [tail] = O ->
                let all :=
                  (StartActiveSpan "eventbus.handle" CONSUMER
                     (span_attributes this "process" event) :: new ++ [tail])
                in
                (1 <= handler_invocations all <= r + 1)%nat
                /\ handler_arguments all
                   = repeat event (handler_invocations all)
                /\ attempts_and_timers all
                   = alternating (handler_invocations all - 1)
                /\ onError_calls all = onError_calls [tail]
                /\ count_if is_span_start all = 1%nat
                /\ count_if is_span_end all = 1%nat
                /\ (count_if (is_delivered "success") all
                    + count_if (is_delivered "error") all = 1)%nat
                /\ count_if (is_delivered "success") all = 0%nat).
    { intros tail H1 H2 H3 H5 H6 H7 H8 all. subst all.
      rewrite !count_if_cons, !count_if_app. simpl.
      rewrite handler_invocations_app, handler_arguments_app,
        attempts_and_timers_app, onError_calls_app, Herr, H1, H2, H3, H5, H6,
        H7, H8, Hs, He, Hstart, Hend.
      rewrite ?app_nil_r, ?Nat.add_0_r. simpl. rewrite Hargs, Htim.
      repeat split; try reflexivity; try lia. }
    destruct (l_onError l) as [f|]; unfold call_out, bind, perform, ret;
      simpl; rewrite Heff.
    + destruct (f _ event (world st')) as [res w1] eqn:Hf. simpl.
      match goal with
      | |- context [((_ ++ new) ++ [?tail])%list] =>
          exists (StartActiveSpan "eventbus.handle" CONSUMER
                    (span_attributes this "process" event) :: new ++ [tail]);
          destruct (Hshape tail) as (G1 & G2 & G3 & G4 & G5 & G6 & G7 & G8);
          try reflexivity
      end.
      split; [rewrite <- !app_assoc; simpl; reflexivity|].
      split; [exact G1|]. split; [exact G2|]. split; [exact G3|].
      split; [rewrite G4; simpl; lia|]. split; [exact G5|].
      split; [exact G6|]. split; [exact G7|].
      split; [intros Hone; rewrite G8 in Hone; discriminate Hone|].
      split; [discriminate|].
      intros t Ht. subst res. eexists. eexists. eexists.
      split; [reflexivity|]. split; [rewrite G4; reflexivity|].
      rewrite Hf. reflexivity.
    + match goal with
      | |- context [((_ ++ new) ++ [?tail])%list] =>
          exists (StartActiveSpan "eventbus.handle" CONSUMER
                    (span_attributes this "process" event) :: new ++ [tail]);
          destruct (Hshape tail) as (G1 & G2 & G3 & G4 & G5 & G6 & G7 & G8);
          try reflexivity
      end.
      split; [rewrite <- !app_assoc; simpl; reflexivity|].
      split; [exact G1|]. split; [exact G2|]. split; [exact G3|].
      split; [rewrite G4; simpl; lia|]. split; [exact G5|].
      split; [exact G6|]. split; [exact G7|].
      split; [intros Hone; rewrite G8 in Hone; discriminate Hone|].
      split; [intros _; reflexivity|].
      intros t Ht. discriminate Ht.
Qed.

(** The loop on a handler that fails [n] times and then resolves. *)
Lemma retry_loop_recovers (this : NimbusEventBus) (h : Handler W)
    (event : JSValue) (maxRetries baseDelay maxDelay : Z)
    (useJitter : bool) :
  forall (n fuel : nat) (attempt : Z) (st : State W),
    (n < fuel)%nat ->
    Z.of_nat fuel = maxRetries + 1 - attempt ->
    fails_then_resolves h event (world st) n ->
    exists (new : list Effect) (st' : State W),
      retry_loop P this h event maxRetries baseDelay maxDelay useJitter
        fuel attempt st
      = (Normal tt, st')
      /\ effects st' = (effects st ++ new)%list
      /\ world st' = world_after h event (S n) (world st)
      /\ handler_invocations new = S n
      /\ handler_arguments new = repeat event (S n)
      /\ attempts_and_timers new = alternating n
      /\ onError_calls new = []
      /\ count_if (is_delivered "success") new = 1%nat
      /\ count_if (is_delivered "error") new = 0%nat
      /\ length (timer_delays new) = n
      /\ (useJitter = false ->
          timer_delays new
          = List.map
              (fun i =>
                 add (capped_delay (attempt + Z.of_nat i) baseDelay maxDelay)
                   (of_Z 0))
              (seq 1 n)).
Proof.
  induction n as [|n IH]; intros fuel attempt st Hn Hfuel [Hfail Hok].
  - destruct fuel as [|fuel]; [lia|]. cbn [retry_loop].
    assert (Hle : (attempt <=? maxRetries) = true) by (apply Z.leb_le; lia).
    rewrite Hle. run_delivery.
    destruct Hok as [v Hv]. simpl in Hv.
    destruct (h event (world st)) as [res w'] eqn:Hh. simpl in Hv. subst res.
    simpl. eexists. eexists. split; [reflexivity|]. simpl.
    split; [rewrite <- !app_assoc; simpl; reflexivity|].
    split; [simpl; rewrite ?Hh; reflexivity|].
    simpl. repeat (split; [reflexivity|]). intros _. reflexivity.
  - destruct fuel as [|fuel]; [lia|]. cbn [retry_loop].
    assert (Hle : (attempt <=? maxRetries) = true) by (apply Z.leb_le; lia).
    assert (Hgt : (attempt + 1 >? maxRetries) = false).
    { destruct (Z.gtb_spec (attempt + 1) maxRetries); [lia|reflexivity]. }
    rewrite Hle. run_delivery.
    destruct (Hfail O ltac:(lia)) as [error0 He0]. simpl in He0.
    destruct (h event (world st)) as [res w'] eqn:Hh. simpl in He0. subst res.
    rewrite Hgt. simpl.
    assert (Hnext : fails_then_resolves h event w' n).
    { split.
      - intros i Hi. destruct (Hfail (S i) ltac:(lia)) as [e He].
        simpl in He. rewrite Hh in He. eauto.
      - destruct Hok as [v Hv]. simpl in Hv. rewrite Hh in Hv. eauto. }
    destruct useJitter; simpl;
      match goal with
      | |- context [retry_loop _ _ _ _ _ _ _ _ fuel (attempt + 1) ?s] =>
          destruct (IH fuel (attempt + 1) s ltac:(lia) ltac:(lia) Hnext)
            as (new & st' & Hrun & Heff & Hworld & Hinv & Hargs & Halt & Herr
                & Hs & He & Hlen & Hdelays)
      end;
      rewrite Hrun; simpl in Heff, Hworld;
      eexists; exists st'; (split; [reflexivity|]);
      (split; [rewrite Heff, <- !app_assoc; simpl; reflexivity|]);
      (split; [rewrite Hworld; simpl; rewrite ?Hh; reflexivity|]);
      simpl; rewrite Hinv, Hargs, Halt, Herr, Hlen;
      unfold count_if in *; simpl;
      repeat (split; [first [reflexivity | assumption]|]).
    + discriminate.
    + intros _. specialize (Hdelays eq_refl). rewrite Hdelays.
      f_equal.
      rewrite <- (seq_shift n 1), List.map_map.
      apply List.map_ext. intros i. do 2 f_equal. lia.
Qed.

(** X6. One delivery to a subscription whose retry limit [r] is not
    negative, for any handler: the handler is invoked, on the event, at
    least once and at most [r + 1] times; a timer is started between
    every two consecutive invocations and at no other time; [onError] is
    called at most once, and not after a success; one span is opened and
    ended; the delivery is counted exactly once, as a success or as an
    error; and the delivery itself fails only when [onError] is called
    and throws, and then with what [onError] threw. *)
Theorem delivery_shape (this : NimbusEventBus) (l : Listener)
    (event : JSValue) (st : State W) :
  0 <= l_maxRetries l ->
  exists new,
    effects (snd (handleEvent P this l event st))
    = (effects st ++ new)%list
    /\ 1 <= Z.of_nat (handler_invocations new) <= l_maxRetries l + 1
    /\ handler_arguments new = repeat event (handler_invocations new)
    /\ attempts_and_timers new = alternating (handler_invocations new - 1)
    /\ (length (onError_calls new) <= 1)%nat
    /\ count_if is_span_start new = 1%nat
    /\ count_if is_span_end new = 1%nat
    /\ (count_if (is_delivered "success") new
        + count_if (is_delivered "error") new = 1)%nat
    /\ (count_if (is_delivered "success") new = 1%nat ->
        onError_calls new = []
        /\ fst (handleEvent P this l event st) = Normal tt)
    /\ (l_onError l = None -> fst (handleEvent P this l event st) = Normal tt)
    /\ (forall t, fst (handleEvent P this l event st) = Abrupt t ->
        exists f error w,
          l_onError l = Some f
          /\ onError_calls new = [(error, event)]
          /\ fst (f error event w) = Abrupt t).
Proof.
  intros Hmax.
  destruct (handleEvent_shape this l event (Z.to_nat (l_maxRetries l)) st
              ltac:(lia))
    as (new & Heff & Hinv & Hrest).
  exists new. split; [exact Heff|].
  split; [lia|exact Hrest].
Qed.

(** One delivery to a handler that fails a number of times and then
    resolves. *)
Lemma handleEvent_recovers (this : NimbusEventBus) (l : Listener)
    (event : JSValue) (r n : nat) (st : State W) :
  l_maxRetries l = Z.of_nat r ->
  (n <= r)%nat ->
  fails_then_resolves (l_handler l) event (world st) n ->
  exists new,
    fst (handleEvent P this l event st) = Normal tt
    /\ effects (snd (handleEvent P this l event st))
       = (effects st ++ new)%list
    /\ world (snd (handleEvent P this l event st))
       = world_after (l_handler l) event (S n) (world st)
    /\ handler_invocations new = S n
    /\ handler_arguments new = repeat event (S n)
    /\ attempts_and_timers new = alternating n
    /\ onError_calls new = []
    /\ count_if (is_delivered "success") new = 1%nat
    /\ count_if (is_delivered "error") new = 0%nat
    /\ length (timer_delays new) = n
    /\ (l_useJitter l = false ->
        timer_delays new
        = List.map
            (fun i =>
               add (capped_delay (Z.of_nat i) (l_baseDelay l) (l_maxDelay l))
                 (of_Z 0))
            (seq 1 n)).
Proof.
  intros Hmax Hn Hhandler.
  unfold handleEvent, _processEvent, try_catch, bind, perform. simpl.
  rewrite Hmax.
  replace (Z.to_nat (Z.of_nat r + 1)) with (S r) by lia.
  match goal with
  | |- context [retry_loop _ _ _ _ _ _ _ _ (S r) 0 ?s] =>
      destruct (retry_loop_recovers this (l_handler l) event (Z.of_nat r)
                  (l_baseDelay l) (l_maxDelay l) (l_useJitter l)
                  n (S r) 0 s ltac:(lia) ltac:(lia) Hhandler)
        as (new & st' & Hrun & Heff & Hworld & Hinv & Hargs & Halt & Herr
            & Hs & He & Hlen & Hdelays)
  end.
  rewrite Hrun. simpl in Heff, Hworld. simpl.
  exists (StartActiveSpan "eventbus.handle" CONSUMER
            (span_attributes this "process" event) :: new).
  split; [reflexivity|].
  split; [rewrite Heff, <- app_assoc; reflexivity|].
  split; [exact Hworld|].
  rewrite !count_if_cons. simpl.
  split; [exact Hinv|]. split; [exact Hargs|].
  repeat (split; [assumption|]).
  intros Hj. specialize (Hdelays Hj). rewrite Hdelays.
  apply List.map_ext. intros i. reflexivity.
Qed.

(** X7. A handler that fails [n] times and then resolves, with
    [n <= maxRetries]: the handler is invoked exactly [n + 1] times with
    a timer between every two consecutive invocations, [onError] is not
    called, the delivery is counted once, as a success, and ends
    normally.  Without jitter, and for a base delay and a cap that are
    integers from 0 to [2^53] with a positive base delay or [n <= 1024],
    the delays of the [n] timers are [min(baseDelay * 2^(i-1),
    maxDelay)] for [i = 1 .. n], in order. *)
Theorem delivery_recovers (this : NimbusEventBus) (l : Listener)
    (event : JSValue) (n : nat) (st : State W) :
  Z.of_nat n <= l_maxRetries l ->
  fails_then_resolves (l_handler l) event (world st) n ->
  exists new,
    fst (handleEvent P this l event st) = Normal tt
    /\ effects (snd (handleEvent P this l event st))
       = (effects st ++ new)%list
    /\ world (snd (handleEvent P this l event st))
       = world_after (l_handler l) event (S n) (world st)
    /\ handler_invocations new = S n
    /\ attempts_and_timers new = alternating n
    /\ onError_calls new = []
    /\ count_if (is_delivered "success") new = 1%nat
    /\ count_if (is_delivered "error") new = 0%nat
    /\ length (timer_delays new) = n
    /\ (l_useJitter l = false ->
        0 <= l_baseDelay l <= 2 ^ 53 ->
        0 <= l_maxDelay l <= 2 ^ 53 ->
        0 < l_baseDelay l \/ Z.of_nat n <= 1024 ->
        Forall2 has_value (timer_delays new)
          (List.map
             (fun i =>
                backoff (l_baseDelay l) (l_maxDelay l) (Z.of_nat i))
             (seq 1 n))).
Proof.
  intros Hn Hhandler.
  destruct (handleEvent_recovers this l event (Z.to_nat (l_maxRetries l)) n
              st ltac:(lia) ltac:(lia) Hhandler)
    as (new & Hres & Heff & Hworld & Hinv & _ & Halt & Herr & Hs & He & Hlen
        & Hdelays).
  exists new. repeat (split; [assumption|]).
  intros Hj Hb Hm Hnan. rewrite (Hdelays Hj).
  apply Forall2_fmap. apply Forall2_same_length_lookup. split; [reflexivity|].
  intros i x y Hx Hy. rewrite Hx in Hy. injection Hy as <-.
  apply lookup_seq in Hx. destruct Hx as [-> Hi].
  assert (Hpolicy : exact_policy (l_baseDelay l) (l_maxDelay l)
                      (Z.of_nat (1 + i))).
  { split; [lia|]. split; [exact Hb|]. split; [exact Hm|]. lia. }
  destruct (delay_without_jitter P (Z.of_nat (1 + i)) (l_baseDelay l)
              (l_maxDelay l) st Hpolicy) as (s & Hs' & Hv).
  unfold _calculateRetryDelay, ret in Hs'. injection Hs' as Hs'.
  exists s. split; [exact Hs'|exact Hv].
Qed.

(** X8. With a negative retry limit the loop is never entered: the
    handler is not invoked, [onError] is not called, nothing is counted
    as delivered, and the span that was opened is not ended. *)
Theorem delivery_negative_retries (this : NimbusEventBus) (l : Listener)
    (event : JSValue) (st : State W) :
  l_maxRetries l < 0 ->
  handleEvent P this l event st
  = (Normal tt,
     {| world := world st;
        effects :=
          (effects st
           ++ [StartActiveSpan "eventbus.handle" CONSUMER
                 (span_attributes this "process" event)])%list;
        reads := reads st |}).
Proof.
  intros Hneg.
  unfold handleEvent, _processEvent, try_catch, bind, perform. simpl.
  replace (Z.to_nat (l_maxRetries l + 1)) with O by lia.
  simpl.
  assert (Hle : (0 <=? l_maxRetries l) = false)
    by (apply Z.leb_gt; exact Hneg).
  rewrite Hle. reflexivity.
Qed.

(** Every listener is called, and the promise of each is dropped. *)
Lemma call_listeners_normal (this : NimbusEventBus) (event : JSValue)
    (ls : list Listener) :
  forall st : State W, fst (call_listeners P this ls event st) = Normal tt.
Proof.
  induction ls as [|l ls IH]; intros st; [reflexivity|].
  simpl. unfold bind, detach.
  destruct (handleEvent P this l event st) as [c st']. apply IH.
Qed.

(** [putEvent] on an event within the size limit that is neither
    [undefined] nor [null]: the size check and the read of [event.type]
    pass. *)
Lemma putEvent_within_limit (this : NimbusEventBus) (event : JSValue)
    (st : State W) :
  Z.of_nat (String.length (JSON_stringify P event)) <= 65536 ->
  nullish event = false ->
  putEvent P this event st
  = (perform (StartActiveSpan "eventbus.publish" PRODUCER
                (span_attributes this "publish" event)) ;;
     try_finally
       (try_catch
          (perform (CounterAdd "eventbus_events_published_total" 1
                      (metricLabels this event)) ;;
           perform (HistogramRecord "eventbus_event_size_bytes"
                      (SizeBytes
                         (Z.of_nat
                            (String.length (JSON_stringify P event))))
                      (metricLabels this event)) ;;
           call_if_set (_logPublish this) LogPublishInvoked event ;;
           emit P this (ToString (get event "type")) event ;;
           ret tt)
          (fun error =>
             perform (SpanSetStatusError
                        (if instanceof_Error error then thrown_message error
                         else JSString "Unknown error")) ;;
             perform (SpanRecordException
                        (if instanceof_Error error then error
                         else ThrownError
                                (new_Error (captureStackTrace P)
                                   "Unknown error"))) ;;
             throw error))
       (perform SpanEnd))%js st.
Proof.
  intros Hsize Hobj.
  assert (Hgt : (Z.of_nat (String.length (JSON_stringify P event))
                 >? 64 * 1024) = false).
  { destruct (Z.gtb_spec (Z.of_nat (String.length (JSON_stringify P event)))
                (64 * 1024)); [lia|reflexivity]. }
  unfold putEvent, _validateEventSize.
  unfold bind at 1. rewrite Hgt. unfold ret at 1.
  unfold bind at 1. rewrite Hobj. reflexivity.
Qed.

(** [logPublish], when it returns. *)
Lemma logPublish_returns (this : NimbusEventBus) (event : JSValue)
    (st : State W) :
  returns_normally (_logPublish this) event (world st) ->
  call_if_set (_logPublish this) LogPublishInvoked event st
  = (Normal tt,
     {| world := after_callback (_logPublish this) event (world st);
        effects :=
          (effects st
           ++ (if _logPublish this is Some _
               then [LogPublishInvoked event] else []))%list;
        reads := reads st |}).
Proof.
  unfold returns_normally, after_callback, call_if_set, bind, perform,
    call_out, ret.
  destruct (_logPublish this) as [f|]; simpl.
  - destruct (f event (world st)) as [[[]|t] w1]; simpl; intros Hret;
      [reflexivity|discriminate Hret].
  - intros _. rewrite app_nil_r. destruct st; reflexivity.
Qed.

(** [emit] returns normally unless it is the name "error" without a
    listener. *)
Lemma emit_normal (this : NimbusEventBus) (eventName : string)
    (event : JSValue) (st : State W) :
  listeners this eventName <> [] \/ eventName <> "error" ->
  exists b, fst (emit P this eventName event st) = Normal b.
Proof.
  intros Hcase. unfold emit.
  destruct (listeners this eventName) as [|l ls] eqn:Hls.
  - destruct (String.eqb_spec eventName "error") as [Heq|Hne].
    + exfalso. destruct Hcase as [H|H]; [apply H; reflexivity|exact (H Heq)].
    + eexists. reflexivity.
  - remember (l :: ls) as all. unfold bind, ret.
    pose proof (call_listeners_normal this event all st) as Hn.
    destruct (call_listeners P this all event st) as [c s'].
    simpl in Hn. subst c. eexists. reflexivity.
Qed.

(** X9. Publishing an event (an object, within the size limit) on a bus
    whose [logPublish] is not set or returns, to a type that has a
    subscription, returns normally whatever the handlers and the error
    callbacks do: a failure of a subscriber, also after all its retries,
    is not thrown to the publisher.  The same holds without a
    subscription, for every type but "error". *)
Theorem putEvent_hides_subscriber_failures (this : NimbusEventBus)
    (event : JSValue) (st : State W) :
  Z.of_nat (String.length (JSON_stringify P event)) <= 65536 ->
  nullish event = false ->
  returns_normally (_logPublish this) event (world st) ->
  listeners this (ToString (get event "type")) <> []
  \/ ToString (get event "type") <> "error" ->
  fst (putEvent P this event st) = Normal tt.
Proof.
  intros Hsize Hobj Hret Hcase.
  rewrite putEvent_within_limit by assumption.
  remember (emit P this (ToString (get event "type")) event) as E eqn:HE.
  assert (HEn : forall s, exists b, fst (E s) = Normal b).
  { intros s. subst E. apply emit_normal. exact Hcase. }
  clear HE.
  unfold try_finally, try_catch. unfold bind at 1. unfold perform at 1.
  unfold bind at 1. unfold perform at 1.
  unfold bind at 1. unfold perform at 1.
  unfold bind at 1. rewrite logPublish_returns by exact Hret.
  unfold bind, ret, perform.
  match goal with
  | |- context [E ?s] =>
      destruct (HEn s) as [b Hb];
      destruct (E s) as [c s'];
      simpl in Hb; subst c; reflexivity
  end.
Qed.




(** Without a subscription to the type of the event [putEvent] invokes
    no handler, whatever the event and whatever [logPublish] does. *)
Lemma putEvent_no_listener (this : NimbusEventBus) (event : JSValue)
    (st : State W) :
  listeners this (ToString (get event "type")) = [] ->
  handler_invocations (effects (snd (putEvent P this event st)))
  = handler_invocations (effects st).
Proof.
  intros Hls.
  unfold putEvent, _validateEventSize, try_finally, try_catch, call_if_set,
    emit, bind, perform, ret, throw, call_out.
  rewrite Hls.
  destruct (_ >? _); [reflexivity|].
  destruct (nullish event); [reflexivity|]. simpl.
  destruct (_logPublish this) as [f|]; simpl;
    [destruct (f event (world st)) as [[[]|t] w1]; simpl|];
    try (destruct (ToString (get event "type") =? "error")%string; simpl);
    rewrite !handler_invocations_app; simpl; lia.
Qed.



(** X12. An event (an object, within the size limit) whose type has no
    subscription and is not "error", published on a bus whose
    [logPublish] is not set or returns, is published and dropped:
    [putEvent] returns normally, counts the event as published, records
    its size, calls [logPublish] when configured, ends the span, and
    invokes nothing else. *)
Theorem putEvent_without_subscription (this : NimbusEventBus)
    (event : JSValue) (st : State W) :
  Z.of_nat (String.length (JSON_stringify P event)) <= 65536 ->
  nullish event = false ->
  returns_normally (_logPublish this) event (world st) ->
  listeners this (ToString (get event "type")) = [] ->
  ToString (get event "type") <> "error" ->
  putEvent P this event st
  = (Normal tt,
     {| world := after_callback (_logPublish this) event (world st);
        effects :=
          (effects st
           ++ [StartActiveSpan "eventbus.publish" PRODUCER
                 (span_attributes this "publish" event);
               CounterAdd "eventbus_events_published_total" 1
                 (metricLabels this event);
               HistogramRecord "eventbus_event_size_bytes"
                 (SizeBytes
                    (Z.of_nat (String.length (JSON_stringify P event))))
                 (metricLabels this event)]
           ++ (if _logPublish this is Some _
               then [LogPublishInvoked event] else [])
           ++ [SpanEnd])%list;
        reads := reads st |}).
Proof.
  intros Hsize Hobj Hret Hls Hne.
  rewrite putEvent_within_limit by assumption.
  unfold try_finally, try_catch. unfold bind at 1. unfold perform at 1.
  unfold bind at 1. unfold perform at 1.
  unfold bind at 1. unfold perform at 1.
  unfold bind at 1. rewrite logPublish_returns by exact Hret.
  unfold bind, ret, perform, emit, throw.
  rewrite Hls.
  destruct (String.eqb_spec (ToString (get event "type")) "error")
    as [Heq|_]; [contradiction|].
  simpl. rewrite <- !app_assoc. reflexivity.
Qed.

(** X13. [subscribeEvent] adds one subscription at the end of those of
    its type and removes or changes none: the subscriptions to other
    types are as before.  The new subscription takes each retry setting
    from its options when given there, and from the bus otherwise. *)
Theorem subscribeEvent_appends (this this' : NimbusEventBus)
    (input : SubscribeEventInput) (st : State W) :
  fst (subscribeEvent this input st) = Normal this' ->
  listeners this' (type input)
  = (listeners this (type input)
     ++ [{| l_handler := handler input;
            l_onError := onError input;
            l_maxRetries :=
              option_or (options input ≫= opt_maxRetries) (_maxRetries this);
            l_baseDelay :=
              option_or (options input ≫= opt_baseDelay) (_baseDelay this);
            l_maxDelay :=
              option_or (options input ≫= opt_maxDelay) (_maxDelay this);
            l_useJitter :=
              option_or (options input ≫= opt_useJitter) (_useJitter this)
         |}])%list
  /\ (forall T, T <> type input -> listeners this' T = listeners this T)
  /\ _name this' = _name this
  /\ _maxRetries this' = _maxRetries this
  /\ _baseDelay this' = _baseDelay this
  /\ _maxDelay this' = _maxDelay this
  /\ _useJitter this' = _useJitter this.
Proof.
  intros Hsub. unfold subscribeEvent, bind, perform, ret in Hsub.
  simpl in Hsub. injection Hsub as <-.
  unfold listeners. simpl.
  split; [|split; [|repeat split]].
  - rewrite List.filter_app, List.map_app. simpl.
    rewrite String.eqb_refl. reflexivity.
  - intros T HT. rewrite List.filter_app, List.map_app. simpl.
    destruct (String.eqb_spec (type input) T) as [Heq|_];
      [congruence|]. simpl. apply app_nil_r.
Qed.

End DeliveryProperties.

(** ** The message factories *)

Section FactoryProperties.

Import Message.

Context {W : Type}.
Variable P : Platform.

(** C9. A factory input that omits [id], [correlationid], [time] and
    [datacontenttype] yields, from each of [createCommand],
    [createQuery] and [createEvent], a message in which the four fields
    are filled (two generated identifiers, the current time,
    "application/json") and [specversion] is "1.0". *)
Theorem factories_fill_defaults (c : CreateCommandInput)
    (q : CreateQueryInput) (e : CreateEventInput) (st : State W) :
  c_id c = None /\ c_correlationid c = None /\ c_time c = None
    /\ c_datacontenttype c = None ->
  q_id q = None /\ q_correlationid q = None /\ q_time q = None
    /\ q_datacontenttype q = None ->
  e_id e = None /\ e_correlationid e = None /\ e_time e = None
    /\ e_datacontenttype e = None ->
  defaults_filled P st (fst (createCommand P c st))
  /\ defaults_filled P st (fst (createQuery P q st))
  /\ defaults_filled P st (fst (createEvent P e st)).
Proof.
  intros (Hc1 & Hc2 & Hc3 & Hc4) (Hq1 & Hq2 & Hq3 & Hq4)
    (He1 & He2 & He3 & He4).
  unfold defaults_filled, createCommand, createQuery, createEvent.
  rewrite Hc1, Hc2, Hc3, Hc4, Hq1, Hq2, Hq3, Hq4, He1, He2, He3, He4.
  unfold or_ulid, or_now, bind, platform_read, ret. simpl.
  split; [|split]; eexists; (split; [reflexivity|]); simpl;
    repeat split.
  destruct (c_subject c) as [[|a s]|]; reflexivity.
Qed.

End FactoryProperties.

(** ** The message factories *)

Section MoreFactoryProperties.

Import Message.
Import Observed.

Context {W : Type}.
Variable P : Platform.

Ltac run_factory :=
  unfold createCommand, createQuery, createEvent, or_ulid, or_now, bind,
    platform_read, ret.

(** X27. Each factory keeps every field its input gives and reads the
    platform only for those of [id], [correlationid] and [time] that are
    left out, in this order: with all three given it reads nothing, and
    otherwise each generated value is a reading of its own.  [source],
    [type] and [data] are copied, and [datacontenttype] is
    "application/json" unless given. *)
Theorem factories_keep_given_fields (c : CreateCommandInput)
    (q : CreateQueryInput) (e : CreateEventInput) (st : State W) :
  fields_filled P st (c_id c) (c_correlationid c) (c_time c) (c_source c)
    (c_type c) (c_data c) (c_datacontenttype c) (createCommand P c st)
  /\ fields_filled P st (q_id q) (q_correlationid q) (q_time q) (q_source q)
       (q_type q) (q_data q) (q_datacontenttype q) (createQuery P q st)
  /\ fields_filled P st (e_id e) (e_correlationid e) (e_time e) (e_source e)
       (e_type e) (e_data e) (e_datacontenttype e) (createEvent P e st).
Proof.
  unfold fields_filled. run_factory. destruct st as [w0 eff0 rd0].
  unfold platform_read; simpl.
  split; [|split].
  - destruct (c_id c), (c_correlationid c), (c_time c); simpl;
      eexists; (split; [apply f_equal2; [reflexivity|f_equal; lia]|]);
      simpl; rewrite ?Nat.add_0_r, ?Nat.add_1_r; destruct (c_subject c) as [[|? ?]|];
      repeat split; reflexivity.
  - destruct (q_id q), (q_correlationid q), (q_time q); simpl;
      eexists; (split; [apply f_equal2; [reflexivity|f_equal; lia]|]);
      simpl; rewrite ?Nat.add_0_r, ?Nat.add_1_r; repeat split; reflexivity.
  - destruct (e_id e), (e_correlationid e), (e_time e); simpl;
      eexists; (split; [apply f_equal2; [reflexivity|f_equal; lia]|]);
      simpl; rewrite ?Nat.add_0_r, ?Nat.add_1_r; repeat split; reflexivity.
Qed.

Lemma createCommand_result (c : CreateCommandInput) (st : State W) :
  exists id correlationid time,
    fst (createCommand P c st)
    = Normal
        (JSObject
           ([("specversion", JSString "1.0");
             ("id", JSString id);
             ("correlationid", JSString correlationid);
             ("time", JSString time);
             ("source", JSString (c_source c));
             ("type", JSString (c_type c))]
            ++ spread_if (of_optional (c_subject c))
                 "subject" (of_optional (c_subject c))
            ++ [("data", c_data c);
                ("datacontenttype",
                 JSString (option_or (c_datacontenttype c)
                             "application/json"))]
            ++ spread_if (of_optional (c_dataschema c))
                 "dataschema" (of_optional (c_dataschema c)))%list).
Proof.
  run_factory.
  destruct (c_id c), (c_correlationid c), (c_time c); simpl;
    eexists; eexists; eexists; reflexivity.
Qed.

Lemma createQuery_result (q : CreateQueryInput) (st : State W) :
  exists id correlationid time,
    fst (createQuery P q st)
    = Normal
        (JSObject
           ([("specversion", JSString "1.0");
             ("id", JSString id);
             ("correlationid", JSString correlationid);
             ("time", JSString time);
             ("source", JSString (q_source q));
             ("type", JSString (q_type q));
             ("data", q_data q);
             ("datacontenttype",
              JSString (option_or (q_datacontenttype q)
                          "application/json"))]
            ++ spread_if (of_optional (q_dataschema q))
                 "dataschema" (of_optional (q_dataschema q)))%list).
Proof.
  run_factory.
  destruct (q_id q), (q_correlationid q), (q_time q); simpl;
    eexists; eexists; eexists; reflexivity.
Qed.

Lemma createEvent_result (e : CreateEventInput) (st : State W) :
  exists id correlationid time,
    fst (createEvent P e st)
    = Normal
        (JSObject
           ([("specversion", JSString "1.0");
             ("id", JSString id);
             ("correlationid", JSString correlationid);
             ("time", JSString time);
             ("source", JSString (e_source e));
             ("type", JSString (e_type e));
             ("subject", JSString (e_subject e));
             ("data", e_data e);
             ("datacontenttype",
              JSString (option_or (e_datacontenttype e)
                          "application/json"))]
            ++ spread_if (of_optional (e_dataschema e))
                 "dataschema" (of_optional (e_dataschema e)))%list).
Proof.
  run_factory.
  destruct (e_id e), (e_correlationid e), (e_time e); simpl;
    eexists; eexists; eexists; reflexivity.
Qed.

(** X28. The optional members.  [createCommand] gives its message a
    [subject] exactly when the input has a non-empty one, [createQuery]
    never gives one, and [createEvent] always copies the subject of its
    input, empty or not.  All three give the message a [dataschema]
    exactly when the input has a non-empty one. *)
Theorem factories_optional_members (c : CreateCommandInput)
    (q : CreateQueryInput) (e : CreateEventInput) (st : State W) :
  exists mc mq me,
    fst (createCommand P c st) = Normal mc
    /\ fst (createQuery P q st) = Normal mq
    /\ fst (createEvent P e st) = Normal me
    /\ has_own mc "subject" = truthy (of_optional (c_subject c))
    /\ get mc "subject"
       = (if truthy (of_optional (c_subject c))
          then of_optional (c_subject c) else JSUndefined)
    /\ has_own mq "subject" = false
    /\ get me "subject" = JSString (e_subject e)
    /\ has_own mc "dataschema" = truthy (of_optional (c_dataschema c))
    /\ has_own mq "dataschema" = truthy (of_optional (q_dataschema q))
    /\ has_own me "dataschema" = truthy (of_optional (e_dataschema e))
    /\ get mc "dataschema"
       = (if truthy (of_optional (c_dataschema c))
          then of_optional (c_dataschema c) else JSUndefined).
Proof.
  destruct (createCommand_result c st) as (i1 & c1 & t1 & Hc).
  destruct (createQuery_result q st) as (i2 & c2 & t2 & Hq).
  destruct (createEvent_result e st) as (i3 & c3 & t3 & He).
  eexists. eexists. eexists.
  split; [exact Hc|]. split; [exact Hq|]. split; [exact He|].
  split; [|split; [|split; [|split; [|split; [|split; [|split]]]]]].
  - destruct (c_subject c) as [[|? ?]|];
      destruct (c_dataschema c) as [[|? ?]|]; reflexivity.
  - destruct (c_subject c) as [[|? ?]|];
      destruct (c_dataschema c) as [[|? ?]|]; reflexivity.
  - destruct (q_dataschema q) as [[|? ?]|]; reflexivity.
  - reflexivity.
  - destruct (c_subject c) as [[|? ?]|];
      destruct (c_dataschema c) as [[|? ?]|]; reflexivity.
  - destruct (q_dataschema q) as [[|? ?]|]; reflexivity.
  - destruct (e_dataschema e) as [[|? ?]|]; reflexivity.
  - destruct (c_subject c) as [[|? ?]|];
      destruct (c_dataschema c) as [[|? ?]|]; reflexivity.
Qed.

End MoreFactoryProperties.

(** ** The registries of named routers and event buses *)

Section RegistryLemmas.

Import Registries.

Context {Instance Options : Type}.
Variable construct : option Options -> string -> Instance.

Lemma well_formed_empty : well_formed (@empty_registry Instance).
Proof.
  split.
  - intros n a H. simpl in H. rewrite lookup_empty in H. discriminate.
  - intros n1 n2 a H. simpl in H. rewrite lookup_empty in H. discriminate.
Qed.

Lemma well_formed_allocate (i : Instance) (key : string)
    (s : Registry Instance) :
  well_formed s -> well_formed (snd (allocate i key s)).
Proof.
  intros [Hbound Hinj]. split; simpl.
  - intros n a. rewrite length_app. simpl.
    destruct (decide (key = n)) as [<-|Hne].
    + rewrite lookup_insert_eq. intros [= <-]. lia.
    + rewrite lookup_insert_ne by exact Hne. intros H.
      apply Hbound in H. lia.
  - intros n1 n2 a.
    destruct (decide (key = n1)) as [<-|Hne1];
      destruct (decide (key = n2)) as [<-|Hne2];
      rewrite ?lookup_insert_eq, ?lookup_insert_ne by assumption.
    + reflexivity.
    + intros [= <-] H. apply Hbound in H. lia.
    + intros H [= <-]. apply Hbound in H. lia.
    + apply Hinj.
Qed.

Lemma well_formed_assign (a : nat) (i : Instance) (s : Registry Instance) :
  well_formed s -> well_formed (assign a i s).
Proof.
  intros [Hbound Hinj]. split; simpl.
  - intros n b H. rewrite length_insert. eapply Hbound. exact H.
  - exact Hinj.
Qed.

Lemma well_formed_get (key : string) (s : Registry Instance) :
  well_formed s -> well_formed (snd (get_or_create construct key s)).
Proof.
  intros Hwf. unfold get_or_create.
  destruct (by_name s !! key); [exact Hwf|].
  apply well_formed_allocate. exact Hwf.
Qed.

(** After [get(name)] the key is bound to the address returned, and the
    address holds an object. *)
Lemma get_or_create_bound (key : string) (s : Registry Instance) :
  well_formed s ->
  by_name (snd (get_or_create construct key s)) !! key
  = Some (fst (get_or_create construct key s))
  /\ (fst (get_or_create construct key s)
      < length (objects (snd (get_or_create construct key s))))%nat.
Proof.
  intros [Hbound _]. unfold get_or_create.
  destruct (by_name s !! key) as [a|] eqn:Hn; simpl.
  - split; [exact Hn|]. eapply Hbound. exact Hn.
  - rewrite lookup_insert_eq, length_app. simpl. split; [reflexivity|lia].
Qed.

(** A second [get(name)] finds the object of the first. *)
Lemma get_or_create_again (key : string) (s : Registry Instance) :
  get_or_create construct key (snd (get_or_create construct key s))
  = (fst (get_or_create construct key s),
     snd (get_or_create construct key s)).
Proof.
  unfold get_or_create at 2 3 4.
  destruct (by_name s !! key) as [a|] eqn:Hn; simpl.
  - unfold get_or_create. rewrite Hn. reflexivity.
  - unfold get_or_create. simpl. rewrite lookup_insert_eq. reflexivity.
Qed.

(** Creating an object leaves the objects of the store where they are. *)
Lemma deref_allocate_old (i : Instance) (key : string)
    (s : Registry Instance) (a : nat) (o : Instance) :
  deref s a = Some o -> deref (snd (allocate i key s)) a = Some o.
Proof.
  unfold deref. simpl. intros H. apply lookup_app_l_Some. exact H.
Qed.

Lemma deref_allocate_new (i : Instance) (key : string)
    (s : Registry Instance) :
  deref (snd (allocate i key s)) (fst (allocate i key s)) = Some i.
Proof.
  unfold deref. simpl. rewrite lookup_app_r by lia.
  rewrite Nat.sub_diag. reflexivity.
Qed.

End RegistryLemmas.

Section RouterRegistryProperties.

Import Registries.
Import MessageRouting.

Context {W : Type}.
Variable P : Platform.

(** X16. [getRouter] hands out one instance per name: a second call
    returns the instance of the first and creates nothing, and a handler
    registered on the instance obtained by one call is in the registry of
    the instance a later call returns. *)
Theorem getRouter_shares_registrations (key : option string)
    (s : RouterRegistry (W := W)) (T : string) (h : Handler W)
    (sch : ZodSchema) (st : State W) :
  well_formed s ->
  getRouter key (snd (getRouter key s))
  = (fst (getRouter key s), snd (getRouter key s))
  /\ exists s2 r,
       fst (register_at (fst (getRouter key s)) T h sch
              (snd (getRouter key s)) st)
       = Normal s2
       /\ getRouter key s2 = (fst (getRouter key s), s2)
       /\ deref s2 (fst (getRouter key s)) = Some r
       /\ _handlers r !! T = Some {| handler := h; schema := sch |}.
Proof.
  intros Hwf. unfold getRouter, RouterRegistry in *.
  split; [apply get_or_create_again|].
  destruct (get_or_create_bound construct_router (option_or key "default") s
              Hwf) as [Hbind Hlt].
  set (a := fst (get_or_create construct_router (option_or key "default") s))
    in *.
  set (s1 := snd (get_or_create construct_router (option_or key "default") s))
    in *.
  destruct (lookup_lt_is_Some_2 (objects s1) a Hlt) as [r0 Hr0].
  unfold register_at, deref. rewrite Hr0.
  unfold bind, ret, register, perform. simpl.
  eexists. eexists. split; [reflexivity|]. split; [|split].
  - unfold get_or_create. simpl. rewrite Hbind. reflexivity.
  - unfold deref, assign. simpl.
    apply list_lookup_insert_eq. exact Hlt.
  - simpl. apply lookup_insert_eq.
Qed.

(** X17. [setupRouter] binds the name to a new instance with the given
    hooks and no handler.  What was registered on the instance the name
    was bound to before is not routed through the name any more (an input
    of any type, on which the [logInput] of the options is absent or
    returns, is rejected with NotFound), while that instance, and every
    other one, stays as it was. *)
Theorem setupRouter_replaces (key : string)
    (options : option MessageRouterOptions) (s : RouterRegistry (W := W))
    (x : JSValue) (T : string) (st : State W) :
  get x "type" = JSString T ->
  T <> EmptyString ->
  returns_normally (options ≫= opt_logInput) x (world st) ->
  exists r,
    getRouter (Some key) (setupRouter key options s)
    = (length (objects s), setupRouter key options s)
    /\ deref (setupRouter key options s) (length (objects s)) = Some r
    /\ _name r = key
    /\ _handlers r = ∅
    /\ _logInput r = options ≫= opt_logInput
    /\ _logOutput r = options ≫= opt_logOutput
    /\ (forall a o, deref s a = Some o ->
                    deref (setupRouter key options s) a = Some o)
    /\ exists e,
         fst (route P r x st) = Abrupt (ThrownError e)
         /\ class e = NotFoundException.
Proof.
  intros Hty Hne Hret. exists (construct_router options key).
  split; [|split; [|split; [|split; [|split; [|split; [|split]]]]]].
  - unfold getRouter, setupRouter, setup, get_or_create. simpl.
    rewrite lookup_insert_eq. reflexivity.
  - apply (deref_allocate_new (construct_router options key) key s).
  - reflexivity.
  - reflexivity.
  - reflexivity.
  - reflexivity.
  - intros a o Ho.
    apply (deref_allocate_old (construct_router options key) key s a o Ho).
  - eexists. split.
    + apply route_lookup_miss;
        [exact Hty|exact Hne|apply lookup_empty|exact Hret].
    + reflexivity.
Qed.

(** X18. Instances of different names are different objects: registering
    a handler on the router of one name leaves the router bound to any
    other name, and that binding, unchanged. *)
Theorem getRouter_names_apart (key : option string) (other : string)
    (s : RouterRegistry (W := W)) (b : nat) (r : MessageRouter)
    (T : string) (h : Handler W) (sch : ZodSchema) (st : State W) :
  well_formed s ->
  option_or key "default" <> other ->
  by_name s !! other = Some b ->
  deref s b = Some r ->
  exists s2,
    fst (register_at (fst (getRouter key s)) T h sch
           (snd (getRouter key s)) st)
    = Normal s2
    /\ fst (getRouter key s) <> b
    /\ getRouter (Some other) s2 = (b, s2)
    /\ deref s2 b = Some r.
Proof.
  intros Hwf Hne Hother Hr. unfold getRouter, RouterRegistry in *.
  pose proof (well_formed_get construct_router (option_or key "default") s
                Hwf) as Hwf1.
  destruct (get_or_create_bound construct_router (option_or key "default") s
              Hwf) as [Hbind Hlt].
  assert (Hother1 :
            by_name
              (snd (get_or_create construct_router
                      (option_or key "default") s))
            !! other = Some b
            /\ deref
                 (snd (get_or_create construct_router
                         (option_or key "default") s)) b = Some r).
  { unfold get_or_create.
    destruct (by_name s !! option_or key "default"); simpl.
    - split; assumption.
    - split; [rewrite lookup_insert_ne by exact Hne; exact Hother|].
      apply (deref_allocate_old _ _ s b r Hr). }
  destruct Hother1 as [Hother1 Hr1].
  set (a := fst (get_or_create construct_router (option_or key "default") s))
    in *.
  set (s1 := snd (get_or_create construct_router (option_or key "default") s))
    in *.
  assert (Hab : a <> b).
  { intros ->. destruct Hwf1 as [_ Hinj].
    apply Hne. eapply Hinj; eassumption. }
  destruct (lookup_lt_is_Some_2 (objects s1) a Hlt) as [r0 Hr0].
  unfold register_at, deref. rewrite Hr0.
  unfold bind, ret, register, perform. simpl.
  eexists. split; [reflexivity|]. split; [exact Hab|]. split.
  - unfold get_or_create. simpl. rewrite Hother1. reflexivity.
  - unfold deref, assign. simpl.
    rewrite list_lookup_insert_ne by exact Hab. exact Hr1.
Qed.

End RouterRegistryProperties.

Section EventBusRegistryProperties.

Import Registries.
Import EventBus.
Import Observed.

Context {W : Type}.
Variable P : Platform.

(** X19. The bus [getEventBus] creates for a name that is not bound yet
    carries the name and the default policy: two retries, a base delay of
    1000 ms, a cap of 30000 ms, jitter on, no [logPublish] and no
    subscription.  [getEventBus()] without a name is
    [getEventBus("default")]. *)
Theorem getEventBus_creates_default (key : option string)
    (s : EventBusRegistry (W := W)) :
  by_name s !! option_or key "default" = None ->
  getEventBus key s = getEventBus (Some (option_or key "default")) s
  /\ exists b,
       deref (snd (getEventBus key s)) (fst (getEventBus key s)) = Some b
       /\ _name b = option_or key "default"
       /\ _maxRetries b = 2
       /\ _baseDelay b = 1000
       /\ _maxDelay b = 30000
       /\ _useJitter b = true
       /\ _logPublish b = None
       /\ _eventEmitter b = [].
Proof.
  intros Hfree. split; [reflexivity|].
  unfold getEventBus, get_or_create. rewrite Hfree.
  exists (construct_bus None (option_or key "default")). split.
  - apply (deref_allocate_new (construct_bus None (option_or key "default"))
             (option_or key "default") s).
  - repeat split.
Qed.

(** X20. [setupEventBus] binds the name to a new bus that takes each
    setting from the options when given there and the default otherwise,
    and that has no subscription: an event published on it (within the
    size limit) invokes no handler, whatever was subscribed on the bus
    the name was bound to before; that bus stays as it was. *)
Theorem setupEventBus_replaces (key : string)
    (options : option NimbusEventBusOptions) (s : EventBusRegistry (W := W))
    (event : JSValue) (st : State W) :
  Z.of_nat (String.length (JSON_stringify P event)) <= 65536 ->
  exists b,
    getEventBus (Some key) (setupEventBus key options s)
    = (length (objects s), setupEventBus key options s)
    /\ deref (setupEventBus key options s) (length (objects s)) = Some b
    /\ _name b = key
    /\ _maxRetries b = option_or (options ≫= opt_maxRetries) 2
    /\ _baseDelay b = option_or (options ≫= opt_baseDelay) 1000
    /\ _maxDelay b = option_or (options ≫= opt_maxDelay) 30000
    /\ _useJitter b = option_or (options ≫= opt_useJitter) true
    /\ (forall T, listeners b T = [])
    /\ (forall a o, deref s a = Some o ->
                    deref (setupEventBus key options s) a = Some o)
    /\ handler_invocations (effects (snd (putEvent P b event st)))
       = handler_invocations (effects st).
Proof.
  intros Hsize. exists (construct_bus options key).
  split; [|split; [|split; [|split; [|split; [|split; [|split; [|split;
    [|split]]]]]]]].
  - unfold getEventBus, setupEventBus, setup, get_or_create. simpl.
    rewrite lookup_insert_eq. reflexivity.
  - apply (deref_allocate_new (construct_bus options key) key s).
  - reflexivity.
  - reflexivity.
  - reflexivity.
  - reflexivity.
  - reflexivity.
  - reflexivity.
  - intros a o Ho.
    apply (deref_allocate_old (construct_bus options key) key s a o Ho).
  - apply putEvent_no_listener. reflexivity.
Qed.

(** X29. [getEventBus] hands out one bus per name: a subscription made
    on the bus one call returns is, on the bus a later call for the same
    name returns, the last of the subscriptions to its type, after those
    the bus had before. *)
Theorem getEventBus_shares_subscriptions (key : option string)
    (s : EventBusRegistry (W := W)) (input : SubscribeEventInput)
    (st : State W) :
  well_formed s ->
  exists b0 s2 b,
    deref (snd (getEventBus key s)) (fst (getEventBus key s)) = Some b0
    /\ fst (subscribe_at (fst (getEventBus key s)) input
              (snd (getEventBus key s)) st)
       = Normal s2
    /\ getEventBus key s2 = (fst (getEventBus key s), s2)
    /\ deref s2 (fst (getEventBus key s)) = Some b
    /\ listeners b (type input)
       = (listeners b0 (type input)
          ++ [{| l_handler := handler input;
                 l_onError := onError input;
                 l_maxRetries :=
                   option_or (options input ≫= opt_maxRetries)
                     (_maxRetries b0);
                 l_baseDelay :=
                   option_or (options input ≫= opt_baseDelay)
                     (_baseDelay b0);
                 l_maxDelay :=
                   option_or (options input ≫= opt_maxDelay) (_maxDelay b0);
                 l_useJitter :=
                   option_or (options input ≫= opt_useJitter)
                     (_useJitter b0) |}])%list.
Proof.
  intros Hwf. unfold getEventBus, EventBusRegistry in *.
  destruct (get_or_create_bound construct_bus (option_or key "default") s
              Hwf) as [Hbind Hlt].
  set (a := fst (get_or_create construct_bus (option_or key "default") s))
    in *.
  set (s1 := snd (get_or_create construct_bus (option_or key "default") s))
    in *.
  destruct (lookup_lt_is_Some_2 (objects s1) a Hlt) as [b0 Hb0].
  exists b0. unfold subscribe_at, deref. rewrite Hb0.
  unfold bind, ret, subscribeEvent, perform. simpl.
  eexists. eexists. split; [reflexivity|]. split; [reflexivity|].
  split; [|split].
  - unfold get_or_create. simpl. rewrite Hbind. reflexivity.
  - unfold deref, assign. simpl.
    apply list_lookup_insert_eq. exact Hlt.
  - unfold listeners. simpl.
    rewrite List.filter_app, List.map_app. simpl.
    rewrite String.eqb_refl. reflexivity.
Qed.

End EventBusRegistryProperties.

(** ** The handler-map router (createRouter) *)

Section HandlerMapRouterProperties.

Import HandlerMapRouter.
Import Observed.

Context {W : Type}.
Variable P : Platform.

Ltac run_createRouter :=
  unfold call_route_handler, router_catch, parse, try_catch, bind, perform,
    ret, throw.

(** The call of the input log function: it marks the trace, and whether
    it returns or throws, the world is the one it leaves. *)
Lemma call_if_set_logged (inputLogFunc : option (Callback W)) (x : JSValue)
    (st : State W) :
  exists c,
    call_if_set inputLogFunc LogInputInvoked x st
    = (c,
       {| world := after_callback inputLogFunc x (world st);
          effects := (effects st ++ logged inputLogFunc x)%list;
          reads := reads st |})
    /\ (returns_normally inputLogFunc x (world st) -> c = Normal tt).
Proof.
  unfold call_if_set, call_out, bind, perform, ret, returns_normally,
    after_callback.
  destruct inputLogFunc as [f|]; simpl.
  - destruct (f x (world st)) as [c w1]. simpl. exists c.
    split; [reflexivity|]. intros H. exact H.
  - exists (Normal tt). rewrite app_nil_r. destruct st.
    split; reflexivity.
Qed.

(** The router after an input log function that is absent or returns. *)
Lemma createRouter_logged (m : RouteHandlerMap (W := W))
    (inputLogFunc : option (Callback W)) (x : JSValue) (st : State W) :
  returns_normally inputLogFunc x (world st) ->
  createRouter P m inputLogFunc x st
  = createRouter P m None x
      {| world := after_callback inputLogFunc x (world st);
         effects := (effects st ++ logged inputLogFunc x)%list;
         reads := reads st |}.
Proof.
  intros Hret. unfold createRouter. unfold bind at 1 3.
  destruct (call_if_set_logged inputLogFunc x st) as (c & Hc & Hn).
  rewrite Hc, (Hn Hret). reflexivity.
Qed.

Lemma own_route_In (m : RouteHandlerMap (W := W)) (T : string) (r : Route) :
  NoDup (List.map fst m) -> In (T, r) m -> own_route m T = Some r.
Proof.
  induction m as [|[k r0] m IH]; intros Hnd Hin; [destruct Hin|].
  simpl in *. apply NoDup_cons in Hnd. destruct Hnd as [Hk Hnd].
  destruct Hin as [Heq|Hin].
  - injection Heq as -> ->. rewrite String.eqb_refl. reflexivity.
  - destruct (String.eqb_spec k T) as [->|_].
    + exfalso. apply Hk. apply list_elem_of_In.
      apply (in_map fst m (T, r) Hin).
    + apply IH; assumption.
Qed.

Lemma member_own (m : RouteHandlerMap (W := W)) (T : string) (r : Route) :
  NoDup (List.map fst m) -> In (T, r) m -> member m T = OwnRoute r.
Proof.
  intros Hnd Hin. unfold member. rewrite (own_route_In m T r Hnd Hin).
  reflexivity.
Qed.

(** X21. When the input log function is absent or returns, the handler
    map has a route under the type of the input and the route's schema
    accepts the input, the router calls the route's handler once, on the
    parsed data and after the input log function, and returns the
    promise the handler returns as it is: a rejected promise is handed
    to the caller, not converted. *)
Theorem createRouter_dispatches (m : RouteHandlerMap (W := W))
    (inputLogFunc : option (Callback W)) (x : JSValue) (T : string)
    (r : Route) (d : JSValue) (promise : Completion JSValue) (w' : W)
    (st : State W) :
  returns_normally inputLogFunc x (world st) ->
  NoDup (List.map fst m) ->
  In (T, r) m ->
  get x "type" = JSString T ->
  safeParse (inputType r) x = ParseSuccess d ->
  handler r d (after_callback inputLogFunc x (world st))
  = (Normal promise, w') ->
  createRouter P m inputLogFunc x st
  = (Normal promise,
     {| world := w';
        effects :=
          (effects st ++ logged inputLogFunc x ++ [HandlerInvoked d])%list;
        reads := reads st |}).
Proof.
  intros Hret Hnd Hin Hty Hparse Hh.
  rewrite (createRouter_logged m inputLogFunc x st Hret).
  destruct x; simpl in Hty; try discriminate Hty.
  unfold createRouter, call_if_set. run_createRouter. simpl.
  rewrite Hty. simpl.
  rewrite (member_own m T r Hnd Hin), Hparse. simpl. rewrite Hh.
  rewrite <- ?app_assoc. reflexivity.
Qed.

(** X22. When the input log function is absent or returns and the
    route's schema rejects the input, the router throws an InvalidInput
    exception with status 400 and the issues of the Zod error as
    details, and the handler is not called. *)
Theorem createRouter_invalid_input (m : RouteHandlerMap (W := W))
    (inputLogFunc : option (Callback W)) (x : JSValue) (T : string)
    (r : Route) (z : ZodError) (st : State W) :
  returns_normally inputLogFunc x (world st) ->
  NoDup (List.map fst m) ->
  In (T, r) m ->
  get x "type" = JSString T ->
  safeParse (inputType r) x = ParseFailure z ->
  exists e,
    fst (createRouter P m inputLogFunc x st) = Abrupt (ThrownError e)
    /\ class e = InvalidInputException
    /\ name e = "INVALID_INPUT"
    /\ statusCode e = Some 400
    /\ details e = JSObject [("issues", JSArray (issues z))]
    /\ handler_arguments (effects (snd (createRouter P m inputLogFunc x st)))
       = handler_arguments (effects st).
Proof.
  intros Hret Hnd Hin Hty Hparse.
  rewrite (createRouter_logged m inputLogFunc x st Hret).
  destruct x; simpl in Hty; try discriminate Hty.
  eexists. unfold createRouter, call_if_set. run_createRouter. simpl.
  rewrite Hty. simpl.
  rewrite (member_own m T r Hnd Hin), Hparse. simpl.
  split; [reflexivity|]. repeat (split; [reflexivity|]).
  rewrite handler_arguments_app.
  destruct inputLogFunc; simpl; rewrite ?app_nil_r; reflexivity.
Qed.

(** X23. When the input log function is absent or returns and the
    handler throws before it returns a promise, the router converts what
    was thrown.  An error other than a ZodError becomes a Generic
    exception with status 500 that takes the message and the stack of
    that error: the class, the status code and the details of a Nimbus
    exception thrown by the handler are lost.  A ZodError thrown by the
    handler becomes an InvalidInput exception with status 400 and the
    issues of the error as details, as if the input had been rejected. *)
Theorem createRouter_handler_throws (m : RouteHandlerMap (W := W))
    (inputLogFunc : option (Callback W)) (x : JSValue) (T : string)
    (r : Route) (d : JSValue) (t : Thrown) (w' : W) (st : State W) :
  returns_normally inputLogFunc x (world st) ->
  NoDup (List.map fst m) ->
  In (T, r) m ->
  get x "type" = JSString T ->
  safeParse (inputType r) x = ParseSuccess d ->
  handler r d (after_callback inputLogFunc x (world st))
  = (Abrupt t, w') ->
  world (snd (createRouter P m inputLogFunc x st)) = w'
  /\ (forall e0, t = ThrownError e0 ->
       exists e,
         fst (createRouter P m inputLogFunc x st) = Abrupt (ThrownError e)
         /\ class e = GenericException
         /\ name e = "INTERNAL_SERVER_ERROR"
         /\ statusCode e = Some 500
         /\ details e = JSUndefined
         /\ message e = message e0
         /\ stack e = stack e0)
  /\ (forall z, t = ThrownZodError z ->
       exists e,
         fst (createRouter P m inputLogFunc x st) = Abrupt (ThrownError e)
         /\ class e = InvalidInputException
         /\ name e = "INVALID_INPUT"
         /\ statusCode e = Some 400
         /\ details e = JSObject [("issues", JSArray (issues z))]).
Proof.
  intros Hret Hnd Hin Hty Hparse Hh.
  rewrite (createRouter_logged m inputLogFunc x st Hret).
  destruct x; simpl in Hty; try discriminate Hty.
  unfold createRouter, call_if_set. run_createRouter. simpl.
  rewrite Hty. simpl.
  rewrite (member_own m T r Hnd Hin), Hparse. simpl. rewrite Hh. simpl.
  split; [|split].
  - destruct t as [e0|z|v]; simpl; try reflexivity.
    destruct v; reflexivity.
  - intros e0 ->. simpl. eexists. split; [reflexivity|].
    repeat split; reflexivity.
  - intros z ->. simpl. eexists. split; [reflexivity|].
    repeat split; reflexivity.
Qed.

(** X24. When the input log function is absent or returns, a type that
    is no key of the handler map but the name of a property every object
    inherits on Deno (such as "toString" or "constructor") passes the
    lookup: the router throws a Generic exception with status 500, not
    NotFound, and calls no handler. *)
Theorem createRouter_inherited_key (m : RouteHandlerMap (W := W))
    (inputLogFunc : option (Callback W)) (x : JSValue) (T : string)
    (st : State W) :
  returns_normally inputLogFunc x (world st) ->
  get x "type" = JSString T ->
  In T Object_prototype_keys ->
  ~ In T (List.map fst m) ->
  exists e,
    fst (createRouter P m inputLogFunc x st) = Abrupt (ThrownError e)
    /\ class e = GenericException
    /\ statusCode e = Some 500
    /\ handler_arguments (effects (snd (createRouter P m inputLogFunc x st)))
       = handler_arguments (effects st).
Proof.
  intros Hret Hty Hproto Hown.
  assert (Hmember : member m T = Inherited).
  { unfold member.
    assert (Hnone : own_route m T = None).
    { clear -Hown. induction m as [|[k r0] m IH]; [reflexivity|].
      simpl in *. destruct (String.eqb_spec k T) as [->|_].
      - exfalso. apply Hown. left. reflexivity.
      - apply IH. intros Hin. apply Hown. right. exact Hin. }
    rewrite Hnone.
    assert (Hex : existsb (String.eqb T) Object_prototype_keys = true).
    { apply existsb_exists. exists T. split; [exact Hproto|].
      apply String.eqb_refl. }
    rewrite Hex. reflexivity. }
  rewrite (createRouter_logged m inputLogFunc x st Hret).
  destruct x; simpl in Hty; try discriminate Hty.
  eexists. unfold createRouter, call_if_set. run_createRouter. simpl.
  rewrite Hty. simpl. rewrite Hmember. simpl.
  split; [reflexivity|]. repeat (split; [reflexivity|]).
  rewrite handler_arguments_app.
  destruct inputLogFunc; simpl; rewrite ?app_nil_r; reflexivity.
Qed.

Lemma router_catch_effects (t : Thrown) (s : State W) :
  effects (snd (router_catch P t s)) = effects s.
Proof.
  unfold router_catch, throw.
  destruct t as [e|z|v]; simpl; try reflexivity.
  destruct v; reflexivity.
Qed.

(** X25. Whatever the input and the outcome, the router calls the input
    log function, when one is given, once, on the input and before
    anything else, and calls at most one handler. *)
Theorem createRouter_logs_input_first (m : RouteHandlerMap (W := W))
    (inputLogFunc : option (Callback W)) (x : JSValue) (st : State W) :
  exists rest,
    effects (snd (createRouter P m inputLogFunc x st))
    = (effects st ++ logged inputLogFunc x ++ rest)%list
    /\ (rest = [] \/ exists d, rest = [HandlerInvoked d]).
Proof.
  unfold createRouter. unfold bind at 1.
  destruct (call_if_set_logged inputLogFunc x st) as (c0 & Hc & _).
  rewrite Hc.
  set (st1 := {| world := after_callback inputLogFunc x (world st);
                 effects := (effects st ++ logged inputLogFunc x)%list;
                 reads := reads st |}).
  assert (Hquiet : forall c : Completion (Completion JSValue),
            exists rest,
              effects (snd (c, st1))
              = (effects st ++ logged inputLogFunc x ++ rest)%list
              /\ (rest = [] \/ exists d, rest = [HandlerInvoked d])).
  { intros c. exists []. rewrite app_nil_r. split; [reflexivity|].
    left. reflexivity. }
  destruct c0 as [[]|t0]; [|apply Hquiet].
  destruct x; try apply Hquiet;
    (destruct (member m _) as [r| |];
     [ | unfold try_catch, throw; rewrite router_catch_effects;
         apply (Hquiet (Normal (Normal JSUndefined)))
       | apply Hquiet ]);
    unfold try_catch, bind, parse, call_route_handler, ret, throw;
    (destruct (safeParse (inputType r) _) as [d|z];
     [ | rewrite router_catch_effects;
         apply (Hquiet (Normal (Normal JSUndefined))) ]);
    (destruct (handler r d (world st1)) as [[p|t] w'];
     rewrite ?router_catch_effects; simpl; exists [HandlerInvoked d];
     rewrite <- app_assoc; (split; [reflexivity|]); right; exists d;
     reflexivity).
Qed.

(** X26. An input that is [undefined] or [null], on which the input log
    function is absent or returns, makes the router throw the TypeError
    of the property access, after the input log function ran: it is
    thrown outside the [try] block and is not converted into a Nimbus
    exception. *)
Theorem createRouter_nullish_input (m : RouteHandlerMap (W := W))
    (inputLogFunc : option (Callback W)) (x : JSValue) (st : State W) :
  returns_normally inputLogFunc x (world st) ->
  x = JSUndefined \/ x = JSNull ->
  exists e,
    createRouter P m inputLogFunc x st
    = (Abrupt (ThrownError e),
       {| world := after_callback inputLogFunc x (world st);
          effects := (effects st ++ logged inputLogFunc x)%list;
          reads := reads st |})
    /\ class e = TypeError.
Proof.
  intros Hret Hx.
  rewrite (createRouter_logged m inputLogFunc x st Hret).
  destruct Hx as [-> | ->]; eexists; split; reflexivity.
Qed.

End HandlerMapRouterProperties.

(** ** Scenarios of the test suites, run on the model *)

Section Scenarios.

Import Fixtures.
Import EventBus.

(** Retry success: the handler fails twice and succeeds on the third
    attempt; it is invoked three times, the delays are 10 and 20
    milliseconds, and [onError] is not called. *)
Example retry_success_scenario :
  let st := snd (handleEvent platform test_bus recovering_listener
                   (sized_event 3) (initial O)) in
  world st = 3%nat
  /\ handler_invocations (effects st) = 3%nat
  /\ onError_calls (effects st) = []
  /\ List.filter
       (fun e => match e with SetTimeout _ => true | _ => false end)
       (effects st)
     = [SetTimeout (IEEE754.Finite 10); SetTimeout (IEEE754.Finite 20)].
Proof. vm_compute. repeat split. Qed.

(** An event within the size limit reaches the subscription. *)
Example putEvent_delivers_scenario :
  let r := putEvent platform test_bus (sized_event 3) (initial O) in
  fst r = Normal tt
  /\ handler_invocations (effects (snd r)) = 4%nat
  /\ length (onError_calls (effects (snd r))) = 1%nat.
Proof. vm_compute. repeat split. Qed.

(** The serialization of the oversized test event has 66759 bytes. *)
Example big_event_size :
  Z.of_nat (String.length (JSON_stringify platform big_event)) = 66759.
Proof. vm_compute. reflexivity. Qed.

End Scenarios.

(** * The properties on the inputs of the test suites *)

Section Instances.

Import Fixtures.
Import Examples.
Import MessageRouting.
Import Observed.

(** C8 on a message without a [type], on a router with the [logInput]
    of the class documentation. *)
Lemma route_missing_type_witness :
  opt_get message_without_type "type" = JSUndefined
  /\ returns_normally (_logInput (new_MessageRouter (Some logging_options)))
       message_without_type tt
  /\ exists e,
       fst (route platform (new_MessageRouter (Some logging_options))
              message_without_type (initial tt))
       = Abrupt (ThrownError e)
       /\ class e = InvalidInputException
       /\ name e = "INVALID_INPUT"
       /\ message e = JSString "The provided input has no type attribute".
Proof.
  split; [reflexivity|]. split; [reflexivity|].
  apply (route_missing_type platform (new_MessageRouter (Some logging_options))
           message_without_type (initial tt));
    reflexivity.
Defined.

(** C8 as stated fails when [logInput] throws: [route] then rejects
    with what [logInput] threw.  The [logInput] of the class
    documentation throws a TypeError on [undefined], an input without a
    [type]; and a [logInput] that always throws does so on a message
    without a [type]. *)
Lemma route_missing_type_counterexample :
  (opt_get JSUndefined "type" = JSUndefined
   /\ ~ (exists e,
            fst (route platform (new_MessageRouter (Some logging_options))
                   JSUndefined (initial tt))
            = Abrupt (ThrownError e)
            /\ class e = InvalidInputException))
  /\ (opt_get message_without_type "type" = JSUndefined
      /\ ~ (exists e,
               fst (route platform
                      (new_MessageRouter (Some failing_log_options))
                      message_without_type (initial tt))
               = Abrupt (ThrownError e)
               /\ class e = InvalidInputException)).
Proof.
  split; (split; [reflexivity|]);
    intros (e & Hrun & Hclass); vm_compute in Hrun;
    injection Hrun as He; subst e; discriminate Hclass.
Qed.

(** C10 on a router that has a handler under the empty key. *)
Lemma route_empty_type_witness :
  get message_empty_type "type" = JSString EmptyString
  /\ returns_normally (_logInput (router_with EmptyString echo any_schema))
       message_empty_type tt
  /\ exists e,
       fst (route platform (router_with EmptyString echo any_schema)
              message_empty_type (initial tt))
       = Abrupt (ThrownError e)
       /\ class e = InvalidInputException
       /\ message e = JSString "The provided input has no type attribute"
       /\ class e <> NotFoundException
       /\ handler_invocations
            (effects
               (snd (route platform
                       (router_with EmptyString echo any_schema)
                       message_empty_type (initial tt))))
          = handler_invocations (effects (initial tt)).
Proof.
  split; [reflexivity|]. split; [exact I|].
  apply (route_empty_type platform
           (router_with EmptyString echo any_schema) message_empty_type
           (initial tt));
    [reflexivity | exact I].
Defined.

(** C10 as stated fails when [logInput] throws: the input whose type is
    the empty string is rejected with what [logInput] threw. *)
Lemma route_empty_type_counterexample :
  get message_empty_type "type" = JSString EmptyString
  /\ ~ (exists e,
           fst (route platform (new_MessageRouter (Some failing_log_options))
                  message_empty_type (initial tt))
           = Abrupt (ThrownError e)
           /\ class e = InvalidInputException).
Proof.
  split; [reflexivity|].
  intros (e & Hrun & Hclass). vm_compute in Hrun.
  injection Hrun as He. subst e. discriminate Hclass.
Qed.

(** C6 on the unknown event of the router tests. *)
Lemma route_unregistered_type_witness :
  get unknown_event "type" = JSString "UNKNOWN_EVENT"
  /\ _handlers (router_with "test.command" echo test_schema)
       !! "UNKNOWN_EVENT" = None
  /\ returns_normally
       (_logInput (router_with "test.command" echo test_schema))
       unknown_event tt
  /\ exists e,
       fst (route platform (router_with "test.command" echo test_schema)
              unknown_event (initial tt))
       = Abrupt (ThrownError e)
       /\ class e = NotFoundException
       /\ name e = "NOT_FOUND"
       /\ statusCode e = Some 404
       /\ message e = JSString "Message handler not found"
       /\ get (details e) "reason"
          = JSString ("Could not find a handler for message type: "
                      +:+ dquote +:+ "UNKNOWN_EVENT" +:+ dquote).
Proof.
  split; [reflexivity|]. split; [reflexivity|]. split; [exact I|].
  apply (route_unregistered_type platform
           (router_with "test.command" echo test_schema) unknown_event
           "UNKNOWN_EVENT" (initial tt));
    [reflexivity | discriminate | reflexivity | exact I].
Defined.

(** C6 as stated fails when [logInput] throws: the input of an
    unregistered type is rejected with what [logInput] threw, not with
    NotFound. *)
Lemma route_unregistered_type_counterexample :
  get unknown_event "type" = JSString "UNKNOWN_EVENT"
  /\ _handlers (router_with_hooks (Some failing_hook) None)
       !! "UNKNOWN_EVENT" = None
  /\ ~ (exists e,
           fst (route platform (router_with_hooks (Some failing_hook) None)
                  unknown_event (initial tt))
           = Abrupt (ThrownError e)
           /\ class e = NotFoundException).
Proof.
  split; [reflexivity|]. split; [reflexivity|].
  intros (e & Hrun & Hclass). vm_compute in Hrun.
  injection Hrun as He. subst e. discriminate Hclass.
Qed.

(** C5 as stated fails twice.  For a handler registered under the empty
    type the input is rejected for its missing type before its schema
    is consulted; and when [logInput] throws, the input is rejected
    with what [logInput] threw. *)
Lemma route_invalid_input_counterexample :
  (_handlers (router_with EmptyString echo test_schema) !! EmptyString
   = Some {| handler := echo; schema := test_schema |}
   /\ get message_empty_type_bad_number "type" = JSString EmptyString
   /\ (exists error,
          safeParse test_schema message_empty_type_bad_number
          = ParseFailure error)
   /\ ~ (exists e,
            fst (route platform (router_with EmptyString echo test_schema)
                   message_empty_type_bad_number (initial tt))
            = Abrupt (ThrownError e)
            /\ message e = JSString "The provided input is invalid"))
  /\ (_handlers (router_with_hooks (Some failing_hook) None)
      !! "test.command"
      = Some {| handler := echo; schema := test_schema |}
      /\ get message_bad_number "type" = JSString "test.command"
      /\ (exists error,
             safeParse test_schema message_bad_number = ParseFailure error)
      /\ ~ (exists e,
               fst (route platform
                      (router_with_hooks (Some failing_hook) None)
                      message_bad_number (initial tt))
               = Abrupt (ThrownError e)
               /\ message e = JSString "The provided input is invalid")).
Proof.
  split; (split; [reflexivity|]); (split; [reflexivity|]);
    (split; [eexists; reflexivity|]);
    intros (e & Hrun & Hmsg); vm_compute in Hrun;
    injection Hrun as He; subst e; discriminate Hmsg.
Qed.

(** C5, amended, on the invalid input of the router tests. *)
Lemma route_invalid_input_witness :
  _handlers (router_with "test.command" echo test_schema) !! "test.command"
  = Some {| handler := echo; schema := test_schema |}
  /\ get message_bad_number "type" = JSString "test.command"
  /\ returns_normally
       (_logInput (router_with "test.command" echo test_schema))
       message_bad_number tt
  /\ exists e,
       fst (route platform (router_with "test.command" echo test_schema)
              message_bad_number (initial tt))
       = Abrupt (ThrownError e)
       /\ class e = InvalidInputException
       /\ message e = JSString "The provided input is invalid"
       /\ get (details e) "issues"
          = JSArray [JSObject [("code", JSString "invalid_type")]].
Proof.
  split; [reflexivity|]. split; [reflexivity|]. split; [exact I|].
  destruct (route_invalid_input platform
              (router_with "test.command" echo test_schema)
              message_bad_number "test.command" echo test_schema
              {| issues := [JSObject [("code", JSString "invalid_type")]];
                 zod_message := "Invalid input";
                 zod_stack := None |}
              (initial tt))
    as (e & Hrun & Hclass & _ & Hmsg & Hissues & _);
    [reflexivity | discriminate | reflexivity | reflexivity | exact I |].
  exists e. repeat split; assumption.
Defined.

(** C1 as stated fails in four ways.  A schema in Zod's default object
    mode drops the field it does not know, so the handler does not
    receive the input itself; a handler registered under the empty type
    is never reached; when [logInput] throws the handler is not reached
    either; and when [logOutput] throws, [route] rejects although the
    handler resolved. *)
Lemma route_handler_receives_input_counterexample :
  (_handlers (router_with "test.command" echo test_schema) !! "test.command"
   = Some {| handler := echo; schema := test_schema |}
   /\ get message_with_extra "type" = JSString "test.command"
   /\ (exists d, safeParse test_schema message_with_extra = ParseSuccess d)
   /\ fst (route platform (router_with "test.command" echo test_schema)
             message_with_extra (initial tt))
      <> fst (echo message_with_extra tt))
  /\ (_handlers (router_with EmptyString echo any_schema) !! EmptyString
      = Some {| handler := echo; schema := any_schema |}
      /\ get message_empty_type "type" = JSString EmptyString
      /\ (exists d, safeParse any_schema message_empty_type = ParseSuccess d)
      /\ fst (route platform (router_with EmptyString echo any_schema)
                message_empty_type (initial tt))
         <> fst (echo message_empty_type tt))
  /\ (_handlers (router_with_hooks (Some failing_hook) None)
      !! "test.command"
      = Some {| handler := echo; schema := test_schema |}
      /\ get parsed_command "type" = JSString "test.command"
      /\ safeParse test_schema parsed_command = ParseSuccess parsed_command
      /\ fst (route platform (router_with_hooks (Some failing_hook) None)
                parsed_command (initial tt))
         <> fst (echo parsed_command tt)
      /\ handler_invocations
           (effects
              (snd (route platform
                      (router_with_hooks (Some failing_hook) None)
                      parsed_command (initial tt))))
         = O)
  /\ (_handlers (router_with_hooks None (Some failing_hook))
      !! "test.command"
      = Some {| handler := echo; schema := test_schema |}
      /\ get parsed_command "type" = JSString "test.command"
      /\ safeParse test_schema parsed_command = ParseSuccess parsed_command
      /\ fst (echo parsed_command tt) = Normal parsed_command
      /\ exists t,
           fst (route platform (router_with_hooks None (Some failing_hook))
                  parsed_command (initial tt))
           = Abrupt t).
Proof.
  split; [|split; [|split]].
  - split; [reflexivity|]. split; [reflexivity|].
    split; [eexists; reflexivity|].
    vm_compute. discriminate.
  - split; [reflexivity|]. split; [reflexivity|].
    split; [eexists; reflexivity|].
    vm_compute. discriminate.
  - split; [reflexivity|]. split; [reflexivity|]. split; [reflexivity|].
    split; [vm_compute; discriminate|]. reflexivity.
  - split; [reflexivity|]. split; [reflexivity|]. split; [reflexivity|].
    split; [reflexivity|]. eexists. vm_compute. reflexivity.
Qed.

(** C1, amended, on the message with an extra field: the handler is
    given the parsed data, without the field. *)
Lemma route_dispatches_parsed_data_witness :
  safeParse test_schema message_with_extra = ParseSuccess parsed_command
  /\ returns_normally
       (_logInput (router_with "test.command" echo test_schema))
       message_with_extra tt
  /\ fst (route platform (router_with "test.command" echo test_schema)
            message_with_extra (initial tt))
     = Normal parsed_command
  /\ handler_arguments
       (effects
          (snd (route platform (router_with "test.command" echo test_schema)
                  message_with_extra (initial tt))))
     = [parsed_command].
Proof.
  split; [reflexivity|]. split; [exact I|].
  destruct (route_dispatches_parsed_data platform
              (router_with "test.command" echo test_schema)
              message_with_extra parsed_command
              "test.command" echo test_schema (initial tt))
    as (Hrun & _ & Hargs);
    [reflexivity | discriminate | reflexivity | reflexivity | exact I |].
  split; [|exact Hargs].
  apply Hrun. intros v w' _. exact I.
Defined.

(** C7 as stated fails twice.  On the message router the message of
    the NotFound exception is another one; and when the input log
    function throws, the router built by [createRouter] throws what
    that function threw. *)
Lemma unknown_event_not_found_counterexample :
  (_handlers (new_MessageRouter (W := unit) None) = ∅
   /\ get unknown_event "type" = JSString "UNKNOWN_EVENT"
   /\ ~ (exists e,
            fst (route platform (new_MessageRouter None) unknown_event
                   (initial tt))
            = Abrupt (ThrownError e)
            /\ class e = NotFoundException
            /\ message e = JSString "Route handler not found"))
  /\ ~ (exists e,
           fst (HandlerMapRouter.createRouter platform [] (Some failing_hook)
                  unknown_event (initial tt))
           = Abrupt (ThrownError e)
           /\ class e = NotFoundException
           /\ message e = JSString "Route handler not found").
Proof.
  split; [split; [reflexivity|]; split; [reflexivity|]|];
    intros (e & Hrun & _ & Hmsg); vm_compute in Hrun;
    injection Hrun as He; subst e; discriminate Hmsg.
Qed.

(** C7, amended, on the unknown event of the router tests, with the
    [logInput] of the class documentation on both routers. *)
Lemma unknown_event_not_found_witness :
  get unknown_event "type" = JSString "UNKNOWN_EVENT"
  /\ returns_normally (Some type_logging_hook) unknown_event tt
  /\ (exists e,
         fst (HandlerMapRouter.createRouter platform []
                (Some type_logging_hook) unknown_event (initial tt))
         = Abrupt (ThrownError e)
         /\ class e = NotFoundException
         /\ message e = JSString "Route handler not found")
  /\ (exists e,
         fst (route platform (new_MessageRouter (Some logging_options))
                unknown_event (initial tt))
         = Abrupt (ThrownError e)
         /\ class e = NotFoundException
         /\ message e = JSString "Message handler not found").
Proof.
  split; [reflexivity|]. split; [reflexivity|].
  apply (unknown_event_not_found platform (Some type_logging_hook)
           (Some logging_options) unknown_event (initial tt));
    reflexivity.
Defined.

End Instances.

Section BusInstances.

Import Fixtures.
Import Examples.
Import EventBus.
Import IEEE754.
Import Observed.

Lemma always_failing_throws : always_throws always_failing.
Proof. intros m w. eexists. eexists. reflexivity. Defined.

(** C2 on a subscription with three retries, whose [onError] adds one
    hundred to the count the handler keeps in the world: four
    invocations, then the call of [onError]. *)
Lemma delivery_exhausts_retries_witness :
  l_maxRetries (failing_listener 3) = Z.of_nat 3
  /\ always_throws always_failing
  /\ exists (before tail : list Effect),
       effects
         (snd (handleEvent platform test_bus (failing_listener 3)
                 (sized_event 3) (initial O)))
       = (before ++ tail)%list
       /\ handler_invocations before = 4%nat
       /\ length (onError_calls tail) = 1%nat
       /\ fst (handleEvent platform test_bus (failing_listener 3)
                 (sized_event 3) (initial O))
          = Normal tt
       /\ world
            (snd (handleEvent platform test_bus (failing_listener 3)
                    (sized_event 3) (initial O)))
          = 104%nat.
Proof.
  split; [reflexivity|]. split; [exact always_failing_throws|].
  destruct (delivery_exhausts_retries platform test_bus (failing_listener 3)
              (sized_event 3) 3 (initial O) eq_refl always_failing_throws)
    as (error & before & tail & Heff & Hinv & _ & _ & Hsome & _).
  destruct (Hsome _ eq_refl) as (Htail & Hrun & Hworld).
  exists before, tail. split; [exact Heff|]. split; [exact Hinv|].
  split; [rewrite Htail; reflexivity|].
  split; [rewrite Hrun; reflexivity|].
  rewrite Hworld. reflexivity.
Defined.

(** C4 on the oversized event of the event bus tests. *)
Lemma putEvent_rejects_oversize_witness :
  Z.of_nat (String.length (JSON_stringify platform big_event)) > 65536
  /\ exists e,
       putEvent platform test_bus big_event (initial O)
       = (Abrupt (ThrownError e), initial O)
       /\ class e = GenericException
       /\ message e = JSString "Event size exceeds the limit of 64KB".
Proof.
  assert (Hbig :
            Z.of_nat (String.length (JSON_stringify platform big_event))
            > 65536) by (vm_compute; reflexivity).
  split; [exact Hbig|].
  destruct (putEvent_rejects_oversize platform test_bus big_event
              (initial O) Hbig)
    as (e & Hrun & Hclass & _ & _ & Hmsg & _).
  exists e. repeat split; assumption.
Defined.

(** The default policy is exact at its first attempts. *)
Lemma default_policy_exact (n : Z) :
  1 <= n <= 1024 -> exact_policy 1000 30000 n.
Proof.
  intros [Hlow Hhigh]. split; [exact Hlow|].
  split; [split; discriminate|]. split; [split; discriminate|].
  left. reflexivity.
Defined.



End BusInstances.

Section FactoryInstances.

Import Fixtures.
Import Message.

(** C9 on inputs that give the required fields only. *)
Lemma factories_fill_defaults_witness :
  (c_id command_input = None /\ c_correlationid command_input = None
   /\ c_time command_input = None /\ c_datacontenttype command_input = None)
  /\ defaults_filled platform (initial tt)
       (fst (createCommand platform command_input (initial tt)))
  /\ defaults_filled platform (initial tt)
       (fst (createQuery platform query_input (initial tt)))
  /\ defaults_filled platform (initial tt)
       (fst (createEvent platform event_input (initial tt))).
Proof.
  split; [repeat split|].
  apply (factories_fill_defaults platform command_input query_input
           event_input (initial tt));
    repeat split.
Defined.

End FactoryInstances.

(** * The further properties on concrete inputs *)

Section MoreRouterInstances.

Import Fixtures.
Import Examples.
Import MessageRouting.
Import Observed.

(** X1 on the test command: registered on a new router, it reaches the
    handler as the schema parsed it. *)
Lemma register_then_route_witness :
  fst (register (new_MessageRouter None) "test.command" echo test_schema
         (initial tt))
  = Normal (router_with "test.command" echo test_schema)
  /\ fst (route platform (router_with "test.command" echo test_schema)
            message_with_extra (initial tt))
     = Normal parsed_command
  /\ handler_arguments
       (effects
          (snd (route platform (router_with "test.command" echo test_schema)
                  message_with_extra (initial tt))))
     = [parsed_command].
Proof.
  split; [reflexivity|].
  destruct (register_then_route platform (new_MessageRouter None)
              (router_with "test.command" echo test_schema) "test.command"
              echo test_schema message_with_extra parsed_command (initial tt)
              (initial tt))
    as (Hrun & Hargs);
    [reflexivity | discriminate | reflexivity | reflexivity | exact I |].
  split; [|exact Hargs].
  apply Hrun. intros v w' _. exact I.
Defined.

(** X2 on the unknown event: registering the test command changes
    nothing for it. *)
Lemma register_other_type_witness :
  get unknown_event "type" <> JSString "test.command"
  /\ route platform (router_with "test.command" echo test_schema)
       unknown_event (initial tt)
     = route platform (new_MessageRouter None) unknown_event (initial tt).
Proof.
  split; [discriminate|].
  apply (register_other_type platform (new_MessageRouter None)
           (router_with "test.command" echo test_schema) "test.command"
           echo test_schema unknown_event (initial tt) (initial tt));
    [reflexivity | discriminate].
Defined.


End MoreRouterInstances.

Section MoreBusInstances.

Import Fixtures.
Import Examples.
Import EventBus.
Import IEEE754.
Import Observed.

(** X6 on the subscription of the retry-success case. *)
Lemma delivery_shape_witness :
  0 <= l_maxRetries recovering_listener
  /\ exists new,
       effects
         (snd (handleEvent platform test_bus recovering_listener
                 (sized_event 3) (initial O)))
       = new
       /\ 1 <= Z.of_nat (handler_invocations new) <= 4
       /\ attempts_and_timers new
          = alternating (handler_invocations new - 1)
       /\ (length (onError_calls new) <= 1)%nat
       /\ (count_if (is_delivered "success") new
           + count_if (is_delivered "error") new = 1)%nat.
Proof.
  split; [discriminate|].
  destruct (delivery_shape platform test_bus recovering_listener
              (sized_event 3) (initial O))
    as (new & Heff & Hinv & _ & Htimers & Herr & _ & _ & Hcount & _).
  - discriminate.
  - exists new. split; [exact Heff|].
    split; [exact Hinv|]. split; [exact Htimers|].
    split; [exact Herr | exact Hcount].
Defined.

Lemma fails_twice_recovers (event : JSValue) :
  fails_then_resolves fails_twice event O 2.
Proof.
  split.
  - intros i Hi. destruct i as [|[|i]]; [eexists; reflexivity ..|lia].
  - eexists. reflexivity.
Defined.

(** X7 on the retry-success case: two failures, then success; three
    invocations and delays of 10 and 20 milliseconds. *)
Lemma delivery_recovers_witness :
  Z.of_nat 2 <= l_maxRetries recovering_listener
  /\ fails_then_resolves fails_twice (sized_event 3) O 2
  /\ exists new,
       effects
         (snd (handleEvent platform test_bus recovering_listener
                 (sized_event 3) (initial O)))
       = new
       /\ handler_invocations new = 3%nat
       /\ attempts_and_timers new = [true; false; true; false; true]
       /\ onError_calls new = []
       /\ Forall2 has_value (timer_delays new)
            [backoff 10 100 1; backoff 10 100 2].
Proof.
  split; [discriminate|]. split; [apply fails_twice_recovers|].
  destruct (delivery_recovers platform test_bus recovering_listener
              (sized_event 3) 2 (initial O))
    as (new & _ & Heff & _ & Hinv & Halt & Hno & _ & _ & _ & Hdelays).
  - discriminate.
  - apply fails_twice_recovers.
  - exists new. split; [exact Heff|]. split; [exact Hinv|].
    split; [exact Halt|]. split; [exact Hno|].
    apply Hdelays.
    + reflexivity.
    + split; discriminate.
    + split; discriminate.
    + left. reflexivity.
Defined.

(** X8 on a subscription with a retry limit of -1. *)
Lemma delivery_negative_retries_witness :
  l_maxRetries (failing_listener (-1)) < 0
  /\ handleEvent platform test_bus (failing_listener (-1)) (sized_event 3)
       (initial O)
     = (Normal tt,
        {| world := O;
           effects :=
             [StartActiveSpan "eventbus.handle" CONSUMER
                (span_attributes test_bus "process" (sized_event 3))];
           reads := O |}).
Proof.
  split; [reflexivity|].
  apply (delivery_negative_retries platform test_bus (failing_listener (-1))
           (sized_event 3) (initial O)).
  reflexivity.
Defined.

(** X9 on the test bus, whose only handler always fails. *)
Lemma putEvent_hides_subscriber_failures_witness :
  Z.of_nat (String.length (JSON_stringify platform (sized_event 3))) <= 65536
  /\ nullish (sized_event 3) = false
  /\ returns_normally (_logPublish test_bus) (sized_event 3) O
  /\ listeners test_bus (ToString (get (sized_event 3) "type")) <> []
  /\ always_throws always_failing
  /\ fst (putEvent platform test_bus (sized_event 3) (initial O)) = Normal tt.
Proof.
  assert (Hsize : Z.of_nat
                    (String.length (JSON_stringify platform (sized_event 3)))
                  <= 65536) by (vm_compute; discriminate).
  assert (Hsome : listeners test_bus (ToString (get (sized_event 3) "type"))
                  <> []) by discriminate.
  split; [exact Hsize|]. split; [reflexivity|]. split; [exact I|].
  split; [exact Hsome|].
  split; [intros m w; eexists; eexists; reflexivity|].
  apply (putEvent_hides_subscriber_failures platform test_bus (sized_event 3)
           (initial O) Hsize eq_refl I).
  left. exact Hsome.
Defined.




(** X12 on the test bus and an event of a type nobody subscribed to. *)
Lemma putEvent_without_subscription_witness :
  Z.of_nat (String.length (JSON_stringify platform unknown_event)) <= 65536
  /\ listeners test_bus (ToString (get unknown_event "type")) = []
  /\ putEvent platform test_bus unknown_event (initial O)
     = (Normal tt,
        {| world := O;
           effects :=
             [StartActiveSpan "eventbus.publish" PRODUCER
                (span_attributes test_bus "publish" unknown_event);
              CounterAdd "eventbus_events_published_total" 1
                (metricLabels test_bus unknown_event);
              HistogramRecord "eventbus_event_size_bytes"
                (SizeBytes
                   (Z.of_nat
                      (String.length
                         (JSON_stringify platform unknown_event))))
                (metricLabels test_bus unknown_event);
              SpanEnd];
           reads := O |}).
Proof.
  assert (Hsize : Z.of_nat
                    (String.length (JSON_stringify platform unknown_event))
                  <= 65536) by (vm_compute; discriminate).
  split; [exact Hsize|]. split; [reflexivity|].
  apply (putEvent_without_subscription platform test_bus unknown_event
           (initial O) Hsize eq_refl I); [reflexivity | discriminate].
Defined.

(** X13 on the test bus: a second subscription to the type of the test
    event, with its own retry limit. *)
Lemma subscribeEvent_appends_witness :
  exists this',
    fst (subscribeEvent test_bus subscription (initial O)) = Normal this'
    /\ listeners this' "at.overlap.nimbus.test-event"
       = [failing_listener 3;
          {| l_handler := counting; l_onError := None; l_maxRetries := 5;
             l_baseDelay := 1000; l_maxDelay := 30000;
             l_useJitter := true |}]
    /\ _maxRetries this' = 3.
Proof.
  eexists. split; [reflexivity|].
  destruct (subscribeEvent_appends test_bus _ subscription (initial O)
              eq_refl)
    as (Hnew & _ & _ & Hretries & _).
  split; [exact Hnew | exact Hretries].
Defined.

(** X14 on the default policy, third attempt, with jitter. *)
Lemma retry_delay_capped_witness :
  exact_policy 1000 30000 3
  /\ exists s : Q,
       fst (_calculateRetryDelay platform 3 1000 30000 true (initial tt))
       = Normal (Finite s)
       /\ (0 <= s)%Q
       /\ exists top,
            add (of_Z 30000) (mul (of_Z 30000) one_tenth) = Finite top
            /\ (s <= top)%Q
            /\ (top <= (11 # 10) * inject_Z 30000 * (1 + 2 ^ (-51)))%Q.
Proof.
  assert (Hexact : exact_policy 1000 30000 3).
  { apply default_policy_exact. split; discriminate. }
  split; [exact Hexact|].
  destruct (retry_delay_capped platform 3 1000 30000 true (initial tt)
              Hexact)
    as (s & Hrun & Hlow & _ & Hhigh).
  exists s. split; [exact Hrun|]. split; [exact Hlow | exact Hhigh].
Defined.

(** X15 on the default policy: the second delay is twice the first. *)
Lemma retry_delay_doubles_witness :
  exact_policy 1000 30000 2
  /\ exists q1 q2 : Q,
       fst (_calculateRetryDelay platform 1 1000 30000 false (initial tt))
       = Normal (Finite q1)
       /\ fst (_calculateRetryDelay platform 2 1000 30000 false (initial tt))
          = Normal (Finite q2)
       /\ (q1 <= q2)%Q
       /\ (q2 == 2 * q1)%Q.
Proof.
  assert (Hexact : exact_policy 1000 30000 2).
  { apply default_policy_exact. split; discriminate. }
  split; [exact Hexact|].
  destruct (retry_delay_doubles platform 1 1000 30000 (initial tt)
              (initial tt))
    as (q1 & q2 & Hrun1 & Hrun2 & Hle & Hdouble & _).
  - discriminate.
  - exact Hexact.
  - exists q1, q2. split; [exact Hrun1|]. split; [exact Hrun2|].
    split; [exact Hle|]. apply Hdouble. discriminate.
Defined.

End MoreBusInstances.

Section RegistryInstances.

Import Fixtures.
Import Examples.
Import Registries.

(** X16 on the empty registry: the default router, obtained twice. *)
Lemma getRouter_shares_registrations_witness :
  well_formed no_routers
  /\ exists s2 r,
       fst (register_at (fst (getRouter None no_routers)) "test.command"
              echo test_schema (snd (getRouter None no_routers))
              (initial tt))
       = Normal s2
       /\ getRouter None s2 = (fst (getRouter None no_routers), s2)
       /\ deref s2 (fst (getRouter None no_routers)) = Some r
       /\ MessageRouting._handlers r !! "test.command"
          = Some {| MessageRouting.handler := echo;
                    MessageRouting.schema := test_schema |}.
Proof.
  split; [apply well_formed_empty|].
  apply (getRouter_shares_registrations None no_routers "test.command"
           echo test_schema (initial tt)).
  apply well_formed_empty.
Defined.

(** X17 on a registry whose default router handles the test command:
    after [setupRouter] the command is not routed any more. *)
Lemma setupRouter_replaces_witness :
  get message_with_extra "type" = JSString "test.command"
  /\ deref registry_with_router O
     = Some (router_with "test.command" echo test_schema)
  /\ exists r,
       getRouter (Some "default")
         (setupRouter "default" None registry_with_router)
       = (1%nat, setupRouter "default" None registry_with_router)
       /\ deref (setupRouter "default" None registry_with_router) 1
          = Some r
       /\ deref (setupRouter "default" None registry_with_router) O
          = Some (router_with "test.command" echo test_schema)
       /\ exists e,
            fst (MessageRouting.route platform r message_with_extra
                   (initial tt))
            = Abrupt (ThrownError e)
            /\ class e = NotFoundException.
Proof.
  split; [reflexivity|]. split; [reflexivity|].
  destruct (setupRouter_replaces platform "default" None registry_with_router
              message_with_extra "test.command" (initial tt) eq_refl)
    as (r & Hget & Hderef & _ & _ & _ & _ & Hold & Hroute).
  - discriminate.
  - exact I.
  - exists r. split; [exact Hget|]. split; [exact Hderef|].
    split; [apply Hold; reflexivity|]. exact Hroute.
Defined.

Lemma registry_with_router_well_formed : well_formed registry_with_router.
Proof. apply well_formed_allocate. apply well_formed_empty. Defined.

(** X18 on the same registry: a handler registered on the router
    "orders" does not reach the router "default". *)
Lemma getRouter_names_apart_witness :
  well_formed registry_with_router
  /\ by_name registry_with_router !! "default" = Some O
  /\ exists s2,
       fst (register_at (fst (getRouter (Some "orders") registry_with_router))
              "test.other" echo any_schema
              (snd (getRouter (Some "orders") registry_with_router))
              (initial tt))
       = Normal s2
       /\ fst (getRouter (Some "orders") registry_with_router) <> O
       /\ getRouter (Some "default") s2 = (O, s2)
       /\ deref s2 O = Some (router_with "test.command" echo test_schema).
Proof.
  split; [apply registry_with_router_well_formed|]. split; [reflexivity|].
  apply (getRouter_names_apart (Some "orders") "default"
           registry_with_router O
           (router_with "test.command" echo test_schema) "test.other" echo
           any_schema (initial tt));
    [apply registry_with_router_well_formed | discriminate | reflexivity
    | reflexivity].
Defined.

(** X19 on the empty registry. *)
Lemma getEventBus_creates_default_witness :
  by_name no_buses !! "default" = None
  /\ exists b,
       deref (snd (getEventBus None no_buses))
         (fst (getEventBus None no_buses))
       = Some b
       /\ EventBus._name b = "default"
       /\ EventBus._maxRetries b = 2
       /\ EventBus._baseDelay b = 1000
       /\ EventBus._maxDelay b = 30000
       /\ EventBus._useJitter b = true.
Proof.
  split; [reflexivity|].
  destruct (getEventBus_creates_default None no_buses eq_refl)
    as (_ & b & Hderef & Hname & Hretries & Hbase & Hmax & Hjitter & _).
  exists b. split; [exact Hderef|]. split; [exact Hname|].
  split; [exact Hretries|]. split; [exact Hbase|].
  split; [exact Hmax | exact Hjitter].
Defined.

(** X20 on a registry whose bus "size-test" has a subscription to the
    type of the test event: after [setupEventBus] nothing is invoked. *)
Lemma setupEventBus_replaces_witness :
  Z.of_nat (String.length (JSON_stringify platform (sized_event 3))) <= 65536
  /\ deref registry_with_bus O = Some test_bus
  /\ exists b,
       getEventBus (Some "size-test")
         (setupEventBus "size-test" (Some five_retries) registry_with_bus)
       = (1%nat,
          setupEventBus "size-test" (Some five_retries) registry_with_bus)
       /\ EventBus._maxRetries b = 5
       /\ EventBus._baseDelay b = 1000
       /\ deref
            (setupEventBus "size-test" (Some five_retries) registry_with_bus)
            O
          = Some test_bus
       /\ handler_invocations
            (effects
               (snd (EventBus.putEvent platform b (sized_event 3)
                       (initial O))))
          = O.
Proof.
  assert (Hsize : Z.of_nat
                    (String.length (JSON_stringify platform (sized_event 3)))
                  <= 65536) by (vm_compute; discriminate).
  split; [exact Hsize|]. split; [reflexivity|].
  destruct (setupEventBus_replaces platform "size-test" (Some five_retries)
              registry_with_bus (sized_event 3) (initial O) Hsize)
    as (b & Hget & _ & _ & Hretries & Hbase & _ & _ & _ & Hold & Hnone).
  exists b. split; [exact Hget|]. split; [exact Hretries|].
  split; [exact Hbase|]. split; [apply Hold; reflexivity|]. exact Hnone.
Defined.

(** X29 on the empty registry: the default bus after one subscription. *)
Lemma getEventBus_shares_subscriptions_witness :
  well_formed no_buses
  /\ exists s2 b,
       fst (subscribe_at (fst (getEventBus None no_buses)) subscription
              (snd (getEventBus None no_buses)) (initial O))
       = Normal s2
       /\ getEventBus None s2 = (fst (getEventBus None no_buses), s2)
       /\ deref s2 (fst (getEventBus None no_buses)) = Some b
       /\ length (EventBus.listeners b (EventBus.type subscription)) = 1%nat.
Proof.
  split; [apply well_formed_empty|].
  destruct (getEventBus_shares_subscriptions None no_buses subscription
              (initial O) (well_formed_empty (Instance := _)))
    as (b0 & s2 & b & Hb0 & Hrun & Hget & Hderef & Hnew).
  exists s2, b. split; [exact Hrun|]. split; [exact Hget|].
  split; [exact Hderef|]. rewrite Hnew.
  injection Hb0 as <-. reflexivity.
Defined.

End RegistryInstances.

Section HandlerMapRouterInstances.

Import Fixtures.
Import Examples.
Import HandlerMapRouter.
Import Observed.

Lemma handler_map_keys : NoDup (List.map fst handler_map).
Proof.
  apply NoDup_cons. split.
  - intros Hin. apply list_elem_of_In in Hin.
    destruct Hin as [Heq|[]]. discriminate Heq.
  - apply NoDup_singleton.
Defined.

(** X21 on the test command: the promise of the handler is returned. *)
Lemma createRouter_dispatches_witness :
  NoDup (List.map fst handler_map)
  /\ In ("test.command", resolving_route) handler_map
  /\ createRouter platform handler_map None message_with_extra (initial tt)
     = (Normal (Normal parsed_command),
        {| world := tt; effects := [HandlerInvoked parsed_command];
           reads := O |}).
Proof.
  split; [apply handler_map_keys|]. split; [left; reflexivity|].
  apply (createRouter_dispatches platform handler_map None message_with_extra
           "test.command" resolving_route parsed_command
           (Normal parsed_command) tt (initial tt));
    [exact I | apply handler_map_keys | left; reflexivity | reflexivity
    | reflexivity | reflexivity].
Defined.

(** X22 on the test command with a string for the number. *)
Lemma createRouter_invalid_input_witness :
  safeParse test_schema message_bad_number = ParseFailure invalid_type_error
  /\ exists e,
       fst (createRouter platform handler_map None message_bad_number
              (initial tt))
       = Abrupt (ThrownError e)
       /\ class e = InvalidInputException
       /\ statusCode e = Some 400
       /\ details e
          = JSObject [("issues", JSArray (issues invalid_type_error))].
Proof.
  split; [reflexivity|].
  destruct (createRouter_invalid_input platform handler_map None
              message_bad_number "test.command" resolving_route
              invalid_type_error (initial tt))
    as (e & Hrun & Hclass & _ & Hstatus & Hdetails & _).
  - exact I.
  - apply handler_map_keys.
  - left. reflexivity.
  - reflexivity.
  - reflexivity.
  - exists e. split; [exact Hrun|]. split; [exact Hclass|].
    split; [exact Hstatus | exact Hdetails].
Defined.

(** X23 on a handler that throws NotFound (404): the caller gets a
    Generic exception with status 500 and the same message. *)
Lemma createRouter_handler_throws_witness :
  class order_not_found = NotFoundException
  /\ statusCode order_not_found = Some 404
  /\ exists e,
       fst (createRouter platform handler_map None message_failing
              (initial tt))
       = Abrupt (ThrownError e)
       /\ class e = GenericException
       /\ statusCode e = Some 500
       /\ details e = JSUndefined
       /\ message e = JSString "Order not found".
Proof.
  split; [reflexivity|]. split; [reflexivity|].
  destruct (createRouter_handler_throws platform handler_map None
              message_failing "test.failing" throwing_route message_failing
              (ThrownError order_not_found) tt (initial tt))
    as (_ & Herror & _).
  - exact I.
  - apply handler_map_keys.
  - right. left. reflexivity.
  - reflexivity.
  - reflexivity.
  - reflexivity.
  - destruct (Herror order_not_found eq_refl)
      as (e & Hrun & Hclass & _ & Hstatus & Hdetails & Hmessage & _).
    exists e. split; [exact Hrun|]. split; [exact Hclass|].
    split; [exact Hstatus|]. split; [exact Hdetails | exact Hmessage].
Defined.

(** X24 on an input of type "toString". *)
Lemma createRouter_inherited_key_witness :
  get message_inherited_type "type" = JSString "toString"
  /\ exists e,
       fst (createRouter platform handler_map None message_inherited_type
              (initial tt))
       = Abrupt (ThrownError e)
       /\ class e = GenericException
       /\ statusCode e = Some 500.
Proof.
  split; [reflexivity|].
  destruct (createRouter_inherited_key platform handler_map None
              message_inherited_type "toString" (initial tt) I eq_refl)
    as (e & Hrun & Hclass & Hstatus & _).
  - do 5 right. left. reflexivity.
  - intros [Heq|[Heq|[]]]; discriminate Heq.
  - exists e. split; [exact Hrun|]. split; [exact Hclass | exact Hstatus].
Defined.

(** X26 on [undefined]. *)
Lemma createRouter_nullish_input_witness :
  exists e,
    createRouter platform handler_map None JSUndefined (initial tt)
    = (Abrupt (ThrownError e), initial tt)
    /\ class e = TypeError
    /\ message e
       = JSString "Cannot read properties of undefined (reading 'type')".
Proof.
  destruct (createRouter_nullish_input platform handler_map None JSUndefined
              (initial tt) I (or_introl eq_refl))
    as (e & Hrun & Hclass).
  exists e. split; [exact Hrun|]. split; [exact Hclass|].
  injection Hrun as He. subst e. reflexivity.
Defined.

End HandlerMapRouterInstances.

